(** * The task service of the to-do application

    A shallow embedding of the Express server of the repository
    (todo-app/server.js): the request handlers of [/tasks], the
    in-memory fallback store, the calls the handlers make to Mongoose,
    and the start-up connection loop [connectToMongo]; and of the
    component [App] of its front end (todo-frontend/src/App.js): the
    helpers of the board, the requests its handlers send and what they
    do with the responses.

    Conventions.
    - A JavaScript string is a [string] whose characters are its code
      units; only code units below 256 are representable.
    - A JavaScript number that reaches the handlers comes from a JSON
      body; the embedding keeps the integers that a double holds
      exactly ([Z], below 2^53 in magnitude), which [String(n)] prints
      in decimal.  Numbers with a fraction or beyond that range are
      outside the embedding.  The two places where the code computes
      with [Infinity] and [NaN] use [xnum].
    - An absent property ([undefined]) is a failed lookup ([None]).
    - A conversion that can throw a [TypeError] ([String(x)], [new
      Date(x)] and the template literal, on an object whose own
      [toString] hides the one of [Object.prototype]) returns an
      [option]; in the handlers of the server the [None] is thrown and
      reaches the [catch] of the handler.
    - What belongs to the runtime and to the libraries (the clock,
      [Date.parse], the outcome of a connection attempt, Mongoose's casts
      of the values of a request body, what Mongoose and the database
      make of the update operators of a body) is a field of the record
      [host]; the theorems hold for every host.
    - The handlers run one at a time: each makes one call to the
      database, and that call is atomic. *)

From Stdlib Require Import ZArith Ascii String List Sorted.
From stdpp Require Import base option list gmap strings pretty.
From Equations Require Import Equations.

Set Warnings "-register-all".

Open Scope Z_scope.

(* ================================================================== *)
(** ** JavaScript values *)
(* ================================================================== *)

Module JS.

(** What [express.json()] hands to a handler. *)
Inductive json : Type :=
| JNull
| JBool (b : bool)
| JNum (n : Z)
| JStr (s : string)
| JArr (xs : list json)
| JObj (kvs : list (string * json)).

(** What a stored object holds: a JSON value, or a [Date] object whose
    time value is a number of milliseconds ([None]: [NaN], the
    "Invalid Date"). *)
Inductive value : Type :=
| VJson (j : json)
| VDate (t : option Z).

Global Instance json_inhabited : Inhabited json := populate JNull.
Global Instance value_inhabited : Inhabited value := populate (VJson JNull).

(** [!!v]: ToBoolean.  Objects (arrays and dates too) are truthy. *)
Definition truthy_json (j : json) : bool :=
  match j with
  | JNull => false
  | JBool b => b
  | JNum n => negb (n =? 0)
  | JStr s => negb (String.eqb s "")
  | JArr _ | JObj _ => true
  end.

Definition truthy (v : option value) : bool :=
  match v with
  | None => false
  | Some (VJson j) => truthy_json j
  | Some (VDate _) => true
  end.

(** An object that [JSON.parse] built has a property [toString] of its
    own when the text had that key. *)
Definition own_toString (kvs : list (string * json)) : bool :=
  existsb (fun kv => String.eqb (fst kv) "toString") kvs.

(** [String(v)] on a JSON value; [None] when the conversion throws a
    [TypeError].  An array joins its elements with a comma, [null]
    elements giving the empty string.  A plain object gives ["[object
    Object]"], unless it has a [toString] of its own: that property is a
    JSON value, which cannot be called, it hides
    [Object.prototype.toString], and [valueOf] returns the object
    itself, so that no primitive value is found. *)
Fixpoint ToString (j : json) : option string :=
  match j with
  | JNull => Some "null"
  | JBool true => Some "true"
  | JBool false => Some "false"
  | JNum n => Some (pretty n)
  | JStr s => Some s
  | JArr xs =>
      (fix join (l : list json) : option string :=
         match l with
         | [] => Some ""
         | x :: l' =>
             match match x with JNull => Some "" | _ => ToString x end with
             | None => None
             | Some e =>
                 match l' with
                 | [] => Some e
                 | _ :: _ =>
                     match join l' with
                     | Some r => Some (e +:+ "," +:+ r)
                     | None => None
                     end
                 end
             end
         end) xs
  | JObj kvs => if own_toString kvs then None else Some "[object Object]"
  end.

(** The code units [String.prototype.trim] strips, below 256: TAB, LF,
    VT, FF, CR, SPACE and NBSP. *)
Definition isWhiteSpace (c : ascii) : bool :=
  match c with
  | "009" | "010" | "011" | "012" | "013" | " " | "160" => true
  | _ => false
  end%char.

Fixpoint trimStart (s : string) : string :=
  match s with
  | EmptyString => EmptyString
  | String c s' => if isWhiteSpace c then trimStart s' else s
  end.

Definition trimEnd (s : string) : string :=
  String.rev (trimStart (String.rev s)).

Definition trim (s : string) : string := trimEnd (trimStart s).

(** A string that is empty or made of white space only. *)
Fixpoint whitespace_only (s : string) : bool :=
  match s with
  | EmptyString => true
  | String c s' => isWhiteSpace c && whitespace_only s'
  end.

(** [TimeClip]: a time value is a date only within 8.64e15 ms of the
    epoch. *)
Definition maxTime : Z := 8640000000000000.

Definition TimeClip (n : Z) : option Z :=
  if (Z.abs n <=? maxTime) then Some n else None.

(** Numbers with the two infinities and [NaN], as the comparator of the
    list handler computes them. *)
Inductive xnum : Type :=
| XFin (z : Z)
| XPosInf
| XNegInf
| XNaN.

Definition xsub (a b : xnum) : xnum :=
  match a, b with
  | XNaN, _ | _, XNaN => XNaN
  | XFin x, XFin y => XFin (x - y)
  | XFin _, XPosInf => XNegInf
  | XFin _, XNegInf => XPosInf
  | XPosInf, XPosInf => XNaN
  | XPosInf, _ => XPosInf
  | XNegInf, XNegInf => XNaN
  | XNegInf, _ => XNegInf
  end.

(** [v > 0] and [v < 0] on such a number; both are false on [NaN]. *)
Definition xpositive (v : xnum) : bool :=
  match v with
  | XFin z => 0 <? z
  | XPosInf => true
  | _ => false
  end.

Definition xnegative (v : xnum) : bool :=
  match v with
  | XFin z => z <? 0
  | XNegInf => true
  | _ => false
  end.

(** [getTime()] of a date: its time value, [NaN] when invalid. *)
Definition getTime (t : option Z) : xnum :=
  match t with
  | Some z => XFin z
  | None => XNaN
  end.

End JS.
Export JS.

(* ================================================================== *)
(** ** The host: runtime and library functions the server calls *)
(* ================================================================== *)

(** What the handlers catch: the [TypeError] of a conversion, the
    errors Mongoose raises in the calls the handlers make, and the
    errors of the library and of the database on the update operators
    of a body; the handlers only pass on their [message]. *)
Inductive error : Type :=
| TypeError
| CastError (path : string)
| ValidationError (path : string)
| ImmutableField (path : string)
| OperatorError (message : string).

(** A document of the [Task] model, read through [taskSchema]; the
    [_id] is the document's key in the collection.  [None] is [null],
    or a path the stored document lacks: the getters of the model and
    the sort of a query treat the two alike.  [others] holds what the
    stored document has outside the paths of the schema; only an update
    operator can put something there. *)
Record doc : Type := Doc {
  text : option string;
  completed : option bool;
  createdAt : option Z;
  updatedAt : option Z;
  dueDate : option Z;
  position : json;
  others : gmap string json
}.

Record host : Type := Host {
  (** [Date.parse]: the time value of a string, [None] for [NaN]. *)
  Date_parse : string -> option Z;
  (** [Date.prototype.toISOString] of a valid time value. *)
  Date_toISOString : Z -> string;
  (** The system clock: the reading returned by the k-th call of
      [Date.now()] or [new Date()] since the process started. *)
  Date_now : nat -> Z;
  (** The result of the k-th call of [mongoose.connect]: whether the
      connection was established. *)
  mongoose_connect : nat -> bool;
  (** Mongoose's casts of a JSON value to the types of [taskSchema];
      the outer [None] is a [CastError], an inner [None] is [null]. *)
  castObjectId : json -> option N;
  castString : json -> option (option string);
  castBoolean : json -> option (option bool);
  castDate : json -> option (option Z);
  castPosition : json -> option json;
  (** What becomes of the update operators of an update object (the
      keys that start with [$]: [$set], [$unset], [$inc], [$min],
      [$rename], ...).  [castOperators] is what Mongoose does before
      the query is sent: the error, if any, with which it refuses the
      object.  [applyOperators] is what the database does to the
      document that has the id: the error with which it refuses the
      update (two operators on one path, an operator that does not fit
      the stored value), or the document after the operators.  Both
      are given the whole update object. *)
  castOperators : gmap string value -> option error;
  applyOperators : gmap string value -> doc -> error + doc
}.

(** [new Date(x)] for a JSON value [x]: the time value of the date
    ([None] for [NaN]), or [None] when the constructor throws a
    [TypeError].  A string is parsed, a number is a time value, a
    boolean or [null] goes through [ToNumber]; an array or a plain
    object is first converted to a primitive value, which is its string
    ([valueOf] returns the object itself) and throws when [String(x)]
    does. *)
Definition new_Date_json (h : host) (j : json) : option (option Z) :=
  match j with
  | JStr s => Some (Date_parse h s)
  | JNum n => Some (TimeClip n)
  | JBool b => Some (Some (if b then 1 else 0))
  | JNull => Some (Some 0)
  | JArr _ | JObj _ => Date_parse h <$> ToString j
  end.

(** [JSON.stringify] of a stored value, as [res.json] sends it: a date
    is written as its ISO string, an invalid date as [null]. *)
Definition toJSON (h : host) (v : value) : json :=
  match v with
  | VJson j => j
  | VDate (Some t) => JStr (Date_toISOString h t)
  | VDate None => JNull
  end.

(** [new Date(v)] for a stored value: a [Date] object gives its own time
    value. *)
Definition new_Date (h : host) (v : value) : option (option Z) :=
  match v with
  | VDate t => Some t
  | VJson j => new_Date_json h j
  end.

(* ================================================================== *)
(** ** Array.prototype.sort and the sort of a MongoDB query *)
(* ================================================================== *)

Section Sorting.
Context {A : Type}.
(** [gt x y]: the comparison puts [x] strictly after [y]. *)
Variable gt : A -> A -> bool.

(** An element moves to the right only past elements it is strictly
    greater than, so elements that compare equal keep their order. *)
Fixpoint insert_stable (x : A) (l : list A) : list A :=
  match l with
  | [] => [x]
  | y :: l' => if gt x y then y :: insert_stable x l' else x :: l
  end.

Fixpoint sort_stable (l : list A) : list A :=
  match l with
  | [] => []
  | x :: l' => insert_stable x (sort_stable l')
  end.

(** The same sort with a comparison that can throw: the first
    comparison that throws ends the sort. *)
Variable gt_try : A -> A -> option bool.

Fixpoint insert_try (x : A) (l : list A) : option (list A) :=
  match l with
  | [] => Some [x]
  | y :: l' =>
      match gt_try x y with
      | None => None
      | Some true => cons y <$> insert_try x l'
      | Some false => Some (x :: l)
      end
  end.

Fixpoint sort_try (l : list A) : option (list A) :=
  match l with
  | [] => Some []
  | x :: l' =>
      match sort_try l' with
      | Some sorted => insert_try x sorted
      | None => None
      end
  end.
End Sorting.

(** [arr.sort(comparefn)]: the sort is stable, and a comparator result
    that is [NaN] counts as [+0].  With a consistent comparator every
    stable sort returns the list computed here.  When [comparefn]
    throws, the sort ends with that exception ([None]); which pairs a
    sort compares is the choice of the engine, and the lemma
    [Array_sort_throws] shows that for the comparator of the task list
    the choice does not matter. *)
Definition Array_sort {A : Type} (comparefn : A -> A -> option xnum) (arr : list A)
  : option (list A) :=
  sort_try (fun x y => xpositive <$> comparefn x y) arr.

(** [arr.filter(callback)] with a callback that can throw: the elements
    are tested in order, and the first test that throws ends the
    call. *)
Fixpoint Array_filter {A : Type} (callback : A -> option bool) (arr : list A)
  : option (list A) :=
  match arr with
  | [] => Some []
  | x :: arr' =>
      match callback x with
      | None => None
      | Some keep =>
          match Array_filter callback arr' with
          | Some kept => Some (if keep then x :: kept else kept)
          | None => None
          end
      end
  end.

(* ================================================================== *)
(** ** The server state and the handlers' monad *)
(* ================================================================== *)

Module Server.

(** An element of [inMemoryTasks] is a plain object, a [gmap string
    value]; a request body is the object [express.json()] parsed, a
    [gmap string json]. *)

Record state : Type := State {
  (** [const inMemoryTasks = []] *)
  inMemoryTasks : list (gmap string value);
  (** [let inMemoryIdCounter = 1] *)
  inMemoryIdCounter : N;
  (** the collection behind [Task], keyed by [_id] *)
  collection : gmap N doc;
  (** the number of ObjectIds the driver has generated *)
  objectIds : N;
  (** [mongoose.connection.readyState] *)
  readyState : Z;
  (** the number of clock readings taken so far *)
  clock_reads : nat
}.

Definition init : state :=
  {| inMemoryTasks := []; inMemoryIdCounter := 1%N; collection := ∅;
     objectIds := 0%N; readyState := 0; clock_reads := 0%nat |}.

Definition set_inMemoryTasks (l : list (gmap string value)) (st : state) : state :=
  {| inMemoryTasks := l; inMemoryIdCounter := inMemoryIdCounter st;
     collection := collection st; objectIds := objectIds st;
     readyState := readyState st; clock_reads := clock_reads st |}.

Definition set_collection (c : gmap N doc) (st : state) : state :=
  {| inMemoryTasks := inMemoryTasks st; inMemoryIdCounter := inMemoryIdCounter st;
     collection := c; objectIds := objectIds st;
     readyState := readyState st; clock_reads := clock_reads st |}.

Definition set_readyState (r : Z) (st : state) : state :=
  {| inMemoryTasks := inMemoryTasks st; inMemoryIdCounter := inMemoryIdCounter st;
     collection := collection st; objectIds := objectIds st;
     readyState := r; clock_reads := clock_reads st |}.

(** A computation of a handler: it may change the state, and it returns
    or throws. *)
Inductive outcome (A : Type) : Type :=
| Returned (a : A)
| Thrown (e : error).
Arguments Returned {A} a.
Arguments Thrown {A} e.

Definition M (A : Type) : Type := state -> outcome A * state.

Definition ret {A : Type} (a : A) : M A := fun st => (Returned a, st).

Definition throw {A : Type} (e : error) : M A := fun st => (Thrown e, st).

Definition bind {A B : Type} (m : M A) (k : A -> M B) : M B :=
  fun st =>
    match m st with
    | (Returned a, st') => k a st'
    | (Thrown e, st') => (Thrown e, st')
    end.

Notation "'let*' x ':=' m 'in' k" := (bind m (fun x => k))
  (at level 10, x name, m at level 100, k at level 200).
Notation "'run*' m 'in' k" := (bind m (fun _ => k))
  (at level 10, m at level 100, k at level 200).

Definition gets {A : Type} (f : state -> A) : M A := fun st => (Returned (f st), st).

(** A conversion in a handler: the value, or the [TypeError] thrown. *)
Definition converted {A : Type} (o : option A) : M A :=
  match o with
  | Some a => ret a
  | None => throw TypeError
  end.

(** A call whose result is a value or an error. *)
Definition called {A : Type} (r : error + A) : M A :=
  match r with
  | inr a => ret a
  | inl e => throw e
  end.

Definition modify (f : state -> state) : M unit := fun st => (Returned tt, f st).

(** [new Date()] and [Date.now()]: the next reading of the clock. *)
Definition now (h : host) : M Z :=
  fun st =>
    (Returned (Date_now h (clock_reads st)),
     {| inMemoryTasks := inMemoryTasks st; inMemoryIdCounter := inMemoryIdCounter st;
        collection := collection st; objectIds := objectIds st;
        readyState := readyState st; clock_reads := S (clock_reads st) |}).

(** [inMemoryIdCounter++] *)
Definition next_inMemoryId : M N :=
  fun st =>
    (Returned (inMemoryIdCounter st),
     {| inMemoryTasks := inMemoryTasks st;
        inMemoryIdCounter := N.succ (inMemoryIdCounter st);
        collection := collection st; objectIds := objectIds st;
        readyState := readyState st; clock_reads := clock_reads st |}).

(** The [_id] a new document gets: an ObjectId no document had before. *)
Definition new_ObjectId : M N :=
  fun st =>
    (Returned (objectIds st),
     {| inMemoryTasks := inMemoryTasks st; inMemoryIdCounter := inMemoryIdCounter st;
        collection := collection st; objectIds := N.succ (objectIds st);
        readyState := readyState st; clock_reads := clock_reads st |}).

(** [const isDbConnected = () => mongoose.connection &&
    mongoose.connection.readyState === 1] *)
Definition isDbConnected : M bool := gets (fun st => readyState st =? 1).

(** What a handler sends. *)
Inductive reply : Type :=
| Tasks (ts : list (gmap string value))
| Docs (ds : list (N * doc))
| OneTask (t : gmap string value)
| OneDoc (id : N) (d : doc)
| Message (m : string)
| ErrorMessage (e : error).

Record response : Type := Response { status : Z; sent : reply }.

(** [try { ... } catch (error) { ... }] around a handler's body. *)
Definition try_catch (m : M response) (handler : error -> response)
  (st : state) : response * state :=
  match m st with
  | (Returned r, st') => (r, st')
  | (Thrown e, st') => (handler e, st')
  end.

(* ------------------------------------------------------------------ *)
(** *** The calls on the [Task] model *)
(* ------------------------------------------------------------------ *)

(** Mongoose's casts on the values whose result does not depend on the
    library's version: a string is a string, a boolean a boolean, [null]
    stays [null], a valid [Date] is kept and an invalid one refused. *)
Definition cast_String (h : host) (j : json) : option (option string) :=
  match j with
  | JStr s => Some (Some s)
  | JNull => Some None
  | _ => castString h j
  end.

Definition cast_Boolean (h : host) (j : json) : option (option bool) :=
  match j with
  | JBool b => Some (Some b)
  | JNull => Some None
  | _ => castBoolean h j
  end.

Definition cast_Date (h : host) (v : value) : option (option Z) :=
  match v with
  | VDate (Some z) => Some (Some z)
  | VDate None => None
  | VJson JNull => Some None
  | VJson j => castDate h j
  end.

Definition compare_null {A : Type} (cmp : A -> A -> comparison)
  (a b : option A) : comparison :=
  match a, b with
  | None, None => Eq
  | None, Some _ => Lt
  | Some _, None => Gt
  | Some x, Some y => cmp x y
  end.

(** The order of [sort({ completed: 1, dueDate: 1 })]: ascending, [null]
    below every boolean and every date, [false] below [true], dates by
    their time. *)
Definition bson_compare (a b : doc) : comparison :=
  match compare_null Bool.compare (completed a) (completed b) with
  | Eq => compare_null Z.compare (dueDate a) (dueDate b)
  | c => c
  end.

Definition bson_gt (a b : N * doc) : bool :=
  match bson_compare (snd a) (snd b) with
  | Gt => true
  | _ => false
  end.

(** [Task.find().sort({ completed: 1, dueDate: 1 })]; documents that
    compare equal come in the order of the collection scan. *)
Definition Task_find_sort : M (list (N * doc)) :=
  gets (fun st => sort_stable bson_gt (map_to_list (collection st))).

Definition cast_id (h : host) (id : json) : M N :=
  match castObjectId h id with
  | Some k => ret k
  | None => throw (CastError "_id")
  end.

(** [Task.findById(id)] *)
Definition Task_findById (h : host) (id : string) : M (option (N * doc)) :=
  let* k := cast_id h (JStr id) in
  gets (fun st => pair k <$> collection st !! k).

(** A document under construction: its fields, and the error its
    validation will report. *)
Record document : Type := Document {
  oid : N;
  fields : doc;
  invalid : option error
}.

(** [required: true] on a string path: [null] and the empty string
    fail. *)
Definition required_string (s : option string) : bool :=
  match s with
  | Some s => negb (String.eqb s "")
  | None => false
  end.

(** [new Task({ text, dueDate, position })]: the [_id] is generated, the
    defaults of the schema are applied ([completed: false], [createdAt:
    Date.now]), [text] goes through the [trim] setter, and a value that
    does not cast is recorded for the validation. *)
Definition new_Task (h : host) (txt : string) (due : value) (pos : json)
  : M document :=
  let* k := new_ObjectId in
  let* created := now h in
  let t := trim txt in
  let d due' pos' :=
    {| text := Some t; completed := Some false; createdAt := Some created;
       updatedAt := None; dueDate := due'; position := pos'; others := ∅ |} in
  ret match cast_Date h due, castPosition h pos with
      | None, _ => Document k (d None pos) (Some (ValidationError "dueDate"))
      | Some _, None => Document k (d None pos) (Some (ValidationError "position"))
      | Some due', Some pos' =>
          Document k (d due' pos')
            (if required_string (Some t) then None
             else Some (ValidationError "text"))
      end.

(** [newTask.save()]: the validation runs first; then the [pre("save")]
    hook of the schema sets [updatedAt] ([isModified()] holds for a new
    document); then the document is inserted. *)
Definition Task_save (h : host) (t : document) : M (N * doc) :=
  match invalid t with
  | Some e => throw e
  | None =>
      let* updated := now h in
      let d := {| text := text (fields t); completed := completed (fields t);
                  createdAt := createdAt (fields t); updatedAt := Some updated;
                  dueDate := dueDate (fields t); position := position (fields t);
                  others := others (fields t) |} in
      run* modify (fun st => set_collection (<[oid t := d]> (collection st)) st) in
      ret (oid t, d)
  end.

(** The [$set] Mongoose builds from the keys of an update object that
    name no operator: one entry for each path of the schema that the
    object has ([strict]: other keys are dropped). *)
Record changes : Type := Changes {
  set_id : option N;
  set_text : option (option string);
  set_completed : option (option bool);
  set_createdAt : option (option Z);
  set_dueDate : option (option Z);
  set_position : option json
}.

Definition cast_path {A B : Type} (path : string) (cast : B -> option A)
  (o : option B) : M (option A) :=
  match o with
  | None => ret None
  | Some j =>
      match cast j with
      | Some a => ret (Some a)
      | None => throw (CastError path)
      end
  end.

(** The cast of a property that holds a value of the request body. *)
Definition json_only {A : Type} (cast : json -> option A) (v : value) : option A :=
  match v with
  | VJson j => cast j
  | VDate _ => None
  end.

Definition castUpdate (h : host) (payload : gmap string value) : M changes :=
  let* i := cast_path "_id" (json_only (castObjectId h)) (payload !! "_id") in
  let* t := cast_path "text" (json_only (cast_String h)) (payload !! "text") in
  let* c := cast_path "completed" (json_only (cast_Boolean h)) (payload !! "completed") in
  let* cr := cast_path "createdAt" (cast_Date h) (payload !! "createdAt") in
  let* du := cast_path "dueDate" (cast_Date h) (payload !! "dueDate") in
  let* po := cast_path "position" (json_only (castPosition h)) (payload !! "position") in
  ret {| set_id := i; set_text := fmap (M:=option) (fmap (M:=option) trim) t; set_completed := c;
         set_createdAt := cr; set_dueDate := du; set_position := po |}.

(** [runValidators: true]: the validators of the paths being set; the
    schema has one, [required] on [text]. *)
Definition runValidators (c : changes) : M unit :=
  match set_text c with
  | Some t => if required_string t then ret tt else throw (ValidationError "text")
  | None => ret tt
  end.

Definition apply_changes (c : changes) (upd : option Z) (d : doc) : doc :=
  {| text := default (text d) (set_text c);
     completed := default (completed d) (set_completed c);
     createdAt := default (createdAt d) (set_createdAt c);
     updatedAt := upd;
     dueDate := default (dueDate d) (set_dueDate c);
     position := default (position d) (set_position c);
     others := others d |}.

(** A key that names an update operator: it starts with [$]. *)
Definition is_operator (key : string) : bool :=
  match key with
  | String "$" _ => true
  | _ => false
  end.

(** An object without update operators. *)
Definition plain {A : Type} (m : gmap string A) : Prop :=
  map_Forall (fun key _ => is_operator key = false) m.

(** The error, if any, with which Mongoose refuses the operators of an
    update object; an object without operators has none to refuse. *)
Definition operators_refused (h : host) (payload : gmap string value) : option error :=
  if decide (plain payload) then None else castOperators h payload.

(** The document after the operators of an update object, or the error
    of the database. *)
Definition operated (h : host) (payload : gmap string value) (d : doc) : error + doc :=
  if decide (plain payload) then inr d else applyOperators h payload d.

(** What Mongoose does with [findByIdAndUpdate(id, payload, { new:
    true, runValidators: true })] before the query is sent: the id and
    the payload are cast, and the validators run. *)
Definition prepare_update (h : host) (id : string) (payload : gmap string value)
  : M (N * changes * option (option Z)) :=
  let* k := cast_id h (JStr id) in
  let* c := castUpdate h payload in
  let* upd := cast_path "updatedAt" (cast_Date h) (payload !! "updatedAt") in
  run* match operators_refused h payload with
       | Some e => throw e
       | None => ret tt
       end in
  run* runValidators c in
  ret (k, c, upd).

(** [Task.findByIdAndUpdate(id, payload, { new: true, runValidators:
    true })].  The result is the updated document, or [null] when none
    has the id.  The database refuses a [$set] that would change [_id].
    It applies the operators of the payload and the [$set] of its other
    keys in one update; two operators cannot change the same path, so
    that what the [$set] writes is what the updated document holds. *)
Definition Task_findByIdAndUpdate (h : host) (id : string)
  (payload : gmap string value) : M (option (N * doc)) :=
  let* q := prepare_update h id payload in
  let '(k, c, upd) := q in
  let* found := gets (fun st => collection st !! k) in
  match found with
  | None => ret None
  | Some d =>
      run* match set_id c with
           | Some k' => if (k' =? k)%N then ret tt else throw (ImmutableField "_id")
           | None => ret tt
           end in
      let* d0 := called (operated h payload d) in
      let d' := apply_changes c (default (updatedAt d0) upd) d0 in
      run* modify (fun st => set_collection (<[k := d']> (collection st)) st) in
      ret (Some (k, d'))
  end.

(** [Task.findByIdAndDelete(id)] *)
Definition Task_findByIdAndDelete (h : host) (id : string) : M (option (N * doc)) :=
  let* k := cast_id h (JStr id) in
  let* found := gets (fun st => collection st !! k) in
  match found with
  | None => ret None
  | Some d =>
      run* modify (fun st => set_collection (delete k (collection st)) st) in
      ret (Some (k, d))
  end.

(* ------------------------------------------------------------------ *)
(** *** The routes *)
(* ------------------------------------------------------------------ *)

(** Truthiness of a property of the request body. *)
Definition truthy_body (o : option json) : bool :=
  match o with
  | Some j => truthy_json j
  | None => false
  end.

(** [String(x)] for a property of the request body. *)
Definition String_ (o : option json) : option string :=
  match o with
  | Some j => ToString j
  | None => Some "undefined"
  end.

(** [t._id === req.params.id]: strict equality with a string. *)
Definition has_id (id : string) (t : gmap string value) : bool :=
  match t !! "_id" with
  | Some (VJson (JStr s)) => String.eqb s id
  | _ => false
  end.

(** [arr.findIndex(p)]; [None] stands for [-1]. *)
Fixpoint findIndex {A : Type} (p : A -> bool) (arr : list A) : option nat :=
  match arr with
  | [] => None
  | x :: arr' => if p x then Some 0%nat else S <$> findIndex p arr'
  end.

(** [x.dueDate ? new Date(x.dueDate).getTime() : Infinity]; [None]
    when [new Date] throws. *)
Definition dueTime (h : host) (o : option value) : option xnum :=
  match o with
  | Some v => if truthy o then getTime <$> new_Date h v else Some XPosInf
  | None => Some XPosInf
  end.

(** The comparator of the in-memory list:
    [if (!!a.completed !== !!b.completed) return a.completed ? 1 : -1;
     const da = ...; const db = ...; return da - db;] *)
Definition compareTasks (h : host) (a b : gmap string value) : option xnum :=
  if negb (Bool.eqb (truthy (a !! "completed")) (truthy (b !! "completed")))
  then Some (if truthy (a !! "completed") then XFin 1 else XFin (-1))
  else
    match dueTime h (a !! "dueDate") with
    | Some da =>
        match dueTime h (b !! "dueDate") with
        | Some db => Some (xsub da db)
        | None => None
        end
    | None => None
    end.

Definition not_found : response := Response 404 (Message "Task not found").

(** [app.get("/tasks", ...)].  On the fallback the handler sorts
    [[...inMemoryTasks]], a copy: the list of the state is only read.
    An exception of the comparator leaves the sort and is caught. *)
Definition get_tasks (h : host) : state -> response * state :=
  try_catch
    (let* connected := isDbConnected in
     if connected then
       let* tasks := Task_find_sort in
       ret (Response 200 (Docs tasks))
     else
       let* tasks := gets inMemoryTasks in
       let* sorted := converted (Array_sort (compareTasks h) tasks) in
       ret (Response 200 (Tasks sorted)))
    (fun e => Response 500 (ErrorMessage e)).

(** [app.get("/tasks/:id", ...)] *)
Definition get_task (h : host) (id : string) : state -> response * state :=
  try_catch
    (let* connected := isDbConnected in
     if connected then
       let* task := Task_findById h id in
       match task with
       | None => ret not_found
       | Some (k, d) => ret (Response 200 (OneDoc k d))
       end
     else
       let* tasks := gets inMemoryTasks in
       match find (has_id id) tasks with
       | None => ret not_found
       | Some t => ret (Response 200 (OneTask t))
       end)
    (fun e => Response 500 (ErrorMessage e)).

(** [dueDate ? new Date(dueDate) : null]; [None] when [new Date]
    throws. *)
Definition dueDate_of_body (h : host) (due : option json) : option value :=
  match due with
  | Some j => if truthy_json j then VDate <$> new_Date_json h j else Some (VJson JNull)
  | None => Some (VJson JNull)
  end.

(** [!text || !String(text).trim()]: [String(text)] is evaluated, and
    can throw, only when [text] is truthy. *)
Definition text_required (txt : option json) : M bool :=
  if truthy_body txt then
    let* s := converted (String_ txt) in
    ret (String.eqb (trim s) "")
  else ret true.

(** [app.post("/tasks", ...)].  The properties of the object literals
    are evaluated in the order they are written: on the fallback the id
    is built, and the counter incremented, before [new Date(dueDate)]
    can throw. *)
Definition post_tasks (h : host) (b : gmap string json) : state -> response * state :=
  try_catch
    (let txt := b !! "text" in
     let due := b !! "dueDate" in
     let pos := b !! "position" in
     let* required := text_required txt in
     if required
     then ret (Response 400 (Message "Task text is required."))
     else
       let* connected := isDbConnected in
       if connected then
         let* s := converted (String_ txt) in
         let* dueDate := converted (dueDate_of_body h due) in
         let* newTask := new_Task h (trim s) dueDate (default JNull pos) in
         let* saved := Task_save h newTask in
         ret (Response 201 (OneDoc (fst saved) (snd saved)))
       else
         let* t := now h in
         let* n := next_inMemoryId in
         let* s := converted (String_ txt) in
         let* created := now h in
         let* updated := now h in
         let* dueDate := converted (dueDate_of_body h due) in
         let newTask : gmap string value :=
           list_to_map
             [ ("_id", VJson (JStr (pretty t +:+ "-" +:+ pretty n)));
               ("text", VJson (JStr (trim s)));
               ("completed", VJson (JBool false));
               ("createdAt", VDate (Some created));
               ("updatedAt", VDate (Some updated));
               ("dueDate", dueDate);
               ("position", VJson (default JNull pos)) ] in
         run* modify (fun st => set_inMemoryTasks (inMemoryTasks st ++ [newTask]) st) in
         ret (Response 201 (OneTask newTask)))
    (fun e => Response 400 (ErrorMessage e)).

(** [app.put("/tasks/:id", ...)] *)
Definition put_task (h : host) (id : string) (b : gmap string json)
  : state -> response * state :=
  try_catch
    (let* updated := now h in
     let payload : gmap string value :=
       <["updatedAt" := VDate (Some updated)]> (VJson <$> b) in
     let* connected := isDbConnected in
     if connected then
       let* task := Task_findByIdAndUpdate h id payload in
       match task with
       | None => ret not_found
       | Some (k, d) => ret (Response 200 (OneDoc k d))
       end
     else
       let* tasks := gets inMemoryTasks in
       match findIndex (has_id id) tasks with
       | None => ret not_found
       | Some idx =>
           let merged : gmap string value := payload ∪ default ∅ (tasks !! idx) in
           run* modify (set_inMemoryTasks (<[idx := merged]> tasks)) in
           ret (Response 200 (OneTask merged))
       end)
    (fun e => Response 400 (ErrorMessage e)).

(** [app.delete("/tasks/:id", ...)] *)
Definition delete_task (h : host) (id : string) : state -> response * state :=
  try_catch
    (let* connected := isDbConnected in
     if connected then
       let* task := Task_findByIdAndDelete h id in
       match task with
       | None => ret not_found
       | Some _ => ret (Response 200 (Message "Task deleted successfully"))
       end
     else
       let* tasks := gets inMemoryTasks in
       match findIndex (has_id id) tasks with
       | None => ret not_found
       | Some idx =>
           run* modify (set_inMemoryTasks (delete idx tasks)) in
           ret (Response 200 (Message "Task deleted successfully"))
       end)
    (fun e => Response 500 (ErrorMessage e)).

(** What happens to the server: a request arrives, or the driver changes
    the state of the connection. *)
Inductive event : Type :=
| GET_tasks
| GET_task (id : string)
| POST_tasks (b : gmap string json)
| PUT_task (id : string) (b : gmap string json)
| DELETE_task (id : string)
| Connection (r : Z).

Definition step (h : host) (e : event) (st : state) : option response * state :=
  match e with
  | GET_tasks => let (r, st') := get_tasks h st in (Some r, st')
  | GET_task id => let (r, st') := get_task h id st in (Some r, st')
  | POST_tasks b => let (r, st') := post_tasks h b st in (Some r, st')
  | PUT_task id b => let (r, st') := put_task h id b st in (Some r, st')
  | DELETE_task id => let (r, st') := delete_task h id st in (Some r, st')
  | Connection r => (None, set_readyState r st)
  end.

(** The state after a sequence of events, and the responses sent. *)
Fixpoint run (h : host) (es : list event) (st : state) : list response * state :=
  match es with
  | [] => ([], st)
  | e :: es' =>
      let (r, st1) := step h e st in
      let (rs, st2) := run h es' st1 in
      (match r with Some x => x :: rs | None => rs end, st2)
  end.

End Server.

(* ================================================================== *)
(** ** The connection loop run at start-up *)
(* ================================================================== *)

Module Startup.

(** What [connectToMongo] does, in order. *)
Inductive action : Type :=
| connect (attempt : nat) (serverSelectionTimeoutMS : Z)
| connected
| failed (attempt : nat)
| retry_in (delay : Z)
| fallback_mode.

Definition maxRetries : nat := 3.
Definition baseDelay : Z := 1000.

(** The loop [while (attempt <= maxRetries) { try { attempt++; await
    mongoose.connect(...); return; } catch (err) { if (attempt >
    maxRetries) break; await sleep(baseDelay * 2^(attempt - 1)); } }],
    from the value [attempt] has when the condition is tested. *)
Equations? connect_loop (h : host) (attempt : nat) : list action
  by wf (S maxRetries - attempt)%nat lt :=
  connect_loop h attempt with le_lt_dec attempt maxRetries => {
    | left Hle =>
        connect (S attempt) 5000 ::
        (if mongoose_connect h (S attempt) then [connected]
         else
           failed (S attempt) ::
           (if (maxRetries <? S attempt)%nat then [fallback_mode]
            else
              retry_in (baseDelay * 2 ^ Z.of_nat (S attempt - 1)) ::
              connect_loop h (S attempt)))
    | right _ => [] }.
Proof.
  unfold maxRetries in *. lia.
Qed.

(** [async function connectToMongo()]: [let attempt = 0] and the loop. *)
Definition connectToMongo (h : host) : list action := connect_loop h 0.

Definition attempts (l : list action) : list nat :=
  omap (fun a => match a with connect n _ => Some n | _ => None end) l.

Definition delays (l : list action) : list Z :=
  omap (fun a => match a with retry_in d => Some d | _ => None end) l.

End Startup.

(* ================================================================== *)
(** ** A host and requests for the examples *)
(* ================================================================== *)

Module Sample.
Import Server.

(** A host for the examples: the clock advances by one millisecond at
    every reading; [Date.parse] knows one date (read in UTC) and refuses
    every other string; the database is never reachable at start-up; the
    casts accept two ObjectIds, numbers and booleans as strings, and any
    position; the only update operator is [$unset] of [dueDate]. *)
Definition sample_host : host :=
  {| Date_parse := fun s =>
       if String.eqb s "2099-01-01T00:00" then Some 4070908800000 else None;
     Date_toISOString := fun t =>
       if t =? 4070908800000 then "2099-01-01T00:00:00.000Z" else pretty t;
     Date_now := fun k => 1700000000000 + Z.of_nat k;
     mongoose_connect := fun _ => false;
     castObjectId := fun j =>
       match j with
       | JStr "650000000000000000000000" => Some 0%N
       | JStr "650000000000000000000001" => Some 1%N
       | _ => None
       end;
     castString := fun j =>
       match j with
       | JNum _ | JBool _ => Some (ToString j)
       | _ => None
       end;
     castBoolean := fun _ => None;
     castDate := fun j =>
       match j with
       | JNum n => Some <$> TimeClip n
       | _ => None
       end;
     castPosition := fun j => Some j;
     castOperators := fun payload =>
       match payload !! "$unset" with
       | Some (VJson (JObj [("dueDate", _)])) => None
       | _ => Some (OperatorError "Unknown update operator")
       end;
     applyOperators := fun payload d =>
       match payload !! "dueDate" with
       | Some _ => inl (OperatorError "Conflict at dueDate")
       | None =>
           inr {| text := text d; completed := completed d; createdAt := createdAt d;
                  updatedAt := updatedAt d; dueDate := None; position := position d;
                  others := others d |}
       end |}.

(** A clock that stands still. *)
Definition frozen_host : host :=
  {| Date_parse := Date_parse sample_host;
     Date_toISOString := Date_toISOString sample_host;
     Date_now := fun _ => 1700000000000;
     mongoose_connect := fun _ => true;
     castObjectId := castObjectId sample_host;
     castString := castString sample_host;
     castBoolean := castBoolean sample_host;
     castDate := castDate sample_host;
     castPosition := castPosition sample_host;
     castOperators := castOperators sample_host;
     applyOperators := applyOperators sample_host |}.

(** Request bodies as the front end sends them, with the position of
    the card. *)
Definition at_24_24 : json := JObj [("x", JNum 24); ("y", JNum 24)].

Definition milk : gmap string json :=
  <["position" := at_24_24]> {[ "text" := JStr "  buy milk " ]}.

Definition bread : gmap string json :=
  <["position" := at_24_24]>
    (<["dueDate" := JStr "2099-01-01T00:00"]> {[ "text" := JStr "bread" ]}).

Definition eggs : gmap string json :=
  <["position" := at_24_24]>
    (<["dueDate" := JStr "next week, maybe"]> {[ "text" := JStr "eggs" ]}).

Definition blank : gmap string json := {[ "text" := JStr "   " ]}.

(** Update bodies that set fields the server assigns. *)
Definition takeover : gmap string json := {[ "_id" := JStr "1700000000000-1" ]}.

Definition usurp : gmap string json :=
  {[ "_id" := JStr "650000000000000000000000" ]}.

Definition postdate : gmap string json := {[ "createdAt" := JNum 4070908800000 ]}.

(** A value that cannot be converted: its own [toString] is not a
    function. *)
Definition stubborn : json := JObj [("toString", JNum 1)].

(** A task to create, and an update, with such a due date. *)
Definition cheese : gmap string json :=
  <["dueDate" := stubborn]> {[ "text" := JStr "cheese" ]}.

Definition undate : gmap string json := {[ "dueDate" := stubborn ]}.

(** The fallback after [milk] was created on a fresh server. *)
Definition one_task : state := snd (post_tasks sample_host milk init).

End Sample.

(* ================================================================== *)
(** ** The notions the properties are stated with *)
(* ================================================================== *)

Module Props.
Import Server.

(** At most one element of the in-memory list has the id. *)
Definition id_unique (id : string) (l : list (gmap string value)) : Prop :=
  forall (i j : nat) t1 t2,
    l !! i = Some t1 -> l !! j = Some t2 ->
    has_id id t1 = true -> has_id id t2 = true -> i = j.

(** No element of the in-memory list has the id. *)
Definition id_absent (id : string) (l : list (gmap string value)) : Prop :=
  Forall (fun t => has_id id t = false) l.

(** The payload the update handler builds from a body: a copy of the
    body with [updatedAt] set to the clock's next reading. *)
Definition update_payload (h : host) (b : gmap string json) (st : state)
  : gmap string value :=
  <["updatedAt" := VDate (Some (Date_now h (clock_reads st)))]> (VJson <$> b).

(** The error, if any, with which Mongoose refuses an update before it
    queries the database. *)
Definition update_refused (h : host) (id : string) (b : gmap string json)
  (st : state) : option error :=
  match fst (prepare_update h id (update_payload h b st) st) with
  | Thrown e => Some e
  | Returned _ => None
  end.

(** The state after [n] more readings of the clock. *)
Definition tick (n : nat) (st : state) : state :=
  {| inMemoryTasks := inMemoryTasks st; inMemoryIdCounter := inMemoryIdCounter st;
     collection := collection st; objectIds := objectIds st;
     readyState := readyState st; clock_reads := (n + clock_reads st)%nat |}.

(** The test [!text || !String(text).trim()] of the create handler
    holds.  It neither holds nor fails when [String(text)] throws. *)
Definition text_missing (b : gmap string json) : bool :=
  negb (truthy_body (b !! "text")) ||
  match String_ (b !! "text") with
  | Some s => String.eqb (trim s) ""
  | None => false
  end.

(** The test fails: the create handler accepts the text, and
    [String(text)] is [s]. *)
Definition text_accepted (b : gmap string json) (s : string) : Prop :=
  text_missing b = false /\ String_ (b !! "text") = Some s.

(** Whether the two conversions of the create handler, [String(text)]
    and [new Date(dueDate)], go through. *)
Definition converts (h : host) (b : gmap string json) : bool :=
  bool_decide (is_Some (String_ (b !! "text"))) &&
  bool_decide (is_Some (dueDate_of_body h (b !! "dueDate"))).

(** The object the create handler pushes on the in-memory list in a
    state [st], for the text [s] and the due date [due] it converted:
    the id is built from the first reading of the clock and the
    counter, [createdAt] and [updatedAt] are the second and the third
    reading. *)
Definition created_task (h : host) (b : gmap string json) (st : state)
  (s : string) (due : value) : gmap string value :=
  list_to_map
    [ ("_id", VJson (JStr (pretty (Date_now h (clock_reads st)) +:+ "-" +:+
                           pretty (inMemoryIdCounter st))));
      ("text", VJson (JStr (trim s)));
      ("completed", VJson (JBool false));
      ("createdAt", VDate (Some (Date_now h (S (clock_reads st)))));
      ("updatedAt", VDate (Some (Date_now h (S (S (clock_reads st))))));
      ("dueDate", due);
      ("position", VJson (default JNull (b !! "position"))) ].

(** The state of the fallback after that object was pushed. *)
Definition after_create_fallback (h : host) (b : gmap string json) (st : state)
  (s : string) (due : value) : state :=
  {| inMemoryTasks := inMemoryTasks st ++ [created_task h b st s due];
     inMemoryIdCounter := N.succ (inMemoryIdCounter st);
     collection := collection st; objectIds := objectIds st;
     readyState := readyState st; clock_reads := S (S (S (clock_reads st))) |}.

(** The state of the fallback after a create call in which [new
    Date(dueDate)] threw: the id was built and the two dates were read
    before, so the counter and the clock have moved on, and nothing was
    pushed. *)
Definition after_create_thrown (st : state) : state :=
  {| inMemoryTasks := inMemoryTasks st;
     inMemoryIdCounter := N.succ (inMemoryIdCounter st);
     collection := collection st; objectIds := objectIds st;
     readyState := readyState st; clock_reads := S (S (S (clock_reads st))) |}.

(** The document the create handler saves in a state [st] for the text
    [s], given the casts of the due date and of the position:
    [createdAt] is the first reading of the clock and [updatedAt] the
    second. *)
Definition created_doc (h : host) (st : state) (s : string)
  (due : option Z) (pos : json) : doc :=
  {| text := Some (trim (trim s));
     completed := Some false;
     createdAt := Some (Date_now h (clock_reads st));
     updatedAt := Some (Date_now h (S (clock_reads st)));
     dueDate := due;
     position := pos;
     others := ∅ |}.

(** The state after a document was constructed ([saved = None]) or
    constructed and saved. *)
Definition after_create_durable (st : state) (saved : option doc) : state :=
  {| inMemoryTasks := inMemoryTasks st; inMemoryIdCounter := inMemoryIdCounter st;
     collection :=
       match saved with
       | Some d => <[objectIds st := d]> (collection st)
       | None => collection st
       end;
     objectIds := N.succ (objectIds st);
     readyState := readyState st;
     clock_reads :=
       match saved with
       | Some _ => S (S (clock_reads st))
       | None => S (clock_reads st)
       end |}.

(** The clock never runs backwards. *)
Definition monotone_clock (h : host) : Prop :=
  forall i j : nat, (i <= j)%nat -> Date_now h i <= Date_now h j.

(** An event that is not an update whose body has an update
    operator. *)
Definition plain_update (e : event) : Prop :=
  match e with
  | PUT_task _ b => plain b
  | _ => True
  end.

(** An event that is not an update whose body has a [createdAt] or an
    update operator. *)
Definition keeps_createdAt (e : event) : Prop :=
  match e with
  | PUT_task _ b => b !! "createdAt" = None /\ plain b
  | _ => True
  end.

(** A stored task carries two dates, [createdAt <= updatedAt], and was
    created no later than [bound]. *)
Definition task_stamped (bound : Z) (t : gmap string value) : Prop :=
  exists c u,
    t !! "createdAt" = Some (VDate (Some c)) /\
    t !! "updatedAt" = Some (VDate (Some u)) /\
    c <= u /\ c <= bound.

Definition doc_stamped (bound : Z) (d : doc) : Prop :=
  exists c u,
    createdAt d = Some c /\ updatedAt d = Some u /\ c <= u /\ c <= bound.

(** Every task of either store is stamped, none later than the next
    reading of the clock. *)
Definition stamped (h : host) (st : state) : Prop :=
  Forall (task_stamped (Date_now h (clock_reads st))) (inMemoryTasks st) /\
  map_Forall (fun _ d => doc_stamped (Date_now h (clock_reads st)) d) (collection st).

(** The ObjectIds in use were all generated already. *)
Definition fresh_ids (st : state) : Prop :=
  forall k, is_Some (collection st !! k) -> (k < objectIds st)%N.

(** The [createdAt] of the tasks of the fallback, in the order of the
    list. *)
Definition createdAt_list (st : state) : list (option value) :=
  (fun t : gmap string value => t !! "createdAt") <$> inMemoryTasks st.

(** From [st] to [st'] no stored [createdAt] was changed: on the
    fallback the list of the [createdAt] is the same, or one longer (a
    task was created, at a reading of the clock), or one shorter (a task
    was deleted); on the database every document that is in both states
    has the same [createdAt] in both. *)
Definition createdAt_kept (st st' : state) : Prop :=
  (createdAt_list st' = createdAt_list st \/
   (exists c, createdAt_list st' = createdAt_list st ++ [Some (VDate (Some c))]) \/
   (exists i, createdAt_list st' = delete i (createdAt_list st))) /\
  (forall k d d',
     collection st !! k = Some d -> collection st' !! k = Some d' ->
     createdAt d' = createdAt d).

(** A property of the task a response carries. *)
Definition field (name : string) (r : response) : option value :=
  match sent r with
  | OneTask t => t !! name
  | _ => None
  end.

(** What one event does: the response (none for a change of the
    connection) and the next state.  The requests that change nothing
    but the count of the clock readings are gathered by outcome. *)
Inductive transition (h : host) (st : state)
  : event -> option response -> state -> Prop :=
| t_list :
    transition h st GET_tasks (Some (fst (get_tasks h st))) st
| t_get id :
    transition h st (GET_task id) (Some (fst (get_task h id st))) st
| t_connection r :
    transition h st (Connection r) None (set_readyState r st)
| t_create_rejected b :
    text_missing b = true ->
    transition h st (POST_tasks b)
      (Some (Response 400 (Message "Task text is required."))) st
| t_create_thrown b :
    transition h st (POST_tasks b)
      (Some (Response 400 (ErrorMessage TypeError))) st
| t_create_spent b :
    readyState st <> 1 -> dueDate_of_body h (b !! "dueDate") = None ->
    transition h st (POST_tasks b)
      (Some (Response 400 (ErrorMessage TypeError))) (after_create_thrown st)
| t_create_fallback b s v :
    text_accepted b s -> readyState st <> 1 ->
    dueDate_of_body h (b !! "dueDate") = Some v ->
    transition h st (POST_tasks b)
      (Some (Response 201 (OneTask (created_task h b st s v))))
      (after_create_fallback h b st s v)
| t_create_durable b s v due pos :
    text_accepted b s -> readyState st = 1 ->
    dueDate_of_body h (b !! "dueDate") = Some v ->
    cast_Date h v = Some due ->
    castPosition h (default JNull (b !! "position")) = Some pos ->
    transition h st (POST_tasks b)
      (Some (Response 201 (OneDoc (objectIds st) (created_doc h st s due pos))))
      (after_create_durable st (Some (created_doc h st s due pos)))
| t_create_invalid b e :
    text_missing b = false -> readyState st = 1 ->
    transition h st (POST_tasks b)
      (Some (Response 400 (ErrorMessage e))) (after_create_durable st None)
| t_update_failed id b r :
    status r = 404 \/ status r = 400 ->
    transition h st (PUT_task id b) (Some r) (tick 1 st)
| t_update_fallback id b i t :
    readyState st <> 1 ->
    findIndex (has_id id) (inMemoryTasks st) = Some i ->
    inMemoryTasks st !! i = Some t ->
    transition h st (PUT_task id b)
      (Some (Response 200 (OneTask (update_payload h b st ∪ t))))
      (set_inMemoryTasks (<[i := update_payload h b st ∪ t]> (inMemoryTasks st))
         (tick 1 st))
| t_update_durable id b k c upd d d0 :
    readyState st = 1 ->
    fst (prepare_update h id (update_payload h b st) st) = Returned (k, c, upd) ->
    collection st !! k = Some d ->
    operated h (update_payload h b st) d = inr d0 ->
    transition h st (PUT_task id b)
      (Some (Response 200 (OneDoc k (apply_changes c (default (updatedAt d0) upd) d0))))
      (set_collection
         (<[k := apply_changes c (default (updatedAt d0) upd) d0]> (collection st))
         (tick 1 st))
| t_delete_failed id r :
    status r = 404 \/ status r = 500 ->
    transition h st (DELETE_task id) (Some r) st
| t_delete_fallback id i :
    readyState st <> 1 ->
    findIndex (has_id id) (inMemoryTasks st) = Some i ->
    transition h st (DELETE_task id)
      (Some (Response 200 (Message "Task deleted successfully")))
      (set_inMemoryTasks (delete i (inMemoryTasks st)) st)
| t_delete_durable id k d :
    readyState st = 1 ->
    castObjectId h (JStr id) = Some k ->
    collection st !! k = Some d ->
    transition h st (DELETE_task id)
      (Some (Response 200 (Message "Task deleted successfully")))
      (set_collection (delete k (collection st)) st).

(** The id of the task a response announces as created (status 201): a
    string on the fallback, an ObjectId on the database. *)
Definition created_id (r : response) : option (string + N) :=
  if status r =? 201 then
    match sent r with
    | OneTask t =>
        match t !! "_id" with
        | Some (VJson (JStr s)) => Some (inl s)
        | _ => None
        end
    | OneDoc k _ => Some (inr k)
    | _ => None
    end
  else None.

Definition created_ids (rs : list response) : list (string + N) :=
  omap created_id rs.

(** The [createdAt] and the [updatedAt] of the task a response
    carries, when both are valid dates. *)
Definition stamps (r : response) : option (Z * Z) :=
  match sent r with
  | OneTask t =>
      match t !! "createdAt", t !! "updatedAt" with
      | Some (VDate (Some c)), Some (VDate (Some u)) => Some (c, u)
      | _, _ => None
      end
  | OneDoc _ d =>
      match createdAt d, updatedAt d with
      | Some c, Some u => Some (c, u)
      | _, _ => None
      end
  | _ => None
  end.

(** An id that a create call can still give from the state [st] on: a
    string that ends with a dash and a number the counter has not
    passed, or an ObjectId not generated yet. *)
Definition id_from (st : state) (i : string + N) : Prop :=
  match i with
  | inl s =>
      exists (t : Z) (n : N),
        s = pretty t +:+ "-" +:+ pretty n /\ (inMemoryIdCounter st <= n)%N
  | inr k => (objectIds st <= k)%N
  end.

(** A string without a dash. *)
Fixpoint no_dash (s : string) : bool :=
  match s with
  | EmptyString => true
  | String c s' => negb (Ascii.eqb c "-") && no_dash s'
  end.

(** The text and the due date of the tasks a list response carries. *)
Definition listed_tasks (r : response) : list (option value * option value) :=
  match sent r with
  | Tasks ts => (fun t : gmap string value => (t !! "text", t !! "dueDate")) <$> ts
  | _ => []
  end.

Definition listed_docs (r : response) : list (option string * option Z) :=
  match sent r with
  | Docs ds => (fun kd : N * doc => (text (snd kd), dueDate (snd kd))) <$> ds
  | _ => []
  end.

(** The due time of a stored task as the list handler reads it; [NaN]
    also when the due date cannot be converted. *)
Definition due_of (h : host) (t : gmap string value) : xnum :=
  default XNaN (dueTime h (t !! "dueDate")).

(** A stored task whose due date, if it has one, is a valid date. *)
Definition tidy (h : host) (t : gmap string value) : Prop :=
  due_of h t <> XNaN.

(** Whether the comparator of the list puts [a] after [b]; it does not
    when it throws. *)
Definition listed_after (h : host) (a b : gmap string value) : bool :=
  default false (xpositive <$> compareTasks h a b).

(** A stored task whose due date the list handler can read: [new
    Date] does not throw on it. *)
Definition readable (h : host) (t : gmap string value) : Prop :=
  is_Some (dueTime h (t !! "dueDate")).

(** The comparator of the list throws on two tasks: they are alike in
    [completed], so that the due dates are read, and one of the two due
    dates cannot be converted. *)
Definition unreadable (h : host) (t : gmap string value) : bool :=
  match dueTime h (t !! "dueDate") with
  | Some _ => false
  | None => true
  end.

Definition clash (h : host) (a b : gmap string value) : bool :=
  Bool.eqb (truthy (a !! "completed")) (truthy (b !! "completed")) &&
  (unreadable h a || unreadable h b).

(** Some element of a list and some later one are related. *)
Fixpoint some_pair {A : Type} (p : A -> A -> bool) (l : list A) : bool :=
  match l with
  | [] => false
  | x :: l' => existsb (p x) l' || some_pair p l'
  end.

(** An event that is not an update whose body has a [dueDate] that
    cannot be converted. *)
Definition keeps_dates (h : host) (e : event) : Prop :=
  match e with
  | PUT_task _ b => is_Some (dueTime h (VJson <$> b !! "dueDate"))
  | _ => True
  end.

(** An event that is not a create call whose [dueDate] cannot be
    converted. *)
Definition dates_convert (h : host) (e : event) : Prop :=
  match e with
  | POST_tasks b => is_Some (dueDate_of_body h (b !! "dueDate"))
  | _ => True
  end.

(** The order of the due times: ascending, [Infinity] (no due date)
    last. *)
Definition due_le (a b : xnum) : Prop :=
  match a, b with
  | XFin x, XFin y => x <= y
  | XFin _, XPosInf => True
  | XPosInf, XPosInf => True
  | _, _ => False
  end.

(** [a] may be listed before [b]: [a] is incomplete and [b] completed,
    or both are alike and [a] is due no later than [b]. *)
Definition listed_before (h : host) (a b : gmap string value) : Prop :=
  (truthy (a !! "completed") = false /\ truthy (b !! "completed") = true) \/
  (truthy (a !! "completed") = truthy (b !! "completed") /\
   due_le (due_of h a) (due_of h b)).

(** [a] is not after [b] in the order of the database sort. *)
Definition bson_le (a b : N * doc) : Prop :=
  bson_compare (snd a) (snd b) <> Gt.

(** An event that is not an update whose body has an [_id]. *)
Definition keeps_id (e : event) : Prop :=
  match e with
  | PUT_task _ b => b !! "_id" = None
  | _ => True
  end.

(** The ids of the fallback are those the create handler gave: the
    tasks carry, in the same order, distinct numbers [ns] that the
    counter has passed, each after a dash at the end of the task's
    [_id]. *)
Definition ids_given (st : state) (ns : list N) : Prop :=
  Forall2
    (fun (t : gmap string value) (n : N) =>
       exists tm : Z,
         t !! "_id" = Some (VJson (JStr (pretty tm +:+ "-" +:+ pretty n))))
    (inMemoryTasks st) ns /\
  NoDup ns /\
  Forall (fun n => (n < inMemoryIdCounter st)%N) ns.

(** Every document of the collection has a text, which is not empty
    nor made of white space. *)
Definition texts_filled (st : state) : Prop :=
  map_Forall
    (fun (_ : N) d => exists s, text d = Some s /\ whitespace_only s = false)
    (collection st).

(** A computation that leaves the state alone and does not read it. *)
Definition pure {A : Type} (m : M A) : Prop :=
  exists o, forall st, m st = (o, st).

End Props.

(* ================================================================== *)
(** ** The health route *)
(* ================================================================== *)

Module Routes.
Import Server.

(** [app.get("/health", ...)]: [res.json({ ok: true, mongo:
    isDbConnected(), time: new Date().toISOString() })]; the status of
    [res.json] is 200. *)
Definition health (h : host) : M (Z * json) :=
  let* mongo := isDbConnected in
  let* t := now h in
  ret (200, JObj [("ok", JBool true); ("mongo", JBool mongo);
                  ("time", JStr (Date_toISOString h t))]).

End Routes.

(* ================================================================== *)
(** ** The front end: the helpers and the handlers of [App] *)
(* ================================================================== *)

(** The component [App] of todo-frontend/src/App.js.  A task is the
    object the front end parsed from a response ([await res.json()]), a
    [gmap string json].  The runtime of the browser is a [host] of its
    own: its [Date.parse] reads a string without an offset in the time
    zone of the browser.  The values the user typed (the cells [text],
    [dueDate], [dueDay], [dueTime], [editText], [editDue]) and the
    reading of the clock kept in the cell [now] are arguments of the
    functions that use them. *)
Module App.

(** [const safeDate = (d) => { const t = d ? new Date(d) : null;
    return t && !isNaN(t) ? t : null; }]: the time value of the date
    returned, [Some None] for [null], and [None] when [new Date]
    throws. *)
Definition safeDate (h : host) (d : option json) : option (option Z) :=
  match d with
  | Some j => if truthy_json j then new_Date_json h j else Some None
  | None => Some None
  end.

(** The labels of a card, named by their words (in the source each
    label but the first starts with a pictogram). *)
Inductive label : Type :=
| No_due_date
| Overdue
| Due_soon
| On_track.

Global Instance label_eq_dec : EqDecision label.
Proof. solve_decision. Defined.

(** [getStatus(d)]: the background of the card and its label; [None]
    when [safeDate] throws. *)
Definition getStatus (h : host) (now : Z) (d : option json)
  : option (string * label) :=
  match safeDate h d with
  | None => None
  | Some None => Some ("#f9fafb", No_due_date)
  | Some (Some due) =>
      let diff := due - now in
      Some (if diff <? 0 then ("#fde2e4", Overdue)
            else if diff <? 24 * 60 * 60 * 1000 then ("#fff2cd", Due_soon)
            else ("#dcf7e6", On_track))
  end.

(** [nextInitialPos(i)]; [rx] and [ry] are the values of
    [Math.floor(Math.random() * 18)] and [Math.floor(Math.random() *
    12)]. *)
Definition nextInitialPos (i : nat) (rx ry : Z) : Z * Z :=
  let col := Z.of_nat i mod 3 in
  let row := Z.of_nat i / 3 in
  let x := 24 + col * 320 + rx in
  let y := 24 + row * 160 + ry in
  (x, y).

(** [styles.cardBase.width] *)
Definition card_width : Z := 300.

(** The object [{ x, y }]. *)
Definition point (p : Z * Z) : json := JObj [("x", JNum (fst p)); ("y", JNum (snd p))].

(** The numbers of the header. *)
Record counts : Type := Counts {
  total : nat;
  completed : nat;
  overdue : nat;
  soon : nat
}.

(** The callback of [overdue]: [const d = safeDate(t.dueDate); return
    d && d < now && !t.completed;] *)
Definition is_overdue (h : host) (now : Z) (t : gmap string json) : option bool :=
  match safeDate h (t !! "dueDate") with
  | None => None
  | Some None => Some false
  | Some (Some d) => Some ((d <? now) && negb (Server.truthy_body (t !! "completed")))
  end.

(** The callback of [soon]: [const d = safeDate(t.dueDate); if (!d)
    return false; const diff = d - now; return diff >= 0 && diff < 24 *
    60 * 60 * 1000 && !t.completed;] *)
Definition is_soon (h : host) (now : Z) (t : gmap string json) : option bool :=
  match safeDate h (t !! "dueDate") with
  | None => None
  | Some None => Some false
  | Some (Some d) =>
      let diff := d - now in
      Some ((0 <=? diff) && (diff <? 24 * 60 * 60 * 1000)
            && negb (Server.truthy_body (t !! "completed")))
  end.

(** [const stats = useMemo(() => { ... }, [tasks, now])]; [None] when
    a callback throws. *)
Definition stats (h : host) (now : Z) (tasks : list (gmap string json))
  : option counts :=
  let total := length tasks in
  let completed :=
    length (List.filter (fun t => Server.truthy_body (t !! "completed")) tasks) in
  match Array_filter (is_overdue h now) tasks with
  | None => None
  | Some overdue =>
      match Array_filter (is_soon h now) tasks with
      | None => None
      | Some soon =>
          Some {| total := total; completed := completed;
                  overdue := length overdue; soon := length soon |}
      end
  end.

(** [x.dueDate ? new Date(x.dueDate).getTime() : Infinity]; [None]
    when [new Date] throws. *)
Definition dueTime (h : host) (o : option json) : option xnum :=
  match o with
  | Some j => if truthy_json j then getTime <$> new_Date_json h j else Some XPosInf
  | None => Some XPosInf
  end.

(** The comparator of [sortedTasks], the one of the server's list:
    [if (!!a.completed !== !!b.completed) return a.completed ? 1 : -1;
     const da = ...; const db = ...; return da - db;] *)
Definition compareTasks (h : host) (a b : gmap string json) : option xnum :=
  if negb (Bool.eqb (Server.truthy_body (a !! "completed"))
             (Server.truthy_body (b !! "completed")))
  then Some (if Server.truthy_body (a !! "completed") then XFin 1 else XFin (-1))
  else
    match dueTime h (a !! "dueDate") with
    | Some da =>
        match dueTime h (b !! "dueDate") with
        | Some db => Some (xsub da db)
        | None => None
        end
    | None => None
    end.

(** [const sortedTasks = useMemo(() => [...tasks].sort(...), [tasks])];
    [None] when the comparator throws. *)
Definition sortedTasks (h : host) (tasks : list (gmap string json))
  : option (list (gmap string json)) :=
  Array_sort (compareTasks h) tasks.

(* ------------------------------------------------------------------ *)
(** *** The requests the handlers send *)
(* ------------------------------------------------------------------ *)

(** [a ?? b] *)
Definition coalesce (a : option json) (b : json) : json :=
  match a with
  | None | Some JNull => b
  | Some j => j
  end.

(** [a || b] *)
Definition or_else (a : option json) (b : json) : json :=
  match a with
  | Some j => if truthy_json j then j else b
  | None => b
  end.

(** What [addTask] does before it waits for the server.  A
    [TypeError] ends the call without a request: [textVal.trim] is not
    a function, or the template literal cannot convert [day] or
    [time]. *)
Inductive submission : Type :=
| nothing                               (* [return] *)
| type_error                            (* a [TypeError] *)
| post (body : gmap string json).       (* [fetch("/tasks", { method: "POST", body })] *)

(** [addTask(payload)] up to the request.  [payload] holds the
    properties of the argument (none for a call without an argument, or
    with the event of a click); [n] is [tasks.length].
    [const textVal = payload?.text ?? text;
     if (!textVal || !textVal.trim()) return;
     const initPos = nextInitialPos(tasks.length);
     let payloadDue = payload?.dueDate ?? dueDate ?? null;
     if (!payloadDue && (payload?.dueDay || dueDay)) {
       const day = payload?.dueDay ?? dueDay;
       const time = (payload?.dueTime ?? dueTime) || "00:00";
       payloadDue = `${day}T${time}`; }
     const body = { text: textVal, dueDate: payloadDue, position: initPos };] *)
Definition addTask_request (payload : gmap string json) (text dueDate dueDay dueTime : string)
  (n : nat) (rx ry : Z) : submission :=
  let textVal := coalesce (payload !! "text") (JStr text) in
  if negb (truthy_json textVal) then nothing
  else
    match textVal with
    | JStr s =>
        if String.eqb (trim s) "" then nothing
        else
          let initPos := nextInitialPos n rx ry in
          let payloadDue :=
            coalesce (Some (coalesce (payload !! "dueDate") (JStr dueDate))) JNull in
          let composed : option json :=
            if negb (truthy_json payloadDue)
               && truthy_json (or_else (payload !! "dueDay") (JStr dueDay))
            then
              let day := coalesce (payload !! "dueDay") (JStr dueDay) in
              let time :=
                or_else (Some (coalesce (payload !! "dueTime") (JStr dueTime)))
                  (JStr "00:00") in
              match ToString day, ToString time with
              | Some d, Some t => Some (JStr (d +:+ "T" +:+ t))
              | _, _ => None
              end
            else Some payloadDue in
          match composed with
          | Some payloadDue =>
              post (<["text" := textVal]>
                      (<["dueDate" := payloadDue]> {[ "position" := point initPos ]}))
          | None => type_error
          end
    | _ => type_error
    end.

(** [toggleComplete(id, completed)]: the body [{ completed: !completed }]. *)
Definition toggleComplete_body (completed : option json) : gmap string json :=
  {[ "completed" := JBool (negb (Server.truthy_body completed)) ]}.

(** [saveEdit(id)] up to the request:
    [if (!editText.trim()) { showToast(...); return; }
     const payload = { text: editText.trim() };
     if (editDue) payload.dueDate = editDue; else payload.dueDate = null;] *)
Definition saveEdit_request (editText editDue : string) : option (gmap string json) :=
  if String.eqb (trim editText) "" then None
  else Some (<["dueDate" := if String.eqb editDue "" then JNull else JStr editDue]>
               {[ "text" := JStr (trim editText) ]}).

(** [onStop(id, data)]: the body [{ position: { x: data.x, y: data.y } }]. *)
Definition onStop_body (x y : Z) : gmap string json :=
  {[ "position" := point (x, y) ]}.

(* ------------------------------------------------------------------ *)
(** *** The updates of the cell [tasks] *)
(* ------------------------------------------------------------------ *)

(** [t._id === id], for a string [id]. *)
Definition is_task (id : string) (t : gmap string json) : bool :=
  match t !! "_id" with
  | Some (JStr s) => String.eqb s id
  | _ => false
  end.

(** [prev.map((t) => (t._id === id ? updated : t))] *)
Definition replace_task (id : string) (updated : gmap string json)
  (prev : list (gmap string json)) : list (gmap string json) :=
  (fun t => if is_task id t then updated else t) <$> prev.

(** [prev.filter((t) => t._id !== id)] *)
Definition remove_task (id : string) (prev : list (gmap string json))
  : list (gmap string json) :=
  List.filter (fun t => negb (is_task id t)) prev.

(** [prev.map((t) => (t._id === id ? { ...t, __z: zTop + 1 } : t))] *)
Definition raise_task (id : string) (zTop : Z) (prev : list (gmap string json))
  : list (gmap string json) :=
  (fun t => if is_task id t then <["__z" := JNum (zTop + 1)]> t else t) <$> prev.

(** [prev.map((t) => t._id === id ? { ...t, position: { x: data.x, y:
    data.y } } : t)] *)
Definition move_task (id : string) (x y : Z) (prev : list (gmap string json))
  : list (gmap string json) :=
  (fun t => if is_task id t then <["position" := point (x, y)]> t else t) <$> prev.

End App.

(* ================================================================== *)
(** ** The front end at work: a session against the server *)
(* ================================================================== *)

(** The handlers of [App] that talk to the server, each run to its end
    against the server of this file: the request reaches the handler of
    its route, and the front end reads the response.  The server is
    reachable, and one handler runs at a time. *)
Module Session.
Import Server.

(** What Mongoose contributes to the body of a response: the string of
    an ObjectId, the JSON of a document and the message of an error. *)
Record wire : Type := Wire {
  ObjectId_toString : N -> string;
  document_toJSON : N -> doc -> gmap string json;
  error_message : error -> string
}.

(** [res.ok]: the status is in the range 200-299. *)
Definition ok (r : response) : bool := (200 <=? status r) && (status r <=? 299).

(** A task of the in-memory list, sent with [res.json] and parsed by
    the front end: [JSON.stringify] calls [toJSON] on every date. *)
Definition task_json (h : host) (t : gmap string value) : gmap string json :=
  toJSON h <$> t.

(** [const data = await res.json(); Array.isArray(data) ? data : []] *)
Definition parsed_list (w : wire) (h : host) (r : reply) : list (gmap string json) :=
  match r with
  | Tasks ts => task_json h <$> ts
  | Docs ds => (fun kd : N * doc => document_toJSON w (fst kd) (snd kd)) <$> ds
  | _ => []
  end.

(** [await res.json()], read as one task.  An array has none of the
    properties the front end reads from a task. *)
Definition parsed_task (w : wire) (h : host) (r : reply) : gmap string json :=
  match r with
  | OneTask t => task_json h t
  | OneDoc k d => document_toJSON w k d
  | Message m => {[ "message" := JStr m ]}
  | ErrorMessage e => {[ "message" := JStr (error_message w e) ]}
  | Tasks _ | Docs _ => ∅
  end.

(** The cells of [App] that the handlers below write: [tasks], [zTop]
    and [lastAddPayload] ([None]: [null]).  The payload is kept as the
    map of its properties: [addTask] reads only [payload?.text],
    [.dueDate], [.completed] and [.position], which a value that is
    not an object does not have, and [retryLastAdd] treats a falsy
    value as [null]. *)
Record client : Type := Client {
  tasks : list (gmap string json);
  zTop : Z;
  lastAddPayload : option (gmap string json)
}.

Definition set_tasks (l : list (gmap string json)) (c : client) : client :=
  {| tasks := l; zTop := zTop c; lastAddPayload := lastAddPayload c |}.

(** [fetchTasks]: [setTasks(Array.isArray(data) ? data : [])], and
    [setTasks([])] when the response is not [ok]. *)
Definition fetchTasks (w : wire) (h : host) (c : client) (st : state)
  : client * state :=
  let (r, st') := get_tasks h st in
  (set_tasks (if ok r then parsed_list w h (sent r) else []) c, st').

(** [addTask(payload)]: after the request, [setTasks((prev) => [...prev,
    newTask])] and [setLastAddPayload(null)] when the response is [ok],
    [setLastAddPayload(body)] when it is not. *)
Definition addTask (w : wire) (h : host) (payload : gmap string json)
  (text dueDate dueDay dueTime : string) (rx ry : Z) (c : client) (st : state)
  : client * state :=
  match App.addTask_request payload text dueDate dueDay dueTime (length (tasks c)) rx ry with
  | App.post body =>
      let (r, st') := post_tasks h body st in
      if ok r then
        ({| tasks := tasks c ++ [parsed_task w h (sent r)]; zTop := zTop c;
            lastAddPayload := None |}, st')
      else
        ({| tasks := tasks c; zTop := zTop c; lastAddPayload := Some body |}, st')
  | _ => (c, st)
  end.

(** [retryLastAdd]: [if (!lastAddPayload) return; await
    addTask(lastAddPayload);] *)
Definition retryLastAdd (w : wire) (h : host)
  (text dueDate dueDay dueTime : string) (rx ry : Z) (c : client) (st : state)
  : client * state :=
  match lastAddPayload c with
  | None => (c, st)
  | Some payload => addTask w h payload text dueDate dueDay dueTime rx ry c st
  end.

(** The PUT of [toggleComplete], [saveEdit] and [onStop]: when the
    response is [ok], [setTasks((prev) => prev.map((t) => (t._id === id
    ? updated : t)))]. *)
Definition update (w : wire) (h : host) (id : string) (body : gmap string json)
  (c : client) (st : state) : client * state :=
  let (r, st') := put_task h id body st in
  (if ok r then set_tasks (App.replace_task id (parsed_task w h (sent r)) (tasks c)) c
   else c, st').

Definition toggleComplete (w : wire) (h : host) (id : string) (completed : option json)
  : client -> state -> client * state :=
  update w h id (App.toggleComplete_body completed).

Definition saveEdit (w : wire) (h : host) (id : string) (editText editDue : string)
  (c : client) (st : state) : client * state :=
  match App.saveEdit_request editText editDue with
  | Some body => update w h id body c st
  | None => (c, st)
  end.

Definition onStop (w : wire) (h : host) (id : string) (x y : Z)
  : client -> state -> client * state :=
  update w h id (App.onStop_body x y).

(** [deleteTask(id)]: when the response is [ok], [setTasks((prev) =>
    prev.filter((t) => t._id !== id))]. *)
Definition deleteTask (h : host) (id : string) (c : client) (st : state)
  : client * state :=
  let (r, st') := delete_task h id st in
  (if ok r then set_tasks (App.remove_task id (tasks c)) c else c, st').

(** [bringToFront(id)]: [setZTop((n) => n + 1)] and the update of
    [tasks] with the [zTop] of the render. *)
Definition bringToFront (id : string) (c : client) : client :=
  {| tasks := App.raise_task id (zTop c) (tasks c); zTop := zTop c + 1;
     lastAddPayload := lastAddPayload c |}.

Definition onDrag (id : string) (x y : Z) (c : client) : client :=
  set_tasks (App.move_task id x y (tasks c)) c.

(** What the user does.  A card is named by its index in [tasks]; its
    handlers are called with the [_id] of its task ([task._id],
    [task.completed]), a string in every response of the server. *)
Inductive action : Type :=
| Load                                   (* the page loads, or "Try reconnect" *)
| Recover (payload : gmap string json)   (* [lastAddPayload] read from localStorage *)
| Add (text dueDate dueDay dueTime : string) (rx ry : Z)
| Retry (text dueDate dueDay dueTime : string) (rx ry : Z)
| Toggle (card : nat)
| Delete (card : nat)
| Save (card : nat) (editText editDue : string)
| Front (card : nat)
| Drag (card : nat) (x y : Z)
| Stop (card : nat) (x y : Z).

(** The handler of a card, called with the [_id] of its task. *)
Definition on_card (c : client) (card : nat)
  (handler : string -> gmap string json -> client * state) (st : state)
  : client * state :=
  match tasks c !! card with
  | Some t =>
      match t !! "_id" with
      | Some (JStr id) => handler id t
      | _ => (c, st)
      end
  | None => (c, st)
  end.

Definition act (w : wire) (h : host) (a : action) (s : client * state)
  : client * state :=
  let (c, st) := s in
  match a with
  | Load => fetchTasks w h c st
  | Recover payload =>
      ({| tasks := tasks c; zTop := zTop c; lastAddPayload := Some payload |}, st)
  | Add text dueDate dueDay dueTime rx ry =>
      addTask w h ∅ text dueDate dueDay dueTime rx ry c st
  | Retry text dueDate dueDay dueTime rx ry =>
      retryLastAdd w h text dueDate dueDay dueTime rx ry c st
  | Toggle card =>
      on_card c card (fun id t => toggleComplete w h id (t !! "completed") c st) st
  | Delete card => on_card c card (fun id _ => deleteTask h id c st) st
  | Save card editText editDue =>
      on_card c card (fun id _ => saveEdit w h id editText editDue c st) st
  | Front card => on_card c card (fun id _ => (bringToFront id c, st)) st
  | Drag card x y => on_card c card (fun id _ => (onDrag id x y c, st)) st
  | Stop card x y => on_card c card (fun id _ => onStop w h id x y c st) st
  end.

Definition session (w : wire) (h : host) (l : list action) (s : client * state)
  : client * state :=
  fold_left (fun s a => act w h a s) l s.

End Session.

(* ================================================================== *)
(** ** The notions the properties of the front end are stated with *)
(* ================================================================== *)

Module Views.
Import Server Props.

(** The id of the task a response announces as created on the
    fallback. *)
Definition fallback_created (r : response) : option string :=
  match created_id r with
  | Some (inl s) => Some s
  | _ => None
  end.

(** The due time of a task as the front end reads it; [NaN] also when
    the due date cannot be converted. *)
Definition card_due (h : host) (t : gmap string json) : xnum :=
  default XNaN (App.dueTime h (t !! "dueDate")).

(** A task of the front end whose due date, if it has one, is a valid
    date. *)
Definition dated (h : host) (t : gmap string json) : Prop :=
  card_due h t <> XNaN.

(** [a] may be shown before [b]: [a] is incomplete and [b] completed,
    or both are alike and [a] is due no later than [b]. *)
Definition shown_before (h : host) (a b : gmap string json) : Prop :=
  (truthy_body (a !! "completed") = false /\ truthy_body (b !! "completed") = true) \/
  (truthy_body (a !! "completed") = truthy_body (b !! "completed") /\
   due_le (card_due h a) (card_due h b)).

(** Whether the comparator of the board puts [a] after [b]; it does
    not when it throws. *)
Definition shown_after (h : host) (a b : gmap string json) : bool :=
  default false (xpositive <$> App.compareTasks h a b).

(** Whether the card of a task that is not completed carries the
    label. *)
Definition shows (h : host) (now : Z) (l : App.label) (t : gmap string json) : bool :=
  negb (truthy_body (t !! "completed")) &&
  bool_decide (snd <$> App.getStatus h now (t !! "dueDate") = Some l).

(** The card of a task can be drawn: [getStatus] does not throw on its
    due date. *)
Definition drawable (h : host) (now : Z) (t : gmap string json) : Prop :=
  is_Some (App.getStatus h now (t !! "dueDate")).

(** The values [Math.floor(Math.random() * 18)] and
    [Math.floor(Math.random() * 12)] can take. *)
Definition drawn (rx ry : Z) : Prop := 0 <= rx < 18 /\ 0 <= ry < 12.

(** What a task is for the server and the front end alike: all its
    properties but the position of its card and the [__z] that the
    front end adds to it. *)
Definition core (t : gmap string json) : gmap string json :=
  delete "__z" (delete "position" t).

(** The tasks the front end holds and those of the in-memory list are
    related, all compared as the server and the front end share
    them. *)
Definition held (R : relation (list (gmap string json))) (h : host)
  (c : Session.client) (st : state) : Prop :=
  R (core <$> Session.tasks c)
    ((fun t => core (Session.task_json h t)) <$> inMemoryTasks st).

(** The front end holds the tasks of the in-memory list, in any
    order. *)
Definition in_sync (h : host) (c : Session.client) (st : state) : Prop :=
  core <$> Session.tasks c ≡ₚ (fun t => core (Session.task_json h t)) <$> inMemoryTasks st.

(** The front end holds tasks of the in-memory list, each once at
    most. *)
Definition in_part (h : host) (c : Session.client) (st : state) : Prop :=
  core <$> Session.tasks c ⊆+ (fun t => core (Session.task_json h t)) <$> inMemoryTasks st.

(** The server is on the fallback, and the ids of the in-memory list
    are those the create handler gave. *)
Definition numbered (st : state) : Prop :=
  readyState st <> 1 /\ exists ns, ids_given st ns.

(** The front end and a server on the fallback are in step: they are
    in sync, the ids of the in-memory list are those the create handler
    gave, and the list handler can read every due date. *)
Definition in_step (h : host) (c : Session.client) (st : state) : Prop :=
  numbered st /\ Forall (readable h) (inMemoryTasks st) /\ in_sync h c st.

(** The JSON of a document carries its [_id] as the string of the
    ObjectId, and that string casts back to the ObjectId. *)
Definition id_round_trip (w : Session.wire) (h : host) : Prop :=
  forall (k : N) (d : doc),
    Session.document_toJSON w k d !! "_id"
    = Some (JStr (Session.ObjectId_toString w k)) /\
    castObjectId h (JStr (Session.ObjectId_toString w k)) = Some k.

(** The JSON of a document, as far as the server and the front end
    share it. *)
Definition doc_core (w : Session.wire) (kd : N * doc) : gmap string json :=
  core (Session.document_toJSON w (fst kd) (snd kd)).

(** The front end holds the documents of the collection, in any
    order. *)
Definition in_sync_db (w : Session.wire) (c : Session.client) (st : state) : Prop :=
  core <$> Session.tasks c ≡ₚ doc_core w <$> map_to_list (collection st).

(** The front end and a server on the database are in step: they are
    in sync, and the ObjectIds in use were all generated already. *)
Definition in_step_db (w : Session.wire) (c : Session.client) (st : state) : Prop :=
  readyState st = 1 /\ fresh_ids st /\ in_sync_db w c st.

(** A string that does not start with white space. *)
Definition starts_clean (s : string) : Prop :=
  match s with
  | EmptyString => True
  | String c _ => isWhiteSpace c = false
  end.

End Views.

(* ================================================================== *)
(** ** A session for the examples *)
(* ================================================================== *)

Module SampleSession.
Import Server Sample.

(** Reading decimal digits, most significant first. *)
Fixpoint parse_go (s : string) (acc : N) : option N :=
  match s with
  | EmptyString => Some acc
  | String c s' =>
      match Ascii.is_nat c with
      | Some d => parse_go s' (acc * 10 + N.of_nat d)%N
      | None => None
      end
  end.

(** The number a string of decimal digits writes. *)
Definition parse_N (s : string) : option N :=
  match s with
  | EmptyString => None
  | _ => parse_go s 0%N
  end.

(** A host for the examples on the database: as [sample_host], with
    ObjectIds written in decimal. *)
Definition db_host : host :=
  {| Date_parse := Date_parse sample_host;
     Date_toISOString := Date_toISOString sample_host;
     Date_now := Date_now sample_host;
     mongoose_connect := fun _ => true;
     castObjectId := fun j =>
       match j with
       | JStr s => parse_N s
       | _ => None
       end;
     castString := castString sample_host;
     castBoolean := castBoolean sample_host;
     castDate := castDate sample_host;
     castPosition := castPosition sample_host;
     castOperators := castOperators sample_host;
     applyOperators := applyOperators sample_host |}.

Definition date_json (t : option Z) : json :=
  match t with
  | Some z => JStr (Date_toISOString sample_host z)
  | None => JNull
  end.

(** The responses of the examples: a document is written with its
    paths and the version key. *)
Definition sample_wire : Session.wire :=
  {| Session.ObjectId_toString := pretty;
     Session.document_toJSON := fun k d =>
       list_to_map
         [ ("_id", JStr (pretty k));
           ("text", match text d with Some s => JStr s | None => JNull end);
           ("completed", match completed d with Some b => JBool b | None => JNull end);
           ("createdAt", date_json (createdAt d));
           ("updatedAt", date_json (updatedAt d));
           ("dueDate", date_json (dueDate d));
           ("position", position d);
           ("__v", JNum 0) ];
     Session.error_message := fun e =>
       match e with
       | TypeError => "Cannot convert object to primitive value"
       | CastError path => "Cast failed at path " +:+ path
       | ValidationError path => "Validation failed at path " +:+ path
       | ImmutableField path => "Immutable field " +:+ path
       | OperatorError message => message
       end |}.

(** The cells of [App] when the page opens: [useState([])],
    [useState(10)], [useState(null)]. *)
Definition opened : Session.client :=
  {| Session.tasks := []; Session.zTop := 10; Session.lastAddPayload := None |}.

(** What the user does in the examples: add a task, complete the first
    card, drag the second, delete the first. *)
Definition morning : list Session.action :=
  [ Session.Add "eggs" "" "" "" 3 4; Session.Toggle 0; Session.Front 1;
    Session.Drag 1 40 50; Session.Stop 1 40 50; Session.Delete 0 ].

(** Tasks as the front end holds them. *)
Definition done_card : gmap string json := {[ "completed" := JBool true ]}.

Definition dated_card : gmap string json :=
  {[ "dueDate" := JStr "2099-01-01T00:00" ]}.

Definition plain_card : gmap string json := ∅.

(** The body the form posts for a text typed with spaces around it and
    a day without a time, as the second task of the board. *)
Definition typed : gmap string json :=
  <["text" := JStr "  buy milk "]>
    (<["dueDate" := JStr "2099-01-01T00:00"]>
       {[ "position" := App.point (347, 28) ]}).

End SampleSession.

(* ================================================================== *)
(** ** The embedding on small inputs *)
(* ================================================================== *)

Section SmallInputs.
Import Server Sample Props.

Example trim_buy_milk : trim "  buy milk " = "buy milk".
Proof. reflexivity. Qed.

Example trim_blank : trim "   " = "".
Proof. reflexivity. Qed.

Example ToString_array :
  ToString (JArr [JNum 1; JNull; JStr "a"; JArr [JBool true; JNum (-2)]])
  = Some "1,,a,true,-2".
Proof. vm_compute. reflexivity. Qed.

(** An object converts unless it has a [toString] of its own; an array
    that holds such an object does not convert either. *)
Example ToString_objects :
  ToString (JObj [("a", JNum 1)]) = Some "[object Object]" /\
  ToString stubborn = None /\
  ToString (JArr [JNum 1; stubborn]) = None /\
  new_Date_json sample_host stubborn = None /\
  new_Date_json sample_host (JObj [("a", JNum 1)]) = Some None.
Proof. by repeat split. Qed.

Example xsub_infinities :
  xsub XPosInf XPosInf = XNaN /\ xsub (XFin 3) XPosInf = XNegInf /\
  xsub XPosInf (XFin 3) = XPosInf /\ xsub XNaN (XFin 3) = XNaN.
Proof. by repeat split. Qed.

Example Array_sort_numbers :
  Array_sort (fun x y => Some (XFin (x - y))) [3; 1; 2; 1] = Some [1; 1; 2; 3].
Proof. reflexivity. Qed.

(** A comparator that answers [NaN] leaves the array as it is. *)
Example Array_sort_NaN :
  Array_sort (fun _ _ : Z => Some XNaN) [3; 1; 2] = Some [3; 1; 2].
Proof. reflexivity. Qed.

(** A comparator that throws ends the sort, unless it is not called. *)
Example Array_sort_throws_once :
  Array_sort (fun x y : Z => if x =? y then None else Some (XFin (x - y))) [3; 1; 3]
  = None /\
  Array_sort (fun _ _ : Z => None) [3] = Some [3].
Proof. by split. Qed.

Example Array_filter_odd :
  Array_filter (fun x => Some (Z.odd x)) [1; 2; 3] = Some [1; 3] /\
  Array_filter (fun x => if x =? 2 then None else Some true) [1; 2; 3] = None.
Proof. by split. Qed.

Example new_Date_out_of_range :
  new_Date_json sample_host (JNum 8640000000000000) = Some (Some 8640000000000000) /\
  new_Date_json sample_host (JNum 8640000000000001) = Some None.
Proof. by split. Qed.

Example first_id :
  field "_id" (fst (post_tasks sample_host milk init))
  = Some (VJson (JStr "1700000000000-1")).
Proof. vm_compute. reflexivity. Qed.

Example findIndex_first_match :
  findIndex (Z.eqb 2) [1; 2; 3; 2] = Some 1%nat /\
  findIndex (Z.eqb 5) [1; 2; 3; 2] = None.
Proof. by split. Qed.

End SmallInputs.

(* ================================================================== *)
(** ** Facts about strings *)
(* ================================================================== *)

Section StringFacts.

Lemma whitespace_only_rev_app (s acc : string) :
  whitespace_only (String.rev_app s acc) = whitespace_only s && whitespace_only acc.
Proof.
  revert acc. induction s as [|c s IH]; intros acc; simpl; [done|].
  rewrite IH. simpl. destruct (isWhiteSpace c), (whitespace_only s); done.
Qed.

Lemma whitespace_only_rev (s : string) :
  whitespace_only (String.rev s) = whitespace_only s.
Proof.
  unfold String.rev. rewrite whitespace_only_rev_app. simpl.
  by rewrite andb_true_r.
Qed.

Lemma rev_app_empty (s acc : string) :
  String.rev_app s acc = "" -> s = "" /\ acc = "".
Proof.
  revert acc. induction s as [|c s IH]; intros acc; simpl; [done|].
  intros H. apply IH in H as [_ H]. discriminate H.
Qed.

Lemma rev_empty_iff (s : string) : String.rev s = "" <-> s = "".
Proof.
  split.
  - intros H. by apply rev_app_empty in H as [H _].
  - by intros ->.
Qed.

Lemma trimStart_empty_iff (s : string) :
  trimStart s = "" <-> whitespace_only s = true.
Proof.
  induction s as [|c s IH]; simpl; [done|].
  destruct (isWhiteSpace c); simpl; [done|]. split; discriminate.
Qed.

Lemma whitespace_only_trimStart (s : string) :
  whitespace_only (trimStart s) = whitespace_only s.
Proof.
  induction s as [|c s IH]; simpl; [done|].
  destruct (isWhiteSpace c) eqn:Hc; simpl; [done|]. by rewrite Hc.
Qed.

Lemma trimEnd_empty_iff (s : string) :
  trimEnd s = "" <-> whitespace_only s = true.
Proof.
  unfold trimEnd.
  rewrite rev_empty_iff, trimStart_empty_iff. by rewrite whitespace_only_rev.
Qed.

(** [s.trim()] is empty exactly when [s] holds white space only. *)
Lemma trim_empty_iff (s : string) :
  trim s = "" <-> whitespace_only s = true.
Proof.
  unfold trim. rewrite trimEnd_empty_iff. by rewrite whitespace_only_trimStart.
Qed.

Lemma eqb_trim_empty (s : string) :
  String.eqb (trim s) "" = whitespace_only s.
Proof.
  destruct (whitespace_only s) eqn:Hs.
  - apply String.eqb_eq. by apply trim_empty_iff.
  - apply String.eqb_neq. intros H%trim_empty_iff. congruence.
Qed.

End StringFacts.

(* ================================================================== *)
(** ** Creating a task: the validation of [text] *)
(* ================================================================== *)

Section CreateValidation.
Import Server Sample.

(** The guard [!text || !String(text).trim()] holds when [text] is
    absent, [null], or a string of white space. *)
Lemma text_guard_blank (txt : option json) (st : state) :
  txt = None \/ txt = Some JNull \/
    (exists s, txt = Some (JStr s) /\ whitespace_only s = true) ->
  text_required txt st = (Returned true, st).
Proof.
  intros [-> | [-> | (s & -> & Hs)]]; [done | done |].
  unfold text_required. simpl. destruct (negb (String.eqb s "")); [|done].
  unfold bind, converted, ret. simpl. by rewrite eqb_trim_empty, Hs.
Qed.

(** C4, as amended.  A create call whose text is absent, [null], empty
    or made of white space only is answered with status 400 and the
    message "Task text is required."; the whole state of the server,
    the in-memory list and the collection of the database included, is
    left as it was, whichever backend is active. *)
Theorem create_blank_text_rejected (h : host) (b : gmap string json) (st : state) :
  b !! "text" = None \/ b !! "text" = Some JNull \/
    (exists s, b !! "text" = Some (JStr s) /\ whitespace_only s = true) ->
  post_tasks h b st = (Response 400 (Message "Task text is required."), st).
Proof.
  intros Hb. unfold post_tasks, try_catch, bind.
  by rewrite (text_guard_blank _ st Hb).
Qed.

Lemma create_blank_text_rejected_witness :
  post_tasks sample_host blank (set_readyState 1 init)
  = (Response 400 (Message "Task text is required."), set_readyState 1 init).
Proof.
  apply (create_blank_text_rejected sample_host blank).
  right; right. exists "   ". split; reflexivity.
Defined.

(** C4, as stated, fails on the message: the body the server sends with
    status 400 reads "Task text is required.", not "text required". *)
Lemma create_blank_text_message :
  status (fst (post_tasks sample_host blank init)) = 400 /\
  sent (fst (post_tasks sample_host blank init)) = Message "Task text is required." /\
  sent (fst (post_tasks sample_host blank init)) <> Message "text required".
Proof.
  split; [reflexivity|]. split; [reflexivity|]. discriminate.
Qed.

End CreateValidation.

(* ================================================================== *)
(** ** Facts about [findIndex], [find] and the sort *)
(* ================================================================== *)

Section ListFacts.
Import Server.
Context {A : Type}.
Implicit Types (p : A -> bool) (l : list A).

Lemma findIndex_Some p l (i : nat) :
  findIndex p l = Some i ->
  (exists x, l !! i = Some x /\ p x = true) /\
  (forall (j : nat) y, (j < i)%nat -> l !! j = Some y -> p y = false).
Proof.
  revert i. induction l as [|x l IH]; intros i; simpl; [done|].
  destruct (p x) eqn:Hx.
  - intros [= <-]. split; [by exists x|]. intros j y Hj. lia.
  - destruct (findIndex p l) as [k|] eqn:Hk; simpl; [|done].
    intros [= <-]. destruct (IH k eq_refl) as [Hat Hbefore]. split; [done|].
    intros [|j] y Hj; simpl.
    + by intros [= <-].
    + apply Hbefore. lia.
Qed.

Lemma findIndex_None p l :
  findIndex p l = None <-> Forall (fun x => p x = false) l.
Proof.
  induction l as [|x l IH]; simpl; [by split; [constructor|]|].
  destruct (p x) eqn:Hx.
  - split; [done|]. intros H. apply Forall_cons in H as [H _]. congruence.
  - destruct (findIndex p l) eqn:Hk; simpl.
    + split; [done|]. intros H. apply Forall_cons in H as [_ H].
      by apply IH in H.
    + split; [|done]. intros _. constructor; [done|]. by apply IH.
Qed.

Lemma find_None_Forall p l :
  find p l = None <-> Forall (fun x => p x = false) l.
Proof.
  induction l as [|x l IH]; simpl; [by split; [constructor|]|].
  destruct (p x) eqn:Hx.
  - split; [done|]. intros H. apply Forall_cons in H as [H _]. congruence.
  - rewrite IH. split.
    + by constructor.
    + by intros [_ H]%Forall_cons.
Qed.

Variable gt : A -> A -> bool.

Lemma insert_stable_perm (x : A) l : insert_stable gt x l ≡ₚ x :: l.
Proof.
  induction l as [|y l IH]; simpl; [done|].
  destruct (gt x y); [|done].
  rewrite IH. apply Permutation_swap.
Qed.

(** The sort returns the elements it was given. *)
Lemma sort_stable_perm l : sort_stable gt l ≡ₚ l.
Proof.
  induction l as [|x l IH]; simpl; [done|].
  by rewrite insert_stable_perm, IH.
Qed.

End ListFacts.

Section SortTry.
Context {A : Type}.
Implicit Types (l : list A).
Variable gt_try : A -> A -> option bool.

(** A sort that did not throw returns what the sort returns for the
    comparison in which a throw counts as "not after". *)
Lemma insert_try_Some (x : A) l l' :
  insert_try gt_try x l = Some l' ->
  l' = insert_stable (fun a b => default false (gt_try a b)) x l.
Proof.
  revert l'. induction l as [|y l IH]; intros l'; simpl.
  - by intros [= <-].
  - destruct (gt_try x y) as [[]|]; simpl; [|by intros [= <-]|done].
    destruct (insert_try gt_try x l) as [k|]; simpl; [|done].
    intros [= <-]. by rewrite (IH k).
Qed.

Lemma sort_try_Some l l' :
  sort_try gt_try l = Some l' ->
  l' = sort_stable (fun a b => default false (gt_try a b)) l.
Proof.
  revert l'. induction l as [|x l IH]; intros l'; simpl.
  - by intros [= <-].
  - destruct (sort_try gt_try l) as [k|]; [|done].
    intros H%insert_try_Some. by rewrite <- (IH k).
Qed.

(** The sort does not throw when no comparison of two elements does. *)
Lemma insert_try_total (x : A) l :
  Forall (fun y => is_Some (gt_try x y)) l ->
  insert_try gt_try x l
  = Some (insert_stable (fun a b => default false (gt_try a b)) x l).
Proof.
  induction 1 as [|y l [b Hb] Hl IH]; simpl; [done|].
  rewrite Hb. simpl. destruct b; [|done]. by rewrite IH.
Qed.

Lemma sort_try_total l :
  (forall x y, x ∈ l -> y ∈ l -> is_Some (gt_try x y)) ->
  sort_try gt_try l = Some (sort_stable (fun a b => default false (gt_try a b)) l).
Proof.
  induction l as [|x l IH]; intros H; simpl; [done|].
  rewrite IH by (intros a b Ha Hb; apply H; by right).
  apply insert_try_total. apply Forall_forall. intros y Hy.
  apply H; [by left|right].
  rewrite sort_stable_perm in Hy. exact Hy.
Qed.

End SortTry.

Lemma existsb_Permutation {A : Type} (p : A -> bool) (l l' : list A) :
  l ≡ₚ l' -> existsb p l = existsb p l'.
Proof.
  induction 1 as [|x l l' Hl IH|x y l|l l' l'' Hl IH Hl' IH']; simpl.
  - done.
  - by rewrite IH.
  - by destruct (p x), (p y).
  - by etrans.
Qed.

Lemma Array_filter_total {A : Type} (callback : A -> option bool) (p : A -> bool)
  (l : list A) :
  Forall (fun x => callback x = Some (p x)) l ->
  Array_filter callback l = Some (List.filter p l).
Proof.
  induction 1 as [|x l Hx Hl IH]; simpl; [done|]. by rewrite Hx, IH.
Qed.

Lemma Array_filter_None {A : Type} (callback : A -> option bool) (l : list A) :
  Array_filter callback l = None <-> Exists (fun x => callback x = None) l.
Proof.
  induction l as [|x l IH]; simpl.
  - split; [done|]. by intros H%Exists_nil.
  - rewrite Exists_cons. destruct (callback x) as [keep|]; [|by split; [left|]].
    destruct (Array_filter callback l) as [kept|].
    + split; [done|]. intros [?|H]; [done|]. by apply IH in H.
    + split; [|done]. intros _. right. by apply IH.
Qed.

(** In a strongly sorted list every element is related to every later
    one. *)
Lemma StronglySorted_lookup {A : Type} (R : A -> A -> Prop) (l : list A)
  (i j : nat) (a b : A) :
  StronglySorted R l -> l !! i = Some a -> l !! j = Some b -> (i < j)%nat ->
  R a b.
Proof.
  intros Hsorted. revert i j.
  induction Hsorted as [|x l Hsorted IH Hall]; intros i j; [done|].
  destruct i as [|i], j as [|j]; simpl; try lia.
  - intros [= <-] Hb _. apply (proj1 (Forall_forall _ _) Hall).
    by eapply list_elem_of_lookup_2.
  - intros Ha Hb Hij. apply (IH i j); [done|done|lia].
Qed.

(** Running a handler in one mode or the other. *)
Lemma fallback_mode_test (st : Server.state) :
  Server.readyState st <> 1 -> (Server.readyState st =? 1) = false.
Proof. intros H. by apply Z.eqb_neq. Qed.

Lemma durable_mode_test (st : Server.state) :
  Server.readyState st = 1 -> (Server.readyState st =? 1) = true.
Proof. intros H. by apply Z.eqb_eq. Qed.

Ltac run_handler :=
  unfold Server.try_catch, Server.bind, Server.isDbConnected, Server.gets,
    Server.modify, Server.ret, Server.throw; simpl.

(* ================================================================== *)
(** ** Listing and deleting leave the rest alone *)
(* ================================================================== *)

Section Frame.
Import Server Sample.

(** A list call changes nothing, whichever backend answers. *)
Lemma get_tasks_state (h : host) (st : state) : snd (get_tasks h st) = st.
Proof.
  unfold get_tasks. run_handler. destruct (readyState st =? 1); [done|].
  unfold converted. by destruct (Array_sort _ _).
Qed.

(** The same holds for reading one task. *)
Lemma get_task_state (h : host) (id : string) (st : state) :
  snd (get_task h id st) = st.
Proof.
  unfold get_task, Task_findById, cast_id. run_handler.
  destruct (readyState st =? 1).
  - destruct (castObjectId h (JStr id)); run_handler; [|done].
    by destruct (collection st !! n).
  - by destruct (find (has_id id) (inMemoryTasks st)).
Qed.

(** A delete on the fallback: nothing happens when no task has the id;
    otherwise the first task that has it is spliced out. *)
Lemma delete_task_fallback (h : host) (id : string) (st : state) :
  readyState st <> 1 ->
  delete_task h id st =
    match findIndex (has_id id) (inMemoryTasks st) with
    | Some i =>
        (Response 200 (Message "Task deleted successfully"),
         set_inMemoryTasks (delete i (inMemoryTasks st)) st)
    | None => (not_found, st)
    end.
Proof.
  intros Hmode%fallback_mode_test. unfold delete_task. run_handler.
  rewrite Hmode. by destruct (findIndex (has_id id) (inMemoryTasks st)).
Qed.

(** C10.  A list call leaves the stored collection (the whole state) as
    it was: the sort works on a copy.  A delete on the fallback removes
    the record at the first index whose [_id] is the requested one; the
    records before it stay where they are and the records after it move
    down by one, unchanged; nothing else in the state changes.  When no
    record has the id the state is unchanged. *)
Theorem list_reads_delete_removes_one (h : host) (id : string) (st : state) :
  readyState st <> 1 ->
  snd (get_tasks h st) = st /\
  match findIndex (has_id id) (inMemoryTasks st) with
  | Some i =>
      let st' := snd (delete_task h id st) in
      st' = set_inMemoryTasks (delete i (inMemoryTasks st)) st /\
      (exists t, inMemoryTasks st !! i = Some t /\ has_id id t = true) /\
      length (inMemoryTasks st') = pred (length (inMemoryTasks st)) /\
      (forall j : nat, (j < i)%nat ->
         inMemoryTasks st' !! j = inMemoryTasks st !! j) /\
      (forall j : nat, (i <= j)%nat ->
         inMemoryTasks st' !! j = inMemoryTasks st !! S j)
  | None => snd (delete_task h id st) = st
  end.
Proof.
  intros Hmode. split; [apply get_tasks_state|].
  rewrite (delete_task_fallback h id st Hmode).
  destruct (findIndex (has_id id) (inMemoryTasks st)) as [i|] eqn:Hi; [|done].
  apply findIndex_Some in Hi as [(t & Ht & Hid) _]. simpl.
  split; [done|]. split; [by exists t|]. split; [|split].
  - rewrite length_delete; [lia|]. by eapply mk_is_Some.
  - intros j Hj. by apply list_lookup_delete_lt.
  - intros j Hj. by apply list_lookup_delete_ge.
Qed.

Lemma list_reads_delete_removes_one_witness :
  snd (get_tasks sample_host one_task) = one_task /\
  inMemoryTasks (snd (delete_task sample_host "1700000000000-1" one_task)) = [].
Proof.
  destruct (list_reads_delete_removes_one sample_host "1700000000000-1" one_task)
    as [Hlist Hdelete].
  - discriminate.
  - split; [exact Hlist|].
    change (findIndex (has_id "1700000000000-1") (inMemoryTasks one_task))
      with (Some 0%nat) in Hdelete.
    destruct Hdelete as [-> _]. reflexivity.
Defined.

End Frame.

(* ================================================================== *)
(** ** Deleting, then reading *)
(* ================================================================== *)

Section DeleteThenGet.
Import Server Sample Props.

Lemma id_absent_after_delete (id : string) (l : list (gmap string value)) (i : nat) :
  findIndex (has_id id) l = Some i -> id_unique id l -> id_absent id (delete i l).
Proof.
  intros Hi Huniq. apply Forall_lookup_2. intros j t Hj.
  apply findIndex_Some in Hi as [(t0 & Ht0 & Hid0) Hfirst].
  destruct (has_id id t) eqn:Hid; [exfalso|done].
  destruct (decide (j < i)%nat) as [Hlt|Hge].
  - rewrite list_lookup_delete_lt in Hj by done.
    specialize (Hfirst j t Hlt Hj). congruence.
  - rewrite list_lookup_delete_ge in Hj by lia.
    specialize (Huniq _ _ _ _ Hj Ht0 Hid Hid0). lia.
Qed.

Lemma get_task_fallback_absent (h : host) (id : string) (st : state) :
  readyState st <> 1 -> id_absent id (inMemoryTasks st) ->
  fst (get_task h id st) = not_found.
Proof.
  intros Hmode%fallback_mode_test Habs. unfold get_task. run_handler.
  rewrite Hmode. apply find_None_Forall in Habs. by rewrite Habs.
Qed.

(** The list of the fallback: the sorted copy, or status 500 when the
    comparator threw. *)
Lemma get_tasks_fallback (h : host) (st : state) :
  readyState st <> 1 ->
  fst (get_tasks h st) =
    match Array_sort (compareTasks h) (inMemoryTasks st) with
    | Some ts => Response 200 (Tasks ts)
    | None => Response 500 (ErrorMessage TypeError)
    end.
Proof.
  intros Hmode%fallback_mode_test. unfold get_tasks. run_handler.
  rewrite Hmode. unfold converted. by destruct (Array_sort _ _).
Qed.

Lemma Array_sort_perm {A : Type} (comparefn : A -> A -> option xnum)
  (l ts : list A) :
  Array_sort comparefn l = Some ts -> ts ≡ₚ l.
Proof.
  unfold Array_sort. intros ->%sort_try_Some. apply sort_stable_perm.
Qed.

Lemma get_tasks_durable (h : host) (st : state) :
  readyState st = 1 ->
  fst (get_tasks h st)
  = Response 200 (Docs (sort_stable bson_gt (map_to_list (collection st)))).
Proof.
  intros Hmode%durable_mode_test. unfold get_tasks, Task_find_sort. run_handler.
  by rewrite Hmode.
Qed.

(** A delete on the database: the id must cast; the document, if there
    is one, is removed. *)
Lemma delete_task_durable (h : host) (id : string) (st : state) :
  readyState st = 1 ->
  delete_task h id st =
    match castObjectId h (JStr id) with
    | None => (Response 500 (ErrorMessage (CastError "_id")), st)
    | Some k =>
        match collection st !! k with
        | None => (not_found, st)
        | Some _ =>
            (Response 200 (Message "Task deleted successfully"),
             set_collection (delete k (collection st)) st)
        end
    end.
Proof.
  intros Hmode%durable_mode_test.
  unfold delete_task, Task_findByIdAndDelete, cast_id. run_handler.
  rewrite Hmode. destruct (castObjectId h (JStr id)) as [k|]; run_handler; [|done].
  by destruct (collection st !! k).
Qed.

Lemma get_task_durable (h : host) (id : string) (st : state) :
  readyState st = 1 ->
  fst (get_task h id st) =
    match castObjectId h (JStr id) with
    | None => Response 500 (ErrorMessage (CastError "_id"))
    | Some k =>
        match collection st !! k with
        | None => not_found
        | Some d => Response 200 (OneDoc k d)
        end
    end.
Proof.
  intros Hmode%durable_mode_test. unfold get_task, Task_findById, cast_id.
  run_handler. rewrite Hmode.
  destruct (castObjectId h (JStr id)) as [k|]; run_handler; [|done].
  by destruct (collection st !! k).
Qed.

(** After a delete that succeeded, reading the id answers "Task not
    found" and the list holds no task with the id: on the database
    always, and on the fallback provided at most one stored task had
    the id. *)
Lemma delete_then_get_unique (h : host) (id : string) (st : state) :
  status (fst (delete_task h id st)) = 200 ->
  readyState st = 1 \/ id_unique id (inMemoryTasks st) ->
  let st' := snd (delete_task h id st) in
  fst (get_task h id st') = not_found /\
  match sent (fst (get_tasks h st')) with
  | Tasks ts => id_absent id ts
  | Docs ds => forall k, castObjectId h (JStr id) = Some k -> k ∉ (fst <$> ds)
  | ErrorMessage e => e = TypeError
  | _ => False
  end.
Proof.
  intros Hok Hcase.
  destruct (decide (readyState st = 1)) as [Hmode|Hmode].
  - (* the database *)
    rewrite (delete_task_durable h id st Hmode) in Hok |- *.
    destruct (castObjectId h (JStr id)) as [k|] eqn:Hk; [|done].
    destruct (collection st !! k) as [d|] eqn:Hd; [|done]. simpl.
    rewrite get_task_durable, get_tasks_durable by done. simpl.
    rewrite Hk, lookup_delete_eq. split; [done|].
    intros k' [= <-]. rewrite sort_stable_perm.
    intros ((k' & d') & -> & Hin)%list_elem_of_fmap.
    apply elem_of_map_to_list in Hin. simpl in Hin.
    by rewrite lookup_delete_eq in Hin.
  - (* the fallback *)
    destruct Hcase as [?|Huniq]; [done|].
    rewrite (delete_task_fallback h id st Hmode) in Hok |- *.
    destruct (findIndex (has_id id) (inMemoryTasks st)) as [i|] eqn:Hi; [|done].
    simpl. pose proof (id_absent_after_delete _ _ _ Hi Huniq) as Habs.
    rewrite get_task_fallback_absent, get_tasks_fallback by done. simpl.
    split; [done|].
    destruct (Array_sort _ _) as [ts|] eqn:Hts; simpl; [|done].
    unfold id_absent. by rewrite (Array_sort_perm _ _ _ Hts).
Qed.

End DeleteThenGet.



(* ================================================================== *)
(** ** What each handler computes, mode by mode *)
(* ================================================================== *)

Section Handlers.
Import Server Sample Props.

Lemma pure_ret {A : Type} (a : A) : pure (ret a).
Proof. by exists (Returned a). Qed.

Lemma pure_throw {A : Type} (e : error) : pure (throw (A:=A) e).
Proof. by exists (Thrown e). Qed.

Lemma pure_bind {A B : Type} (m : M A) (k : A -> M B) :
  pure m -> (forall a, pure (k a)) -> pure (bind m k).
Proof.
  intros [o Hm] Hk. destruct o as [a|e].
  - destruct (Hk a) as [o' Hk']. exists o'. intros st.
    unfold bind. by rewrite Hm, Hk'.
  - exists (Thrown e). intros st. unfold bind. by rewrite Hm.
Qed.

Lemma pure_cast_path {A B : Type} (path : string) (cast : B -> option A)
  (o : option B) : pure (cast_path path cast o).
Proof.
  unfold cast_path. destruct o as [j|]; [|apply pure_ret].
  destruct (cast j); [apply pure_ret|apply pure_throw].
Qed.

Lemma pure_prepare_update (h : host) (id : string) (p : gmap string value) :
  pure (prepare_update h id p).
Proof.
  unfold prepare_update, castUpdate, cast_id, runValidators.
  repeat first
    [ apply pure_bind; [|intros ?]
    | apply pure_cast_path
    | apply pure_ret
    | apply pure_throw
    | case_match ].
Qed.

Lemma bind_returned {A B : Type} (m : M A) (k : A -> M B) (st : state) (r : B) :
  fst (bind m k st) = Returned r ->
  exists a st1, m st = (Returned a, st1) /\ fst (k a st1) = Returned r.
Proof.
  unfold bind. destruct (m st) as [[a|e] st1]; [|done]. by exists a, st1.
Qed.

Lemma cast_path_returned {A B : Type} (path : string) (cast : B -> option A)
  (o : option B) (st st1 : state) (r : option A) :
  cast_path path cast o st = (Returned r, st1) ->
  match o with
  | None => r = None
  | Some j => cast j = r /\ is_Some r
  end.
Proof.
  unfold cast_path, ret, throw. destruct o as [j|]; [|by intros [= <- _]].
  destruct (cast j) as [a|]; [|done]. by intros [= <- _].
Qed.

Lemma castUpdate_returned (h : host) (p : gmap string value) (st : state)
  (c : changes) :
  fst (castUpdate h p st) = Returned c ->
  (p !! "createdAt" = None -> set_createdAt c = None) /\
  (forall s, p !! "text" = Some (VJson (JStr s)) ->
             set_text c = Some (Some (trim s))).
Proof.
  unfold castUpdate. intros H.
  apply bind_returned in H as (i & st1 & _ & H).
  apply bind_returned in H as (t & st2 & Ht%cast_path_returned & H).
  apply bind_returned in H as (co & st3 & _ & H).
  apply bind_returned in H as (cr & st4 & Hcr%cast_path_returned & H).
  apply bind_returned in H as (du & st5 & _ & H).
  apply bind_returned in H as (po & st6 & _ & H).
  injection H as <-. simpl. split.
  - intros Hp. by rewrite Hp in Hcr.
  - intros s Hp. rewrite Hp in Ht. simpl in Ht. by destruct Ht as [<- _].
Qed.

(** What an update that Mongoose accepted tells about its payload. *)
Lemma prepare_update_returned (h : host) (id : string) (p : gmap string value)
  (st : state) k c upd :
  fst (prepare_update h id p st) = Returned (k, c, upd) ->
  castObjectId h (JStr id) = Some k /\
  (p !! "createdAt" = None -> set_createdAt c = None) /\
  (forall z, p !! "updatedAt" = Some (VDate (Some z)) -> upd = Some (Some z)) /\
  (forall s, p !! "text" = Some (VJson (JStr s)) -> whitespace_only s = false) /\
  operators_refused h p = None.
Proof.
  unfold prepare_update. intros H.
  apply bind_returned in H as (k0 & st1 & Hk & H).
  apply bind_returned in H as (c0 & st2 & Hc & H).
  assert (fst (castUpdate h p st1) = Returned c0) as Hc' by by rewrite Hc.
  apply castUpdate_returned in Hc' as [Hcreated Htext].
  apply bind_returned in H as (u0 & st3 & Hu%cast_path_returned & H).
  apply bind_returned in H as ([] & st4 & Ho & H).
  apply bind_returned in H as ([] & st5 & Hv & H).
  injection H as <- <- <-. split; [|split; [done|split; [|split]]].
  - unfold cast_id in Hk. destruct (castObjectId h (JStr id)); [|done].
    by injection Hk as ->.
  - intros z Hp. rewrite Hp in Hu. simpl in Hu. by destruct Hu as [<- _].
  - intros s Hp. specialize (Htext s Hp). unfold runValidators in Hv.
    rewrite Htext in Hv. unfold required_string in Hv.
    rewrite eqb_trim_empty in Hv. by destruct (whitespace_only s).
  - by destruct (operators_refused h p).
Qed.

Lemma prepare_update_id (h : host) (id : string) (p : gmap string value)
  (st : state) k c upd :
  fst (prepare_update h id p st) = Returned (k, c, upd) ->
  castObjectId h (JStr id) = Some k.
Proof. by intros (? & _)%prepare_update_returned. Qed.

Lemma whitespace_only_trim (s : string) :
  whitespace_only (trim s) = whitespace_only s.
Proof.
  unfold trim, trimEnd.
  by rewrite whitespace_only_rev, whitespace_only_trimStart,
    whitespace_only_rev, whitespace_only_trimStart.
Qed.

(** A value on which [String] throws is an object: it is truthy. *)
Lemma String_truthy (txt : option json) :
  String_ txt = None -> truthy_body txt = true.
Proof. destruct txt as [[| | | | |]|]; simpl; try done. by destruct b. Qed.

(** The three outcomes of the test of the text. *)
Lemma text_cases (b : gmap string json) :
  text_missing b = true \/ String_ (b !! "text") = None \/
  exists s, text_accepted b s.
Proof.
  destruct (text_missing b) eqn:Hb; [by left|right].
  destruct (String_ (b !! "text")) as [s|] eqn:Hs; [right|by left].
  by exists s.
Qed.

Lemma text_required_missing (b : gmap string json) (st : state) :
  text_missing b = true -> text_required (b !! "text") st = (Returned true, st).
Proof.
  unfold text_missing, text_required.
  destruct (truthy_body (b !! "text")); simpl; [|done].
  unfold bind, converted. by destruct (String_ (b !! "text")) as [s|]; simpl; [intros ->|].
Qed.

Lemma text_required_thrown (b : gmap string json) (st : state) :
  String_ (b !! "text") = None ->
  text_required (b !! "text") st = (Thrown TypeError, st).
Proof.
  intros Hs. unfold text_required. rewrite (String_truthy _ Hs).
  unfold bind, converted. by rewrite Hs.
Qed.

Lemma text_required_accepted (b : gmap string json) (s : string) (st : state) :
  text_accepted b s -> text_required (b !! "text") st = (Returned false, st).
Proof.
  unfold text_accepted, text_missing, text_required. intros [Hb Hs].
  rewrite Hs in Hb |- *. apply orb_false_iff in Hb as [Ht Hb].
  apply negb_false_iff in Ht. rewrite Ht.
  unfold bind, converted, ret. by rewrite Hb.
Qed.

(** The text that the create handler accepts is not blank. *)
Lemma text_accepted_filled (b : gmap string json) (s : string) :
  text_accepted b s -> whitespace_only s = false.
Proof.
  unfold text_accepted, text_missing. intros [Hb Hs]. rewrite Hs in Hb.
  apply orb_false_iff in Hb as [_ Hb]. by rewrite eqb_trim_empty in Hb.
Qed.

Lemma post_tasks_rejected (h : host) (b : gmap string json) (st : state) :
  text_missing b = true ->
  post_tasks h b st = (Response 400 (Message "Task text is required."), st).
Proof.
  intros Hb. unfold post_tasks, try_catch, bind.
  by rewrite (text_required_missing b st Hb).
Qed.

(** [String(text)] throws: the call is answered by the [catch], and
    nothing has changed. *)
Lemma post_tasks_unreadable (h : host) (b : gmap string json) (st : state) :
  String_ (b !! "text") = None ->
  post_tasks h b st = (Response 400 (ErrorMessage TypeError), st).
Proof.
  intros Hb. unfold post_tasks, try_catch, bind.
  by rewrite (text_required_thrown b st Hb).
Qed.

Lemma post_tasks_fallback (h : host) (b : gmap string json) (st : state)
  (s : string) (v : value) :
  text_accepted b s -> dueDate_of_body h (b !! "dueDate") = Some v ->
  readyState st <> 1 ->
  post_tasks h b st
  = (Response 201 (OneTask (created_task h b st s v)), after_create_fallback h b st s v).
Proof.
  intros Hb Hv Hmode%fallback_mode_test.
  unfold post_tasks, try_catch, bind at 1.
  rewrite (text_required_accepted b s st Hb). destruct Hb as [_ Hs].
  unfold now, next_inMemoryId. run_handler. by rewrite Hmode, Hs, Hv.
Qed.

(** [new Date(dueDate)] throws on the fallback: the id was built
    before, and the counter has moved on. *)
Lemma post_tasks_fallback_thrown (h : host) (b : gmap string json) (st : state)
  (s : string) :
  text_accepted b s -> dueDate_of_body h (b !! "dueDate") = None ->
  readyState st <> 1 ->
  post_tasks h b st = (Response 400 (ErrorMessage TypeError), after_create_thrown st).
Proof.
  intros Hb Hv Hmode%fallback_mode_test.
  unfold post_tasks, try_catch, bind at 1.
  rewrite (text_required_accepted b s st Hb). destruct Hb as [_ Hs].
  unfold now, next_inMemoryId. run_handler. by rewrite Hmode, Hs, Hv.
Qed.

Lemma post_tasks_durable (h : host) (b : gmap string json) (st : state)
  (s : string) :
  text_accepted b s -> readyState st = 1 ->
  post_tasks h b st =
    match dueDate_of_body h (b !! "dueDate") with
    | None => (Response 400 (ErrorMessage TypeError), st)
    | Some v =>
        match cast_Date h v, castPosition h (default JNull (b !! "position")) with
        | Some due, Some pos =>
            (Response 201 (OneDoc (objectIds st) (created_doc h st s due pos)),
             after_create_durable st (Some (created_doc h st s due pos)))
        | None, _ =>
            (Response 400 (ErrorMessage (ValidationError "dueDate")),
             after_create_durable st None)
        | Some _, None =>
            (Response 400 (ErrorMessage (ValidationError "position")),
             after_create_durable st None)
        end
    end.
Proof.
  intros Hb Hmode%durable_mode_test.
  pose proof (text_accepted_filled b s Hb) as Hfilled.
  unfold post_tasks, try_catch, bind at 1.
  rewrite (text_required_accepted b s st Hb). destruct Hb as [_ Hs].
  unfold new_Task, Task_save, now, new_ObjectId. run_handler. rewrite Hmode, Hs.
  simpl. destruct (dueDate_of_body h (b !! "dueDate")) as [v|]; simpl; [|done].
  destruct (cast_Date h v) as [due|]; [|done].
  destruct (castPosition h _) as [pos|]; [|done].
  unfold required_string.
  by rewrite eqb_trim_empty, whitespace_only_trim, Hfilled.
Qed.

Lemma put_task_fallback (h : host) (id : string) (b : gmap string json) (st : state) :
  readyState st <> 1 ->
  put_task h id b st =
    match findIndex (has_id id) (inMemoryTasks st) with
    | None => (not_found, tick 1 st)
    | Some i =>
        let merged := update_payload h b st ∪ default ∅ (inMemoryTasks st !! i) in
        (Response 200 (OneTask merged),
         set_inMemoryTasks (<[i := merged]> (inMemoryTasks st)) (tick 1 st))
    end.
Proof.
  intros Hmode%fallback_mode_test. unfold put_task, now.
  run_handler. rewrite Hmode. simpl.
  by destruct (findIndex (has_id id) (inMemoryTasks st)).
Qed.

Lemma put_task_durable (h : host) (id : string) (b : gmap string json) (st : state) :
  readyState st = 1 ->
  put_task h id b st =
    match fst (prepare_update h id (update_payload h b st) st) with
    | Thrown e => (Response 400 (ErrorMessage e), tick 1 st)
    | Returned (k, c, upd) =>
        match collection st !! k with
        | None => (not_found, tick 1 st)
        | Some d =>
            if match set_id c with Some k' => (k' =? k)%N | None => true end
            then
              match operated h (update_payload h b st) d with
              | inr d0 =>
                  let d' := apply_changes c (default (updatedAt d0) upd) d0 in
                  (Response 200 (OneDoc k d'),
                   set_collection (<[k := d']> (collection st)) (tick 1 st))
              | inl e => (Response 400 (ErrorMessage e), tick 1 st)
              end
            else (Response 400 (ErrorMessage (ImmutableField "_id")), tick 1 st)
        end
    end.
Proof.
  intros Hmode%durable_mode_test. unfold put_task, Task_findByIdAndUpdate, now.
  fold (update_payload h b st). run_handler. rewrite Hmode.
  destruct (pure_prepare_update h id (update_payload h b st)) as [o Ho].
  rewrite !Ho. simpl. destruct o as [[[k c] upd]|e]; [|done]. simpl.
  destruct (collection st !! k) as [d|]; [|done].
  destruct (set_id c) as [k'|]; [destruct (k' =? k)%N; [|done]|];
    unfold called, update_payload; by destruct (operated _ _ _).
Qed.

(** An object without operators is updated by its [$set] alone. *)
Lemma plain_payload (h : host) (b : gmap string json) (st : state) :
  plain b -> plain (update_payload h b st).
Proof.
  intros Hb. unfold update_payload. apply map_Forall_insert_2; [done|].
  by apply map_Forall_fmap.
Qed.

Lemma operated_plain (h : host) (b : gmap string json) (st : state) (d : doc) :
  plain b -> operated h (update_payload h b st) d = inr d.
Proof.
  intros Hb. unfold operated. destruct (decide _) as [|Hn]; [done|].
  destruct Hn. by apply plain_payload.
Qed.

End Handlers.

(* ================================================================== *)
(** ** Updating a task that is not there *)
(* ================================================================== *)

Section UpdateAbsent.
Import Server Sample Props.

(** An update on the fallback when no task has the id. *)
Lemma put_task_fallback_absent (h : host) (id : string) (b : gmap string json)
  (st : state) :
  readyState st <> 1 -> id_absent id (inMemoryTasks st) ->
  fst (put_task h id b st) = not_found /\
  inMemoryTasks (snd (put_task h id b st)) = inMemoryTasks st /\
  collection (snd (put_task h id b st)) = collection st.
Proof.
  intros Hmode Habs%findIndex_None.
  by rewrite (put_task_fallback h id b st Hmode), Habs.
Qed.

(** An update on the database when no document has the id. *)
Lemma put_task_durable_absent (h : host) (id : string) (b : gmap string json)
  (st : state) :
  readyState st = 1 ->
  (forall k, castObjectId h (JStr id) = Some k -> collection st !! k = None) ->
  fst (put_task h id b st) =
    match update_refused h id b st with
    | Some e => Response 400 (ErrorMessage e)
    | None => not_found
    end /\
  inMemoryTasks (snd (put_task h id b st)) = inMemoryTasks st /\
  collection (snd (put_task h id b st)) = collection st.
Proof.
  intros Hmode Habs. rewrite (put_task_durable h id b st Hmode).
  unfold update_refused.
  destruct (fst (prepare_update _ _ _ _)) as [[[k c] upd]|e] eqn:Hp; [|done].
  apply prepare_update_id in Hp. by rewrite (Habs k Hp).
Qed.

(** C7, as amended.  An update of an id that no stored task has leaves
    both stored collections exactly as they were.  On the fallback the
    answer is "Task not found" (404).  On the database it is "Task not
    found" when Mongoose accepts the id and the body, and status 400
    with the cast or validation error otherwise. *)
Theorem update_absent_id (h : host) (id : string) (b : gmap string json)
  (st : state) :
  (readyState st <> 1 -> id_absent id (inMemoryTasks st)) ->
  (readyState st = 1 ->
   forall k, castObjectId h (JStr id) = Some k -> collection st !! k = None) ->
  inMemoryTasks (snd (put_task h id b st)) = inMemoryTasks st /\
  collection (snd (put_task h id b st)) = collection st /\
  fst (put_task h id b st) =
    (if readyState st =? 1 then
       match update_refused h id b st with
       | Some e => Response 400 (ErrorMessage e)
       | None => not_found
       end
     else not_found).
Proof.
  intros Hfallback Hdurable.
  destruct (decide (readyState st = 1)) as [Hmode|Hmode].
  - destruct (put_task_durable_absent h id b st Hmode (Hdurable Hmode))
      as (Hr & Hl & Hc).
    by rewrite (durable_mode_test st Hmode).
  - destruct (put_task_fallback_absent h id b st Hmode (Hfallback Hmode))
      as (Hr & Hl & Hc).
    by rewrite (fallback_mode_test st Hmode).
Qed.

Lemma update_absent_id_witness :
  fst (put_task sample_host "1700000000009-9" blank one_task) = not_found /\
  inMemoryTasks (snd (put_task sample_host "1700000000009-9" blank one_task))
  = inMemoryTasks one_task.
Proof.
  destruct (update_absent_id sample_host "1700000000009-9" blank one_task)
    as (Hl & _ & Hr).
  - intros _. repeat constructor.
  - intros Hmode. discriminate Hmode.
  - split; [exact Hr|exact Hl].
Defined.

(** C7, as stated, fails on the database: an id that is not an ObjectId
    is the id of no document, and so is a well-formed id that no
    document has when the body does not validate; both updates are
    answered with status 400, not with "Task not found". *)
Lemma update_absent_id_bad_request :
  collection (set_readyState 1 init) = ∅ /\
  fst (put_task sample_host "abc" ∅ (set_readyState 1 init))
  = Response 400 (ErrorMessage (CastError "_id")) /\
  fst (put_task sample_host "650000000000000000000000" blank (set_readyState 1 init))
  = Response 400 (ErrorMessage (ValidationError "text")) /\
  Response 400 (ErrorMessage (CastError "_id")) <> not_found.
Proof.
  split; [reflexivity|]. split; [reflexivity|]. split; [reflexivity|discriminate].
Qed.

End UpdateAbsent.

(* ================================================================== *)
(** ** Updating the text *)
(* ================================================================== *)

Section UpdateText.
Import Server Sample Props.

(** On the database the schema guards the text of an update: a text
    that is a string of white space is refused with status 400 and the
    collection stays as it was. *)
Lemma update_blank_text_durable (h : host) (id : string) (b : gmap string json)
  (st : state) (s : string) :
  readyState st = 1 ->
  b !! "text" = Some (JStr s) -> whitespace_only s = true ->
  status (fst (put_task h id b st)) = 400 /\
  collection (snd (put_task h id b st)) = collection st /\
  inMemoryTasks (snd (put_task h id b st)) = inMemoryTasks st.
Proof.
  intros Hmode Hb Hs. rewrite (put_task_durable h id b st Hmode).
  destruct (fst (prepare_update _ _ _ _)) as [[[k c] upd]|e] eqn:Hp; [|done].
  apply prepare_update_returned in Hp as (_ & _ & _ & Htext & _).
  specialize (Htext s). unfold update_payload in Htext.
  rewrite lookup_insert_ne, lookup_fmap, Hb in Htext by done.
  specialize (Htext eq_refl). congruence.
Qed.

(** On the fallback nothing guards it: the text of the body is stored
    as it comes. *)
Lemma update_text_fallback (h : host) (id : string) (b : gmap string json)
  (st : state) (i : nat) (j : json) :
  readyState st <> 1 ->
  findIndex (has_id id) (inMemoryTasks st) = Some i ->
  b !! "text" = Some j ->
  status (fst (put_task h id b st)) = 200 /\
  exists t, inMemoryTasks (snd (put_task h id b st)) !! i = Some t /\
            t !! "text" = Some (VJson j).
Proof.
  intros Hmode Hi Hb. rewrite (put_task_fallback h id b st Hmode), Hi. simpl.
  split; [done|]. eexists. split.
  - apply list_lookup_insert_eq.
    apply findIndex_Some in Hi as [(t & Ht & _) _]. by eapply lookup_lt_Some.
  - apply lookup_union_Some_l. unfold update_payload.
    by rewrite lookup_insert_ne, lookup_fmap, Hb.
Qed.

(** C5 fails on the fallback.  After [milk] was created, an update of
    that task whose text is three spaces is answered with status 200,
    and the stored text is the three spaces. *)
Theorem update_blank_text_stored :
  let r := put_task sample_host "1700000000000-1" blank one_task in
  status (fst r) = 200 /\
  exists t, inMemoryTasks (snd r) = [t] /\
            t !! "text" = Some (VJson (JStr "   ")) /\
            whitespace_only "   " = true.
Proof.
  split; [reflexivity|]. eexists. split; [reflexivity|]. split; reflexivity.
Qed.

Lemma update_blank_text_durable_witness :
  status (fst (put_task sample_host "650000000000000000000000" blank
                 (set_readyState 1 init))) = 400.
Proof.
  refine (proj1 (update_blank_text_durable sample_host "650000000000000000000000"
                   blank (set_readyState 1 init) "   " _ _ _)); reflexivity.
Defined.

End UpdateText.

(* ================================================================== *)
(** ** Every event is one of the transitions *)
(* ================================================================== *)

Section Transitions.
Import Server Sample Props.

Lemma step_transition (h : host) (e : event) (st : state) :
  transition h st e (fst (step h e st)) (snd (step h e st)).
Proof.
  destruct e as [|id|b|id b|id|r]; simpl.
  - pose proof (get_tasks_state h st) as Hs.
    destruct (get_tasks h st) as [r st'] eqn:Hr. simpl in *. subst st'.
    replace r with (fst (get_tasks h st)) by by rewrite Hr. constructor.
  - pose proof (get_task_state h id st) as Hs.
    destruct (get_task h id st) as [r st'] eqn:Hr. simpl in *. subst st'.
    replace r with (fst (get_task h id st)) by by rewrite Hr. constructor.
  - destruct (text_cases b) as [Hb|[Hb|[s Hb]]].
    { rewrite (post_tasks_rejected h b st Hb). simpl. by constructor. }
    { rewrite (post_tasks_unreadable h b st Hb). simpl. by constructor. }
    destruct (decide (readyState st = 1)) as [Hmode|Hmode].
    + rewrite (post_tasks_durable h b st s Hb Hmode).
      destruct (dueDate_of_body h _) as [v|] eqn:Hv; simpl; [|by constructor].
      destruct (cast_Date h v) as [due|] eqn:Hdue.
      * destruct (castPosition h _) as [pos|] eqn:Hpos; simpl.
        -- by eapply t_create_durable.
        -- constructor; [by destruct Hb|done].
      * simpl. constructor; [by destruct Hb|done].
    + destruct (dueDate_of_body h (b !! "dueDate")) as [v|] eqn:Hv.
      * rewrite (post_tasks_fallback h b st s v Hb Hv Hmode). simpl.
        by constructor.
      * rewrite (post_tasks_fallback_thrown h b st s Hb Hv Hmode). simpl.
        by constructor.
  - destruct (decide (readyState st = 1)) as [Hmode|Hmode].
    + rewrite (put_task_durable h id b st Hmode).
      destruct (fst (prepare_update _ _ _ _)) as [[[k c] upd]|e] eqn:Hp; simpl.
      * destruct (collection st !! k) as [d|] eqn:Hd; simpl.
        -- destruct (match set_id c with Some k' => (k' =? k)%N | None => true end);
             simpl.
           ++ destruct (operated h _ d) as [e|d0] eqn:Hd0; simpl.
              ** constructor. by right.
              ** by eapply t_update_durable.
           ++ constructor. by right.
        -- constructor. by left.
      * constructor. by right.
    + rewrite (put_task_fallback h id b st Hmode).
      destruct (findIndex _ _) as [i|] eqn:Hi; simpl.
      * destruct (findIndex_Some _ _ _ Hi) as [(t & Ht & _) _].
        rewrite Ht. simpl. by constructor.
      * constructor. by left.
  - destruct (decide (readyState st = 1)) as [Hmode|Hmode].
    + rewrite (delete_task_durable h id st Hmode).
      destruct (castObjectId h (JStr id)) as [k|] eqn:Hk; simpl.
      * destruct (collection st !! k) as [d|] eqn:Hd; simpl.
        -- by eapply t_delete_durable.
        -- constructor. by left.
      * constructor. by right.
    + rewrite (delete_task_fallback h id st Hmode).
      destruct (findIndex _ _) as [i|] eqn:Hi; simpl.
      * by constructor.
      * constructor. by left.
  - constructor.
Qed.

Lemma run_nil (h : host) (st : state) : run h [] st = ([], st).
Proof. done. Qed.

Lemma run_cons (h : host) (e : event) (es : list event) (st : state) :
  run h (e :: es) st =
    (match fst (step h e st) with
     | Some r => r :: fst (run h es (snd (step h e st)))
     | None => fst (run h es (snd (step h e st)))
     end,
     snd (run h es (snd (step h e st)))).
Proof.
  simpl. destruct (step h e st) as [r st1]. simpl.
  by destruct (run h es st1) as [rs st2].
Qed.

Lemma run_app (h : host) (es1 es2 : list event) (st : state) :
  run h (es1 ++ es2) st =
    (fst (run h es1 st) ++ fst (run h es2 (snd (run h es1 st))),
     snd (run h es2 (snd (run h es1 st)))).
Proof.
  revert st. induction es1 as [|e es1 IH]; intros st.
  - rewrite app_nil_l, run_nil. simpl. by destruct (run h es2 st).
  - rewrite <- app_comm_cons, !run_cons, IH. simpl.
    by destruct (fst (step h e st)).
Qed.

End Transitions.

(* ================================================================== *)
(** ** The two timestamps *)
(* ================================================================== *)

Section Timestamps.
Import Server Sample Props.
Variable h : host.
Hypothesis clock : monotone_clock h.

Lemma task_stamped_later (bound bound' : Z) (t : gmap string value) :
  bound <= bound' -> task_stamped bound t -> task_stamped bound' t.
Proof.
  intros Hle (c & u & Hc & Hu & Hcu & Hb). exists c, u. repeat split; [done..|lia].
Qed.

Lemma doc_stamped_later (bound bound' : Z) (d : doc) :
  bound <= bound' -> doc_stamped bound d -> doc_stamped bound' d.
Proof.
  intros Hle (c & u & Hc & Hu & Hcu & Hb). exists c, u. repeat split; [done..|lia].
Qed.

(** Reading the clock, changing the connection or generating an
    ObjectId keeps the stamps. *)
Lemma stamped_later (st st' : state) :
  inMemoryTasks st' = inMemoryTasks st -> collection st' = collection st ->
  (clock_reads st <= clock_reads st')%nat ->
  stamped h st -> stamped h st'.
Proof.
  intros Hl Hc Hr [Ht Hd]. unfold stamped. rewrite Hl, Hc. split.
  - eapply Forall_impl; [exact Ht|]. intros t. apply task_stamped_later. by apply clock.
  - eapply map_Forall_impl; [exact Hd|]. intros k d. apply doc_stamped_later.
    by apply clock.
Qed.

Lemma created_task_stamped (b : gmap string json) (st : state) s v :
  task_stamped (Date_now h (S (S (S (clock_reads st))))) (created_task h b st s v).
Proof.
  exists (Date_now h (S (clock_reads st))), (Date_now h (S (S (clock_reads st)))).
  split; [reflexivity|]. split; [reflexivity|]. split; apply clock; lia.
Qed.

Lemma created_doc_stamped (st : state) s due pos :
  doc_stamped (Date_now h (S (S (clock_reads st)))) (created_doc h st s due pos).
Proof.
  exists (Date_now h (clock_reads st)), (Date_now h (S (clock_reads st))).
  split; [reflexivity|]. split; [reflexivity|]. split; apply clock; lia.
Qed.

(** The payload of an update carries the body's [createdAt], and the
    reading of the clock as [updatedAt]. *)
Lemma update_payload_createdAt (b : gmap string json) (st : state) :
  update_payload h b st !! "createdAt" = VJson <$> b !! "createdAt".
Proof. unfold update_payload. by rewrite lookup_insert_ne, lookup_fmap. Qed.

Lemma update_payload_updatedAt (b : gmap string json) (st : state) :
  update_payload h b st !! "updatedAt"
  = Some (VDate (Some (Date_now h (clock_reads st)))).
Proof. unfold update_payload. by rewrite lookup_insert_eq. Qed.

Lemma merged_task_stamped (b : gmap string json) (st : state)
  (t : gmap string value) :
  b !! "createdAt" = None ->
  task_stamped (Date_now h (clock_reads st)) t ->
  task_stamped (Date_now h (S (clock_reads st))) (update_payload h b st ∪ t).
Proof.
  intros Hb (c & u & Hc & Hu & Hcu & Hbound).
  exists c, (Date_now h (clock_reads st)). split; [|split; [|split]].
  - rewrite lookup_union_r; [done|]. by rewrite update_payload_createdAt, Hb.
  - apply lookup_union_Some_l, update_payload_updatedAt.
  - done.
  - etrans; [exact Hbound|]. apply clock. lia.
Qed.

Lemma updated_doc_stamped (id : string) (b : gmap string json) (st : state)
  k c upd (d : doc) :
  b !! "createdAt" = None ->
  fst (prepare_update h id (update_payload h b st) st) = Returned (k, c, upd) ->
  doc_stamped (Date_now h (clock_reads st)) d ->
  createdAt (apply_changes c (default (updatedAt d) upd) d) = createdAt d /\
  doc_stamped (Date_now h (S (clock_reads st)))
    (apply_changes c (default (updatedAt d) upd) d).
Proof.
  intros Hb Hp (cr & u & Hc & Hu & Hcu & Hbound).
  apply prepare_update_returned in Hp as (_ & Hcreated & Hupdated & _ & _).
  rewrite (Hupdated _ (update_payload_updatedAt b st)).
  change (default (updatedAt d) (Some (Some (Date_now h (clock_reads st)))))
    with (Some (Date_now h (clock_reads st))).
  assert (set_createdAt c = None) as Hset.
  { apply Hcreated. by rewrite update_payload_createdAt, Hb. }
  assert (createdAt (apply_changes c (Some (Date_now h (clock_reads st))) d)
          = createdAt d) as Hkept.
  { simpl. by rewrite Hset. }
  split; [done|].
  exists cr, (Date_now h (clock_reads st)). rewrite Hkept.
  split; [done|]. split; [done|]. split; [done|].
  etrans; [exact Hbound|]. apply clock. lia.
Qed.

(** Every transition keeps the stamps. *)
Lemma transition_stamped (e : event) (r : option response) (st st' : state) :
  keeps_createdAt e -> transition h st e r st' -> stamped h st -> stamped h st'.
Proof.
  intros He Ht Hst. pose proof Hst as [Htasks Hdocs].
  destruct Ht; try done.
  - apply (stamped_later st); simpl; [done|done|lia|done].
  - (* a task is pushed *)
    split; simpl.
    + apply Forall_app. split.
      * eapply Forall_impl; [exact Htasks|]. intros t.
        apply task_stamped_later, clock. lia.
      * constructor; [|constructor]. apply created_task_stamped.
    + eapply map_Forall_impl; [exact Hdocs|]. intros k d.
      apply doc_stamped_later, clock. lia.
  - (* a document is saved *)
    split; simpl.
    + eapply Forall_impl; [exact Htasks|]. intros t.
      apply task_stamped_later, clock. lia.
    + apply map_Forall_insert_2; [apply created_doc_stamped|].
      eapply map_Forall_impl; [exact Hdocs|]. intros k d.
      apply doc_stamped_later, clock. lia.
  - apply (stamped_later st); simpl; [done|done|lia|done].
  - apply (stamped_later st); simpl; [done|done|lia|done].
  - (* a task is merged with a payload *)
    split; simpl.
    + apply Forall_insert.
      * eapply Forall_impl; [exact Htasks|]. intros t'.
        apply task_stamped_later, clock. lia.
      * apply merged_task_stamped; [exact (proj1 He)|].
        by eapply (proj1 (Forall_lookup _ _) Htasks).
    + eapply map_Forall_impl; [exact Hdocs|]. intros k d.
      apply doc_stamped_later, clock. lia.
  - (* a document is updated *)
    destruct He as [Hb Hplain].
    match goal with Ho : operated _ _ _ = inr _ |- _ =>
      rewrite (operated_plain h b st _ Hplain) in Ho; injection Ho as <- end.
    split; simpl.
    + eapply Forall_impl; [exact Htasks|]. intros t.
      apply task_stamped_later, clock. lia.
    + apply map_Forall_insert_2.
      * eapply updated_doc_stamped; [exact Hb|eassumption|]. by eapply Hdocs.
      * eapply map_Forall_impl; [exact Hdocs|]. intros k' d'.
        apply doc_stamped_later, clock. lia.
  - split; simpl; [|done]. by apply Forall_delete.
  - split; simpl; [done|]. by apply map_Forall_delete.
Qed.

End Timestamps.

Section CreatedAt.
Import Server Sample Props.
Variable h : host.

Lemma transition_fresh_ids (e : event) (r : option response) (st st' : state) :
  transition h st e r st' -> fresh_ids st -> fresh_ids st'.
Proof.
  unfold fresh_ids. intros Ht Hst. destruct Ht; simpl; try done.
  - intros k' [d' Hk]. destruct (decide (objectIds st = k')) as [<-|Hne]; [lia|].
    rewrite lookup_insert_ne in Hk by done.
    assert (k' < objectIds st)%N by by apply Hst. lia.
  - intros k' Hk. assert (k' < objectIds st)%N by by apply Hst. lia.
  - intros k' [d' Hk]. destruct (decide (k = k')) as [<-|Hne]; [by apply Hst|].
    rewrite lookup_insert_ne in Hk by done. by apply Hst.
  - intros k' [d' Hk]. destruct (decide (k = k')) as [<-|Hne].
    + by rewrite lookup_delete_eq in Hk.
    + rewrite lookup_delete_ne in Hk by done. by apply Hst.
Qed.

Lemma updated_doc_createdAt (id : string) (b : gmap string json) (st : state)
  k c upd u (d : doc) :
  b !! "createdAt" = None ->
  fst (prepare_update h id (update_payload h b st) st) = Returned (k, c, upd) ->
  createdAt (apply_changes c u d) = createdAt d.
Proof.
  intros Hb Hp. apply prepare_update_returned in Hp as (_ & Hcreated & _ & _ & _).
  simpl. rewrite Hcreated; [done|]. by rewrite update_payload_createdAt, Hb.
Qed.

(** No transition changes a [createdAt], as long as the body of an
    update carries none, and no update operator. *)
Lemma transition_createdAt_kept (e : event) (r : option response) (st st' : state) :
  keeps_createdAt e -> fresh_ids st -> transition h st e r st' ->
  createdAt_kept st st'.
Proof.
  intros He Hfresh Ht.
  assert (forall st0, collection st0 = collection st ->
            forall k d d', collection st !! k = Some d ->
              collection st0 !! k = Some d' -> createdAt d' = createdAt d)
    as Hsame.
  { intros st0 -> k d d' Hd Hd'. congruence. }
  destruct Ht; unfold createdAt_kept, createdAt_list; simpl.
  - split; [by left|by apply Hsame].
  - split; [by left|by apply Hsame].
  - split; [by left|by apply (Hsame (set_readyState r st))].
  - split; [by left|by apply Hsame].
  - split; [by left|by apply Hsame].
  - split; [by left|by apply (Hsame (after_create_thrown st))].
  - split; [|by apply (Hsame (after_create_fallback h b st s v))].
    right; left. exists (Date_now h (S (clock_reads st))). by rewrite fmap_app.
  - split; [by left|]. intros k d d' Hd Hd'.
    destruct (decide (objectIds st = k)) as [<-|Hne].
    + assert (objectIds st < objectIds st)%N by by apply Hfresh. lia.
    + rewrite lookup_insert_ne in Hd' by done. congruence.
  - split; [by left|by apply (Hsame (after_create_durable st None))].
  - split; [by left|by apply (Hsame (tick 1 st))].
  - split; [|by apply (Hsame (tick 1 st))]. left.
    rewrite list_fmap_insert. apply list_insert_id.
    rewrite list_lookup_fmap.
    match goal with Ht : inMemoryTasks st !! i = Some t |- _ => rewrite Ht end.
    simpl. f_equal. rewrite lookup_union_r; [done|].
    by rewrite update_payload_createdAt, (proj1 He).
  - destruct He as [Hb Hplain].
    match goal with Ho : operated _ _ _ = inr _ |- _ =>
      rewrite (operated_plain h b st _ Hplain) in Ho; injection Ho as <- end.
    split; [by left|]. intros k' d1 d' Hd Hd'.
    destruct (decide (k = k')) as [<-|Hne].
    + rewrite lookup_insert_eq in Hd'. injection Hd' as <-.
      assert (d1 = d) as -> by congruence.
      by eapply updated_doc_createdAt.
    + rewrite lookup_insert_ne in Hd' by done. congruence.
  - split; [by left|by apply Hsame].
  - split; [|by apply (Hsame (set_inMemoryTasks (delete i (inMemoryTasks st)) st))].
    right; right. exists i. by rewrite list_fmap_delete.
  - split; [by left|]. intros k' d0 d' Hd Hd'.
    destruct (decide (k = k')) as [<-|Hne].
    + by rewrite lookup_delete_eq in Hd'.
    + rewrite lookup_delete_ne in Hd' by done. congruence.
Qed.

Hypothesis clock : monotone_clock h.

(** The stamps and the freshness of the ids hold along every run whose
    updates carry no [createdAt] and no update operator. *)
Lemma run_stamped (es : list event) (st : state) :
  Forall keeps_createdAt es -> stamped h st -> fresh_ids st ->
  stamped h (snd (run h es st)) /\ fresh_ids (snd (run h es st)).
Proof.
  intros Hes. revert st. induction Hes as [|e es He Hes IH]; intros st Hst Hfresh.
  - by rewrite run_nil.
  - rewrite run_cons. simpl. pose proof (step_transition h e st) as Ht.
    apply IH.
    + by eapply transition_stamped.
    + by eapply transition_fresh_ids.
Qed.

Lemma init_stamped : stamped h init /\ fresh_ids init.
Proof.
  split; [split|].
  - constructor.
  - apply map_Forall_empty.
  - intros k [d Hd]. simpl in Hd. by rewrite lookup_empty in Hd.
Qed.

(** C6, as amended.  Take any sequence of events since the start of the
    server in which no update carries in its body a [createdAt] or an
    update operator (a key that starts with [$]), and one more such
    event, under a clock that never runs backwards.  Before and after
    that event every stored task, in the fallback and in the database,
    has a [createdAt] and an [updatedAt] with [createdAt <= updatedAt];
    and the event changes no stored [createdAt]: the tasks that stay
    keep theirs, and a task that is created gets a reading of the
    clock. *)
Theorem createdAt_never_changes (es : list event) (e : event) :
  Forall keeps_createdAt es -> keeps_createdAt e ->
  let st := snd (run h es init) in
  let st' := snd (step h e st) in
  stamped h st /\ stamped h st' /\ createdAt_kept st st'.
Proof.
  intros Hes He st st'.
  destruct (run_stamped es init Hes) as [Hst Hfresh]; [apply init_stamped..|].
  pose proof (step_transition h e st) as Ht. fold st' in Ht.
  split; [done|]. split.
  - by eapply transition_stamped.
  - by eapply transition_createdAt_kept.
Qed.

End CreatedAt.

Section CreatedAtExamples.
Import Server Sample Props.

Lemma createdAt_never_changes_witness :
  let st := snd (run sample_host [POST_tasks milk] init) in
  let st' := snd (step sample_host (PUT_task "1700000000000-1" blank) st) in
  stamped sample_host st /\ stamped sample_host st' /\ createdAt_kept st st'.
Proof.
  apply (createdAt_never_changes sample_host).
  - intros i j Hij. simpl. lia.
  - repeat constructor.
  - split; [reflexivity|].
    intros key v Hkey. unfold blank in Hkey.
    apply lookup_singleton_Some in Hkey as [<- _].
    reflexivity.
Defined.

(** C6, as stated, fails: the update handler merges the whole body, so a
    body with a [createdAt] replaces the stored one.  On the fallback
    the date set at creation becomes the number of the body; on the
    database the document ends with a [createdAt] later than its
    [updatedAt]. *)
Lemma createdAt_overwritten :
  createdAt_list (snd (run sample_host [POST_tasks milk] init))
  = [Some (VDate (Some 1700000000001))] /\
  createdAt_list
    (snd (run sample_host
            [POST_tasks milk; PUT_task "1700000000000-1" postdate] init))
  = [Some (VJson (JNum 4070908800000))] /\
  (let db := collection
               (snd (run sample_host
                       [Connection 1; POST_tasks milk;
                        PUT_task "650000000000000000000000" postdate] init)) in
   createdAt <$> db !! 0%N = Some (Some 4070908800000) /\
   updatedAt <$> db !! 0%N = Some (Some 1700000000002) /\
   1700000000002 < 4070908800000).
Proof.
  split; [vm_compute; reflexivity|]. split; [vm_compute; reflexivity|].
  split; [vm_compute; reflexivity|]. split; [vm_compute; reflexivity|]. lia.
Qed.

End CreatedAtExamples.

(* ================================================================== *)
(** ** The ids of the created tasks *)
(* ================================================================== *)

Section Ids.
Import Server Sample Props.

Lemma no_dash_pretty_N_go (x : N) (s : string) :
  no_dash s = true -> no_dash (pretty_N_go x s) = true.
Proof.
  revert s. induction (N.lt_wf_0 x) as [x _ IH]; intros s Hs.
  destruct (decide (x = 0)%N) as [->|Hx]; [by rewrite pretty_N_go_0|].
  rewrite pretty_N_go_step by lia. apply IH.
  - apply N.div_lt; lia.
  - simpl. rewrite Hs. unfold pretty_N_char. by repeat case_match.
Qed.

Lemma no_dash_pretty_N (n : N) : no_dash (pretty n) = true.
Proof.
  unfold pretty, pretty_N. case_decide; [done|]. by apply no_dash_pretty_N_go.
Qed.

Lemma no_dash_app_dash (a d : string) : no_dash (a +:+ String "-" d) = false.
Proof.
  induction a as [|c a IH]; [done|].
  change (String c a +:+ String "-" d) with (String c (a +:+ String "-" d)).
  simpl. rewrite IH. apply andb_false_r.
Qed.

(** What follows the last dash of a string is determined by the
    string. *)
Lemma after_last_dash (a a' d d' : string) :
  no_dash d = true -> no_dash d' = true ->
  a +:+ String "-" d = a' +:+ String "-" d' -> d = d'.
Proof.
  intros Hd Hd'. revert a'. induction a as [|c a IH]; intros [|c' a'].
  - by intros [= ->].
  - change ("" +:+ String "-" d) with (String "-" d).
    change (String c' a' +:+ String "-" d') with (String c' (a' +:+ String "-" d')).
    intros [= _ ->]. by rewrite no_dash_app_dash in Hd.
  - change ("" +:+ String "-" d') with (String "-" d').
    change (String c a +:+ String "-" d) with (String c (a +:+ String "-" d)).
    intros [= _ <-]. by rewrite no_dash_app_dash in Hd'.
  - change (String c a +:+ String "-" d) with (String c (a +:+ String "-" d)).
    change (String c' a' +:+ String "-" d') with (String c' (a' +:+ String "-" d')).
    intros [= _ H]. by apply (IH a').
Qed.

(** The id built by the create handler determines the counter. *)
Lemma fallback_id_counter (t t' : Z) (n n' : N) :
  pretty t +:+ "-" +:+ pretty n = pretty t' +:+ "-" +:+ pretty n' -> n = n'.
Proof.
  intros H. apply (inj pretty).
  apply (after_last_dash (pretty t) (pretty t')); [apply no_dash_pretty_N..|].
  exact H.
Qed.

Lemma created_id_None (r : response) : status r <> 201 -> created_id r = None.
Proof. intros H%Z.eqb_neq. unfold created_id. by rewrite H. Qed.

Lemma get_tasks_status (h : host) (st : state) :
  status (fst (get_tasks h st)) <> 201.
Proof.
  destruct (decide (readyState st = 1)) as [Hmode|Hmode].
  - by rewrite get_tasks_durable.
  - rewrite get_tasks_fallback by done. by destruct (Array_sort _ _).
Qed.

Lemma get_task_status (h : host) (id : string) (st : state) :
  status (fst (get_task h id st)) <> 201.
Proof.
  destruct (decide (readyState st = 1)) as [Hmode|Hmode].
  - rewrite get_task_durable by done. by repeat case_match.
  - apply fallback_mode_test in Hmode. unfold get_task. run_handler.
    rewrite Hmode. by destruct (find (has_id id) (inMemoryTasks st)).
Qed.

(** The ids a transition can announce: on the fallback the string made
    of a clock reading, a dash and the counter, which then moves on; on
    the database the ObjectId generated for the document. *)
Lemma transition_created (h : host) (e : event) (r : response) (st st' : state) :
  transition h st e (Some r) st' ->
  match created_id r with
  | None => True
  | Some (inl s) =>
      (exists t : Z, s = pretty t +:+ "-" +:+ pretty (inMemoryIdCounter st)) /\
      inMemoryIdCounter st' = N.succ (inMemoryIdCounter st)
  | Some (inr k) => k = objectIds st /\ objectIds st' = N.succ (objectIds st)
  end.
Proof.
  intros Ht. inversion Ht; subst.
  - by rewrite created_id_None by apply get_tasks_status.
  - by rewrite created_id_None by apply get_task_status.
  - done.
  - done.
  - done.
  - change (created_id (Response 201 (OneTask (created_task h b st s v))))
      with (Some (inl (pretty (Date_now h (clock_reads st)) +:+ "-" +:+
                       pretty (inMemoryIdCounter st)) : string + N)).
    split; [by eexists|done].
  - done.
  - done.
  - rewrite created_id_None; [done|]. lia.
  - done.
  - done.
  - rewrite created_id_None; [done|]. lia.
  - done.
  - done.
Qed.

Lemma transition_counters (h : host) (e : event) (r : option response)
  (st st' : state) :
  transition h st e r st' ->
  (inMemoryIdCounter st <= inMemoryIdCounter st')%N /\
  (objectIds st <= objectIds st')%N.
Proof. intros Ht. destruct Ht; simpl; lia. Qed.

Lemma id_from_earlier (st st' : state) (i : string + N) :
  (inMemoryIdCounter st <= inMemoryIdCounter st')%N ->
  (objectIds st <= objectIds st')%N ->
  id_from st' i -> id_from st i.
Proof.
  intros Hc Ho. destruct i as [s|k]; simpl.
  - intros (t & n & -> & Hn). exists t, n. split; [done|lia].
  - lia.
Qed.

(** Along a run from any state, the ids announced are pairwise distinct,
    and each is one the state could still give. *)
Lemma run_created_ids (h : host) (es : list event) (st : state) :
  NoDup (created_ids (fst (run h es st))) /\
  Forall (id_from st) (created_ids (fst (run h es st))).
Proof.
  revert st. induction es as [|e es IH]; intros st.
  { rewrite run_nil. split; constructor. }
  rewrite run_cons. simpl.
  pose proof (step_transition h e st) as Ht.
  destruct (IH (snd (step h e st))) as [Hnodup Hfrom].
  destruct (transition_counters _ _ _ _ _ Ht) as [Hc Ho].
  assert (Forall (id_from st) (created_ids (fst (run h es (snd (step h e st))))))
    as Hfrom'.
  { eapply Forall_impl; [exact Hfrom|]. intros i. by apply id_from_earlier. }
  destruct (fst (step h e st)) as [r|] eqn:Hr; [|done].
  apply transition_created in Ht. unfold created_ids. simpl.
  fold (created_ids (fst (run h es (snd (step h e st))))).
  destruct (created_id r) as [[s|k]|]; [| |done].
  - destruct Ht as [[t ->] Hnext]. split.
    + constructor; [|done]. intros Hin.
      apply (proj1 (Forall_forall _ _) Hfrom) in Hin as (t' & n' & Heq & Hn').
      apply fallback_id_counter in Heq. lia.
    + constructor; [|done]. exists t, (inMemoryIdCounter st). split; [done|lia].
  - destruct Ht as [-> Hnext]. split.
    + constructor; [|done]. intros Hin.
      apply (proj1 (Forall_forall _ _) Hfrom) in Hin. simpl in Hin. lia.
    + constructor; [|done]. simpl. lia.
Qed.

(** The two dates of a task just created are two consecutive readings
    of the clock. *)
Lemma create_stamps (h : host) (b : gmap string json) (st : state) :
  status (fst (post_tasks h b st)) = 201 ->
  exists i : nat,
    (clock_reads st <= i)%nat /\
    stamps (fst (post_tasks h b st)) = Some (Date_now h i, Date_now h (S i)).
Proof.
  destruct (text_cases b) as [Hb|[Hb|[s Hb]]].
  { by rewrite (post_tasks_rejected h b st Hb). }
  { by rewrite (post_tasks_unreadable h b st Hb). }
  destruct (decide (readyState st = 1)) as [Hmode|Hmode].
  - rewrite (post_tasks_durable h b st s Hb Hmode).
    destruct (dueDate_of_body h _) as [v|]; [|done].
    destruct (cast_Date h v) as [due|]; [|done].
    destruct (castPosition h _) as [pos|]; [|done].
    intros _. exists (clock_reads st). split; [lia|done].
  - destruct (dueDate_of_body h (b !! "dueDate")) as [v|] eqn:Hv.
    + rewrite (post_tasks_fallback h b st s v Hb Hv Hmode).
      intros _. exists (S (clock_reads st)). split; [lia|reflexivity].
    + by rewrite (post_tasks_fallback_thrown h b st s Hb Hv Hmode).
Qed.

(** C8, as amended.  The ids of the tasks created since the start of
    the server are pairwise distinct.  The [createdAt] and the
    [updatedAt] of a task just created are two consecutive readings of
    the clock, taken during the call: they are equal when the clock did
    not advance between the two readings, and [createdAt <= updatedAt]
    when the clock does not run backwards. *)
Theorem created_ids_distinct (h : host) :
  (forall es : list event, NoDup (created_ids (fst (run h es init)))) /\
  (forall (b : gmap string json) (st : state),
     status (fst (post_tasks h b st)) = 201 ->
     exists (i : nat) (c u : Z),
       (clock_reads st <= i)%nat /\
       stamps (fst (post_tasks h b st)) = Some (c, u) /\
       c = Date_now h i /\ u = Date_now h (S i) /\
       (Date_now h i = Date_now h (S i) -> c = u) /\
       (monotone_clock h -> c <= u)).
Proof.
  split.
  - intros es. apply run_created_ids.
  - intros b st Hok. destruct (create_stamps h b st Hok) as (i & Hi & Hs).
    exists i, (Date_now h i), (Date_now h (S i)).
    repeat split; try done. intros Hclock. apply Hclock. lia.
Qed.

Lemma created_ids_distinct_witness :
  NoDup (created_ids (fst (run sample_host
                             [POST_tasks milk; Connection 1; POST_tasks bread;
                              Connection 0; POST_tasks eggs] init))).
Proof.
  exact (proj1 (created_ids_distinct sample_host) _).
Defined.

(** When the clock stands still during the call, the two dates are
    equal. *)
Example created_stamps_equal_frozen :
  stamps (fst (post_tasks frozen_host milk init))
  = Some (1700000000000, 1700000000000).
Proof. vm_compute. reflexivity. Qed.

(** C8, as stated, fails on the two dates: the handler reads the clock
    once for [createdAt] and once more for [updatedAt], and the clock
    may advance between the two readings. *)
Lemma created_stamps_differ :
  status (fst (post_tasks sample_host milk init)) = 201 /\
  stamps (fst (post_tasks sample_host milk init))
  = Some (1700000000001, 1700000000002) /\
  stamps (fst (post_tasks sample_host milk (set_readyState 1 init)))
  = Some (1700000000000, 1700000000001) /\
  1700000000001 <> 1700000000002.
Proof.
  split; [vm_compute; reflexivity|]. split; [vm_compute; reflexivity|].
  split; [vm_compute; reflexivity|]. lia.
Qed.

End Ids.

(* ================================================================== *)
(** ** Creating a task with a due date that does not parse *)
(* ================================================================== *)

Section CreateDueDate.
Import Server Sample Props.




End CreateDueDate.

(* ================================================================== *)
(** ** The order of the list *)
(* ================================================================== *)

Section ListOrder.
Import Server Sample Props.

(** The sort is correct for a comparison that decides a preorder: when
    [gt x y] holds, [y] may come before [x]; when it fails, [x] may come
    before [y]. *)
Lemma sort_stable_sorted {A : Type} (gt : A -> A -> bool) (P : A -> Prop)
  (le : A -> A -> Prop) (l : list A) :
  (forall x y, P x -> P y -> gt x y = true -> le y x) ->
  (forall x y, P x -> P y -> gt x y = false -> le x y) ->
  (forall x y z, P x -> P y -> P z -> le x y -> le y z -> le x z) ->
  Forall P l -> StronglySorted le (sort_stable gt l).
Proof.
  intros Hgt Hngt Htrans.
  assert (forall x l, P x -> Forall P l -> StronglySorted le l ->
            StronglySorted le (insert_stable gt x l)) as Hinsert.
  { intros x k Hx. induction k as [|y k IH]; intros Hk Hsorted; simpl.
    - repeat constructor.
    - apply Forall_cons in Hk as [Hy Hk].
      apply StronglySorted_inv in Hsorted as [Hsorted Hall].
      destruct (gt x y) eqn:Hxy.
      + constructor; [by apply IH|].
        rewrite insert_stable_perm. constructor; [by apply Hgt|done].
      + constructor; [by constructor|].
        constructor; [by apply Hngt|].
        apply Forall_forall. intros z Hz.
        apply (Htrans x y z); [done|done| |by apply Hngt|].
        * by apply (proj1 (Forall_forall _ _) Hk).
        * by apply (proj1 (Forall_forall _ _) Hall). }
  induction l as [|x l IH]; intros Hl; simpl; [constructor|].
  apply Forall_cons in Hl as [Hx Hl]. apply Hinsert; [done| |by apply IH].
  by rewrite sort_stable_perm.
Qed.

Lemma due_of_cases (h : host) (t : gmap string value) :
  due_of h t = XPosInf \/ due_of h t = XNaN \/ exists z, due_of h t = XFin z.
Proof.
  unfold due_of, dueTime. destruct (t !! "dueDate") as [v|]; [|by left].
  destruct (truthy (Some v)); [|by left].
  destruct (new_Date h v) as [[z|]|]; simpl;
    [right; right; by exists z|by right; left..].
Qed.

Lemma tidy_readable (h : host) (t : gmap string value) : tidy h t -> readable h t.
Proof. unfold tidy, due_of, readable. by destruct (dueTime h (t !! "dueDate")). Qed.

Lemma readable_dueTime (h : host) (t : gmap string value) :
  readable h t -> dueTime h (t !! "dueDate") = Some (due_of h t).
Proof. unfold due_of. by intros [x ->]. Qed.

(** On tasks whose due dates it can read the comparator does not
    throw. *)
Lemma compareTasks_readable (h : host) (a b : gmap string value) :
  readable h a -> readable h b ->
  compareTasks h a b =
    Some (if negb (Bool.eqb (truthy (a !! "completed")) (truthy (b !! "completed")))
          then (if truthy (a !! "completed") then XFin 1 else XFin (-1))
          else xsub (due_of h a) (due_of h b)).
Proof.
  intros Ha%readable_dueTime Hb%readable_dueTime. unfold compareTasks.
  rewrite Ha, Hb. by destruct (negb _).
Qed.

Lemma compareTasks_after (h : host) (a b : gmap string value) :
  tidy h a -> tidy h b ->
  listed_after h a b = true -> listed_before h b a.
Proof.
  intros Ha Hb. unfold listed_after.
  rewrite (compareTasks_readable h a b) by by apply tidy_readable.
  unfold tidy, listed_before in *. simpl.
  destruct (truthy (a !! "completed")), (truthy (b !! "completed")); simpl;
    try done; try (by left).
  all: destruct (due_of_cases h a) as [Hda|[Hda|[x Hda]]];
    destruct (due_of_cases h b) as [Hdb|[Hdb|[y Hdb]]];
    try done; rewrite Hda, Hdb; simpl; try done.
  all: intros H; right; split; [done|]; try done; lia.
Qed.

Lemma compareTasks_not_after (h : host) (a b : gmap string value) :
  tidy h a -> tidy h b ->
  listed_after h a b = false -> listed_before h a b.
Proof.
  intros Ha Hb. unfold listed_after.
  rewrite (compareTasks_readable h a b) by by apply tidy_readable.
  unfold tidy, listed_before in *. simpl.
  destruct (truthy (a !! "completed")), (truthy (b !! "completed")); simpl;
    try done; try (by left).
  all: destruct (due_of_cases h a) as [Hda|[Hda|[x Hda]]];
    destruct (due_of_cases h b) as [Hdb|[Hdb|[y Hdb]]];
    try done; rewrite Hda, Hdb; simpl; try done.
  all: intros H; right; split; [done|]; try done; lia.
Qed.

Lemma listed_before_trans (h : host) (a b c : gmap string value) :
  tidy h a -> tidy h b -> tidy h c ->
  listed_before h a b -> listed_before h b c -> listed_before h a c.
Proof.
  unfold tidy, listed_before. intros Ha Hb Hc.
  destruct (truthy (a !! "completed")), (truthy (b !! "completed")),
    (truthy (c !! "completed")); intros [[??]|[? Hab]] [[??]|[? Hbc]];
    try done; try (by left).
  all: right; split; [done|].
  all: destruct (due_of h a), (due_of h b), (due_of h c); simpl in *; try done; lia.
Qed.

(** The list of the fallback when every due date can be read: the
    sorted copy, with status 200. *)
Lemma get_tasks_readable (h : host) (st : state) :
  readyState st <> 1 -> Forall (readable h) (inMemoryTasks st) ->
  fst (get_tasks h st)
  = Response 200 (Tasks (sort_stable (listed_after h) (inMemoryTasks st))).
Proof.
  intros Hmode Hl. rewrite (get_tasks_fallback h st Hmode).
  unfold Array_sort. rewrite sort_try_total; [done|].
  intros x y Hx Hy. rewrite compareTasks_readable; [by eexists|..].
  - by apply (proj1 (Forall_forall _ _) Hl).
  - by apply (proj1 (Forall_forall _ _) Hl).
Qed.

(** The list of the fallback, when every stored due date is absent or
    valid: the stored tasks, each incomplete task before each completed
    one, and within a group by ascending due date with the tasks
    without a due date last. *)
Theorem list_fallback_sorted (h : host) (st : state) :
  readyState st <> 1 -> Forall (tidy h) (inMemoryTasks st) ->
  exists ts,
    fst (get_tasks h st) = Response 200 (Tasks ts) /\
    ts ≡ₚ inMemoryTasks st /\
    StronglySorted (listed_before h) ts.
Proof.
  intros Hmode Htidy. rewrite (get_tasks_readable h st Hmode).
  2:{ eapply Forall_impl; [exact Htidy|]. apply tidy_readable. }
  eexists. split; [done|]. split; [apply sort_stable_perm|].
  apply (sort_stable_sorted _ (tidy h)); [| | |done].
  - apply compareTasks_after.
  - apply compareTasks_not_after.
  - apply listed_before_trans.
Qed.

Lemma list_fallback_sorted_witness :
  exists ts,
    fst (get_tasks sample_host
           (snd (run sample_host [POST_tasks milk; POST_tasks bread] init)))
    = Response 200 (Tasks ts) /\
    ts ≡ₚ inMemoryTasks
            (snd (run sample_host [POST_tasks milk; POST_tasks bread] init)) /\
    StronglySorted (listed_before sample_host) ts.
Proof.
  apply (list_fallback_sorted sample_host).
  - discriminate.
  - apply (Forall_fmap (due_of sample_host) (fun x => x <> XNaN)).
    assert (due_of sample_host
              <$> inMemoryTasks
                    (snd (run sample_host [POST_tasks milk; POST_tasks bread] init))
            = [XPosInf; XFin 4070908800000]) as ->
      by (vm_compute; reflexivity).
    repeat constructor; discriminate.
Defined.

Lemma bson_compare_antisym (a b : doc) :
  bson_compare a b = Gt -> bson_compare b a <> Gt.
Proof.
  unfold bson_compare, compare_null.
  destruct (completed a) as [[]|], (completed b) as [[]|]; simpl; try done.
  all: destruct (dueDate a) as [x|], (dueDate b) as [y|]; simpl; try done.
  all: rewrite !Z.compare_gt_iff; lia.
Qed.

Lemma bson_compare_trans (a b c : doc) :
  bson_compare a b <> Gt -> bson_compare b c <> Gt -> bson_compare a c <> Gt.
Proof.
  unfold bson_compare, compare_null.
  destruct (completed a) as [[]|], (completed b) as [[]|],
    (completed c) as [[]|]; simpl; try done.
  all: destruct (dueDate a) as [x|], (dueDate b) as [y|], (dueDate c) as [z|];
    simpl; try done.
  all: rewrite !Z.compare_gt_iff; lia.
Qed.

(** The list of the database: the documents of the collection, in
    ascending order of [completed], then of [dueDate], a [null] before
    every value: the documents without a due date come first in their
    group. *)
Theorem list_durable_sorted (h : host) (st : state) :
  readyState st = 1 ->
  exists ds,
    fst (get_tasks h st) = Response 200 (Docs ds) /\
    ds ≡ₚ map_to_list (collection st) /\
    StronglySorted bson_le ds /\
    (forall (i j : nat) a b,
       ds !! i = Some a -> ds !! j = Some b ->
       completed (snd a) = completed (snd b) ->
       dueDate (snd a) = None -> dueDate (snd b) <> None -> (i < j)%nat).
Proof.
  intros Hmode. rewrite (get_tasks_durable h st Hmode).
  eexists. split; [done|]. split; [apply sort_stable_perm|].
  assert (StronglySorted bson_le
            (sort_stable bson_gt (map_to_list (collection st)))) as Hsorted.
  { apply (sort_stable_sorted _ (fun _ => True)).
    - intros x y _ _. unfold bson_gt, bson_le.
      destruct (bson_compare (snd x) (snd y)) eqn:Hxy; try done.
      intros _. by apply bson_compare_antisym.
    - intros x y _ _. unfold bson_gt, bson_le.
      by destruct (bson_compare (snd x) (snd y)).
    - intros x y z _ _ _. apply bson_compare_trans.
    - by apply Forall_forall. }
  split; [done|]. intros i j a b Ha Hb Hcompleted Hnone Hsome.
  destruct (decide (i < j)%nat) as [|Hge]; [done|exfalso].
  assert (i <> j) as Hne by (intros ->; congruence).
  assert (j < i)%nat as Hlt by lia.
  pose proof (StronglySorted_lookup _ _ j i b a Hsorted Hb Ha Hlt) as Hle.
  unfold bson_le, bson_compare, compare_null in Hle.
  rewrite Hcompleted, Hnone in Hle.
  destruct (completed (snd b)) as [[]|], (dueDate (snd b)); simpl in Hle; done.
Qed.

Lemma list_durable_sorted_witness :
  let st := snd (run sample_host [Connection 1; POST_tasks milk; POST_tasks bread] init) in
  exists ds,
    fst (get_tasks sample_host st) = Response 200 (Docs ds) /\
    ds ≡ₚ map_to_list (collection st) /\
    StronglySorted bson_le ds /\
    (forall (i j : nat) a b,
       ds !! i = Some a -> ds !! j = Some b ->
       completed (snd a) = completed (snd b) ->
       dueDate (snd a) = None -> dueDate (snd b) <> None -> (i < j)%nat).
Proof.
  apply (list_durable_sorted sample_host). reflexivity.
Defined.

(** C1 fails.  With the database connected, a task without a due date
    and a task with one are listed in that order: the ascending sort of
    MongoDB puts [null] first.  The fallback lists the same two tasks
    the other way round.  And on the fallback a task created with a due
    date that does not parse, which reads as [null] in every response,
    is listed before a task that has a due date. *)
Theorem list_order_counterexamples :
  listed_docs <$> last (fst (run sample_host
      [Connection 1; POST_tasks milk; POST_tasks bread; GET_tasks] init))
  = Some [(Some "buy milk", None); (Some "bread", Some 4070908800000)] /\
  listed_tasks <$> last (fst (run sample_host
      [POST_tasks milk; POST_tasks bread; GET_tasks] init))
  = Some [(Some (VJson (JStr "bread")), Some (VDate (Some 4070908800000)));
          (Some (VJson (JStr "buy milk")), Some (VJson JNull))] /\
  listed_tasks <$> last (fst (run sample_host
      [POST_tasks eggs; POST_tasks bread; GET_tasks] init))
  = Some [(Some (VJson (JStr "eggs")), Some (VDate None));
          (Some (VJson (JStr "bread")), Some (VDate (Some 4070908800000)))] /\
  toJSON sample_host (VDate None) = JNull.
Proof.
  split; [vm_compute; reflexivity|]. split; [vm_compute; reflexivity|].
  split; [vm_compute; reflexivity|]. reflexivity.
Qed.

End ListOrder.

(* ================================================================== *)
(** ** The connection attempts at start-up *)
(* ================================================================== *)

Section ConnectionAttempts.
Import Startup Sample.

(** C3 fails on the number of attempts.  When the database cannot be
    reached, [connectToMongo] calls [mongoose.connect] four times, each
    with a server selection timeout of 5000 ms, waits 1000, 2000 and
    4000 ms between the calls, and returns after the warning that the
    server continues in fallback mode. *)
Theorem connectToMongo_unreachable (h : host) :
  (forall k, mongoose_connect h k = false) ->
  connectToMongo h =
    [connect 1 5000; failed 1; retry_in 1000;
     connect 2 5000; failed 2; retry_in 2000;
     connect 3 5000; failed 3; retry_in 4000;
     connect 4 5000; failed 4; fallback_mode] /\
  attempts (connectToMongo h) = [1; 2; 3; 4]%nat /\
  delays (connectToMongo h) = [1000; 2000; 4000].
Proof.
  intros Hdown.
  assert (connectToMongo h =
    [connect 1 5000; failed 1; retry_in 1000;
     connect 2 5000; failed 2; retry_in 2000;
     connect 3 5000; failed 3; retry_in 4000;
     connect 4 5000; failed 4; fallback_mode]) as ->.
  { unfold connectToMongo. repeat (simp connect_loop; simpl; rewrite ?Hdown). done. }
  by split.
Qed.

Lemma connectToMongo_unreachable_witness :
  attempts (connectToMongo sample_host) = [1; 2; 3; 4]%nat.
Proof.
  refine (proj1 (proj2 (connectToMongo_unreachable sample_host _))).
  intros k. reflexivity.
Defined.

(** Whatever the database answers, [connectToMongo] stops at the first
    call that succeeds and makes at most four calls, numbered from 1,
    with the delays 1000, 2000 and 4000 ms between them. *)
Theorem connectToMongo_attempts (h : host) :
  exists n : nat,
    (1 <= n <= 4)%nat /\
    attempts (connectToMongo h) = seq 1 n /\
    delays (connectToMongo h) = take (n - 1) [1000; 2000; 4000] /\
    (forall k : nat, (1 <= k < n)%nat -> mongoose_connect h k = false) /\
    (mongoose_connect h n = true \/ n = 4%nat).
Proof.
  unfold connectToMongo. simp connect_loop. simpl.
  destruct (mongoose_connect h 1) eqn:H1.
  { exists 1%nat. split; [lia|]. split; [done|]. split; [done|].
    split; [intros k Hk; lia|by left]. }
  simp connect_loop. simpl. destruct (mongoose_connect h 2) eqn:H2.
  { exists 2%nat. split; [lia|]. split; [done|]. split; [done|].
    split; [|by left]. intros k Hk. by assert (k = 1%nat) as -> by lia. }
  simp connect_loop. simpl. destruct (mongoose_connect h 3) eqn:H3.
  { exists 3%nat. split; [lia|]. split; [done|]. split; [done|].
    split; [|by left]. intros k Hk.
    assert (k = 1 \/ k = 2)%nat as [-> | ->] by lia; done. }
  simp connect_loop. simpl.
  exists 4%nat. split; [lia|].
  split; [by destruct (mongoose_connect h 4)|].
  split; [by destruct (mongoose_connect h 4)|].
  split; [|by right]. intros k Hk.
  assert (k = 1 \/ k = 2 \/ k = 3)%nat as [-> | [-> | ->]] by lia; done.
Qed.

End ConnectionAttempts.

(* ================================================================== *)
(** ** Deleting, then reading, along a run *)
(* ================================================================== *)

Section DeleteThenGetRun.
Import Server Sample Props.
Variable h : host.

Lemma ids_given_unique (st : state) (ns : list N) (id : string) :
  ids_given st ns -> id_unique id (inMemoryTasks st).
Proof.
  intros (Hids & Hnodup & _) i j t1 t2 Hi Hj H1 H2.
  destruct (Forall2_lookup_l _ _ _ _ _ Hids Hi) as (n1 & Hn1 & tm1 & Hid1).
  destruct (Forall2_lookup_l _ _ _ _ _ Hids Hj) as (n2 & Hn2 & tm2 & Hid2).
  unfold has_id in H1, H2. rewrite Hid1 in H1. rewrite Hid2 in H2.
  apply String.eqb_eq in H1, H2.
  assert (n1 = n2) as <-.
  { apply (fallback_id_counter tm1 tm2). by rewrite H1, H2. }
  by eapply NoDup_lookup.
Qed.

Lemma update_payload_id (b : gmap string json) (st : state) :
  update_payload h b st !! "_id" = VJson <$> b !! "_id".
Proof. unfold update_payload. by rewrite lookup_insert_ne, lookup_fmap. Qed.

(** Every transition keeps the ids of the fallback as they were given,
    as long as the body of an update carries no [_id]. *)
Lemma transition_ids_given (e : event) (r : option response) (st st' : state)
  (ns : list N) :
  keeps_id e -> transition h st e r st' -> ids_given st ns ->
  exists ns', ids_given st' ns'.
Proof.
  intros He Ht Hst. pose proof Hst as (Hids & Hnodup & Hpassed).
  destruct Ht; try (by exists ns).
  - (* a number is used up *)
    exists ns. split; [done|]. split; [done|]. simpl.
    eapply Forall_impl; [exact Hpassed|]. intros n. simpl. lia.
  - (* a task is pushed *)
    exists (ns ++ [inMemoryIdCounter st]). split; [|split]; simpl.
    + apply Forall2_app; [done|]. constructor; [|constructor].
      by exists (Date_now h (clock_reads st)).
    + apply NoDup_app. split; [done|]. split; [|apply NoDup_singleton].
      intros n Hn ->%list_elem_of_singleton.
      apply (proj1 (Forall_forall _ _) Hpassed) in Hn. lia.
    + apply Forall_app. split.
      * eapply Forall_impl; [exact Hpassed|]. intros n. simpl. lia.
      * constructor; [lia|constructor].
  - (* a task is merged with a payload *)
    exists ns. split; [|done]. simpl.
    match goal with Ht : inMemoryTasks st !! i = Some t |- _ =>
      destruct (Forall2_lookup_l _ _ _ _ _ Hids Ht) as (n & Hn & tm & Hid) end.
    rewrite <- (list_insert_id ns i n Hn). apply Forall2_insert; [done|].
    exists tm. rewrite lookup_union_r; [done|].
    by rewrite update_payload_id, He.
  - (* a task is spliced out *)
    exists (delete i ns). split; [|split]; simpl.
    + by apply Forall2_delete.
    + eapply sublist_NoDup; [exact Hnodup|]. apply sublist_delete.
    + by apply Forall_delete.
Qed.

Lemma run_ids_given (es : list event) (st : state) (ns : list N) :
  Forall keeps_id es -> ids_given st ns ->
  exists ns', ids_given (snd (run h es st)) ns'.
Proof.
  intros Hes. revert st ns.
  induction Hes as [|e es He Hes IH]; intros st ns Hst.
  - rewrite run_nil. by exists ns.
  - rewrite run_cons. simpl.
    destruct (transition_ids_given e _ st _ ns He (step_transition h e st) Hst)
      as [ns1 Hst1].
    by apply (IH _ ns1).
Qed.

(** Without an update that sets an [_id], deleting and then reading
    works.  Take any sequence of events since the start of the server
    in which no update carries an [_id] in its body.  After a delete
    that succeeded, reading the id answers "Task not found" (404), and
    the list that follows, unless its comparator throws, holds no task
    with the id, whichever backend is active. *)
Lemma delete_then_get_not_found (es : list event) (id : string) :
  Forall keeps_id es ->
  let st := snd (run h es init) in
  status (fst (delete_task h id st)) = 200 ->
  let st' := snd (delete_task h id st) in
  fst (get_task h id st') = not_found /\
  match sent (fst (get_tasks h st')) with
  | Tasks ts => id_absent id ts
  | Docs ds => forall k, castObjectId h (JStr id) = Some k -> k ∉ (fst <$> ds)
  | ErrorMessage e => e = TypeError
  | _ => False
  end.
Proof.
  intros Hes st Hok.
  destruct (run_ids_given es init [] Hes) as [ns Hns].
  { split; [constructor|]. split; constructor. }
  apply delete_then_get_unique; [done|]. right. by eapply ids_given_unique.
Qed.

End DeleteThenGetRun.

Section DeleteThenGetExamples.
Import Server Sample Props.

(** C9 fails on the fallback.  The update handler of the fallback
    merges the whole body over the stored task, [_id] included: an
    update of the second task whose body carries the [_id] of the first
    is answered with 200 and leaves two tasks with that id.  The delete
    of the id then succeeds and removes the first of them only, and the
    read that follows still finds a task, the second, instead of
    answering 404.  On the database an update whose body carries the
    [_id] of another document is refused with status 400, and the
    collection stays as it was. *)
Theorem delete_then_get_finds_namesake :
  let rs := fst (run sample_host
                   [POST_tasks milk; POST_tasks bread;
                    PUT_task "1700000000003-2" takeover;
                    DELETE_task "1700000000000-1";
                    GET_task "1700000000000-1"] init) in
  let db := snd (run sample_host
                   [Connection 1; POST_tasks milk; POST_tasks bread] init) in
  status <$> rs = [201; 201; 200; 200; 200] /\
  field "text" <$> last rs = Some (Some (VJson (JStr "bread"))) /\
  status <$> last rs <> Some 404 /\
  fst (put_task sample_host "650000000000000000000001" usurp db)
  = Response 400 (ErrorMessage (ImmutableField "_id")) /\
  collection (snd (put_task sample_host "650000000000000000000001" usurp db))
  = collection db.
Proof.
  split; [vm_compute; reflexivity|]. split; [vm_compute; reflexivity|].
  split; [vm_compute; discriminate|].
  split; vm_compute; reflexivity.
Qed.

End DeleteThenGetExamples.

(* ================================================================== *)
(** ** The text of the stored documents *)
(* ================================================================== *)

Section StoredText.
Import Server Sample Props.
Variable h : host.

Lemma castUpdate_text (p : gmap string value) (st : state) (c : changes) :
  fst (castUpdate h p st) = Returned c ->
  exists t0 : option (option string),
    set_text c = fmap (M:=option) (fmap (M:=option) trim) t0.
Proof.
  unfold castUpdate. intros H.
  apply bind_returned in H as (i & st1 & _ & H).
  apply bind_returned in H as (t & st2 & _ & H).
  apply bind_returned in H as (co & st3 & _ & H).
  apply bind_returned in H as (cr & st4 & _ & H).
  apply bind_returned in H as (du & st5 & _ & H).
  apply bind_returned in H as (po & st6 & _ & H).
  injection H as <-. by exists t.
Qed.

(** A text that an accepted update sets is not blank. *)
Lemma prepare_update_text (id : string) (p : gmap string value) (st : state)
  k c upd (t : option string) :
  fst (prepare_update h id p st) = Returned (k, c, upd) ->
  set_text c = Some t -> exists s, t = Some s /\ whitespace_only s = false.
Proof.
  unfold prepare_update. intros H Ht.
  apply bind_returned in H as (k0 & st1 & _ & H).
  apply bind_returned in H as (c0 & st2 & Hc & H).
  assert (fst (castUpdate h p st1) = Returned c0) as Hc' by by rewrite Hc.
  apply castUpdate_text in Hc' as [t0 Ht0].
  apply bind_returned in H as (u0 & st3 & _ & H).
  apply bind_returned in H as ([] & st4 & _ & H).
  apply bind_returned in H as ([] & st5 & Hv & H).
  injection H as <- <- <-.
  unfold runValidators in Hv. rewrite Ht in Hv. rewrite Ht in Ht0.
  destruct t0 as [[s0|]|]; simplify_eq/=.
  exists (trim s0). split; [done|].
  unfold required_string in Hv.
  rewrite whitespace_only_trim. rewrite eqb_trim_empty in Hv.
  by destruct (whitespace_only s0).
Qed.

Lemma transition_texts_filled (e : event) (r : option response) (st st' : state) :
  plain_update e -> transition h st e r st' -> texts_filled st -> texts_filled st'.
Proof.
  unfold texts_filled. intros He Ht Hst. destruct Ht; simpl; try done.
  - apply map_Forall_insert_2; [|done]. simpl.
    exists (trim (trim s)). split; [done|].
    match goal with Hb : text_accepted b s |- _ =>
      apply text_accepted_filled in Hb end.
    by rewrite !whitespace_only_trim.
  - match goal with Ho : operated _ _ _ = inr _ |- _ =>
      rewrite (operated_plain h b st _ He) in Ho; injection Ho as <- end.
    apply map_Forall_insert_2; [|done]. simpl.
    destruct (set_text c) as [t|] eqn:Hset; simpl.
    + by eapply prepare_update_text.
    + by eapply Hst.
  - by apply map_Forall_delete.
Qed.

(** The documents of the database never have a blank text, as long as
    no update carries an update operator: the create handler checks the
    text, and the schema checks it on every update that sets it.
    (Operators such as [$min] or [$rename] are not validated, and can
    blank or remove the text.) *)
Theorem durable_text_never_blank (es : list event) :
  Forall plain_update es -> texts_filled (snd (run h es init)).
Proof.
  intros Hes.
  assert (forall st, texts_filled st -> texts_filled (snd (run h es st))) as Hrun.
  { induction Hes as [|e es' He Hes IH]; intros st Hst; [by rewrite run_nil|].
    rewrite run_cons. simpl. apply IH.
    by eapply transition_texts_filled; [|apply step_transition|]. }
  apply Hrun. apply map_Forall_empty.
Qed.

End StoredText.

Section StoredTextExample.
Import Server Sample Props.

Lemma plain_blank : plain blank.
Proof.
  intros key v Hkey. unfold blank in Hkey.
  apply lookup_singleton_Some in Hkey as [<- _]. reflexivity.
Qed.

Lemma durable_text_never_blank_witness :
  texts_filled
    (snd (run sample_host
            [Connection 1; POST_tasks milk;
             PUT_task "650000000000000000000000" blank] init)).
Proof.
  apply (durable_text_never_blank sample_host).
  repeat constructor. exact plain_blank.
Defined.

End StoredTextExample.

(* ================================================================== *)
(** ** Creating, then reading *)
(* ================================================================== *)

Section CreateThenGet.
Import Server Sample Props.
Variable h : host.

Lemma find_app_last {A : Type} (p : A -> bool) (l : list A) (x : A) :
  Forall (fun y => p y = false) l -> p x = true -> find p (l ++ [x]) = Some x.
Proof.
  intros Hl Hx. induction Hl as [|y l Hy Hl IH]; simpl; [by rewrite Hx|].
  by rewrite Hy.
Qed.

Lemma created_task_id (b : gmap string json) (st : state) s v :
  created_task h b st s v !! "_id"
  = Some (VJson (JStr (pretty (Date_now h (clock_reads st)) +:+ "-" +:+
                       pretty (inMemoryIdCounter st)))).
Proof. reflexivity. Qed.

(** No task stored so far has the id the next create will give. *)
Lemma next_id_absent (b : gmap string json) (st : state) (ns : list N) :
  ids_given st ns ->
  id_absent (pretty (Date_now h (clock_reads st)) +:+ "-" +:+
             pretty (inMemoryIdCounter st)) (inMemoryTasks st).
Proof.
  intros (Hids & _ & Hpassed). apply Forall_lookup_2. intros i t Ht.
  destruct (Forall2_lookup_l _ _ _ _ _ Hids Ht) as (n & Hn & tm & Hid).
  unfold has_id. rewrite Hid. apply String.eqb_neq. intros Heq.
  apply fallback_id_counter in Heq. subst n.
  apply (proj1 (Forall_lookup _ _) Hpassed) in Hn. lia.
Qed.

(** Round trip on the fallback.  After any sequence of events in which
    no update carried an [_id], a create call whose text is accepted
    and whose due date can be converted returns a task, and reading the
    id of that task right away returns the same task. *)
Theorem create_then_get (es : list event) (b : gmap string json)
  (s : string) (v : value) :
  Forall keeps_id es ->
  let st := snd (run h es init) in
  text_accepted b s -> dueDate_of_body h (b !! "dueDate") = Some v ->
  readyState st <> 1 ->
  exists (t : gmap string value) (id : string),
    fst (post_tasks h b st) = Response 201 (OneTask t) /\
    t !! "_id" = Some (VJson (JStr id)) /\
    fst (get_task h id (snd (post_tasks h b st))) = Response 200 (OneTask t).
Proof.
  intros Hes st Hb Hv Hmode.
  destruct (run_ids_given h es init [] Hes) as [ns Hns].
  { split; [constructor|]. split; constructor. }
  fold st in Hns. rewrite (post_tasks_fallback h b st s v Hb Hv Hmode). simpl.
  eexists _, _. split; [done|]. split; [apply created_task_id|].
  apply fallback_mode_test in Hmode. unfold get_task. run_handler.
  rewrite Hmode. simpl. rewrite find_app_last; [done| |].
  - by apply (next_id_absent b st ns).
  - unfold has_id. rewrite created_task_id. apply String.eqb_refl.
Qed.

End CreateThenGet.

Section CreateThenGetExample.
Import Server Sample Props.

Lemma create_then_get_witness :
  let st := snd (run sample_host [POST_tasks milk] init) in
  exists (t : gmap string value) (id : string),
    fst (post_tasks sample_host bread st) = Response 201 (OneTask t) /\
    t !! "_id" = Some (VJson (JStr id)) /\
    fst (get_task sample_host id (snd (post_tasks sample_host bread st)))
    = Response 200 (OneTask t).
Proof.
  apply (create_then_get sample_host [POST_tasks milk] bread "bread"
           (VDate (Some 4070908800000))).
  - repeat constructor.
  - by split.
  - reflexivity.
  - discriminate.
Defined.

End CreateThenGetExample.

(* ================================================================== *)
(** ** Each request works on the active backend only *)
(* ================================================================== *)

Section Backends.
Import Server Sample Props.
Variable h : host.

Lemma transition_backends (e : event) (r : option response) (st st' : state) :
  transition h st e r st' ->
  (readyState st = 1 ->
   inMemoryTasks st' = inMemoryTasks st /\
   inMemoryIdCounter st' = inMemoryIdCounter st) /\
  (readyState st <> 1 ->
   collection st' = collection st /\ objectIds st' = objectIds st).
Proof.
  intros Ht. destruct Ht; simpl; split; intros Hm; try done.
Qed.

(** No handler copies a task from one backend to the other.  A request
    that arrives while the database is connected leaves the in-memory
    list and its counter as they were; a request that arrives while it
    is not leaves the collection as it was, and generates no
    ObjectId. *)
Theorem backends_isolated (e : event) (st : state) :
  let st' := snd (step h e st) in
  (readyState st = 1 ->
   inMemoryTasks st' = inMemoryTasks st /\
   inMemoryIdCounter st' = inMemoryIdCounter st) /\
  (readyState st <> 1 ->
   collection st' = collection st /\ objectIds st' = objectIds st).
Proof.
  intros st'. apply (transition_backends e (fst (step h e st))).
  apply step_transition.
Qed.

End Backends.

(* ================================================================== *)
(** ** When the list of the fallback fails *)
(* ================================================================== *)

Section ListThrows.
Import Server Sample Props.
Variable h : host.

Lemma compareTasks_None (a b : gmap string value) :
  compareTasks h a b = None <-> clash h a b = true.
Proof.
  unfold compareTasks, clash, unreadable.
  destruct (Bool.eqb _ _); simpl.
  - destruct (dueTime h (a !! "dueDate")), (dueTime h (b !! "dueDate")); by split.
  - by split.
Qed.

(** Whatever the due dates, the comparator puts no incomplete task
    after a completed one. *)
Lemma listed_after_completed (a b : gmap string value) :
  listed_after h a b = true ->
  truthy (b !! "completed") = true -> truthy (a !! "completed") = true.
Proof.
  unfold listed_after, compareTasks.
  by destruct (truthy (a !! "completed")), (truthy (b !! "completed")).
Qed.

Lemma listed_after_incomplete (a b : gmap string value) :
  listed_after h a b = false ->
  truthy (a !! "completed") = true -> truthy (b !! "completed") = true.
Proof.
  unfold listed_after, compareTasks.
  by destruct (truthy (a !! "completed")), (truthy (b !! "completed")).
Qed.

Lemma Array_sort_grouped (l ts : list (gmap string value)) :
  Array_sort (compareTasks h) l = Some ts ->
  StronglySorted
    (fun a b => truthy (a !! "completed") = true -> truthy (b !! "completed") = true)
    ts.
Proof.
  unfold Array_sort. intros ->%sort_try_Some.
  apply (sort_stable_sorted _ (fun _ => True)).
  - intros x y _ _. apply listed_after_completed.
  - intros x y _ _. apply listed_after_incomplete.
  - intros x y z _ _ _ Hxy Hyz Hx. auto.
  - by apply Forall_forall.
Qed.

(** Two tasks alike in [completed], one with a due date that can be
    read and one without, make a pair on which the comparator
    throws. *)
Lemma clash_mixed (l : list (gmap string value)) (a b : gmap string value) :
  a ∈ l -> b ∈ l ->
  truthy (a !! "completed") = truthy (b !! "completed") ->
  unreadable h a = false -> unreadable h b = true ->
  some_pair (clash h) l = true.
Proof.
  induction l as [|z l IH]; [by intros ?%elem_of_nil|].
  intros Ha Hb Hg Hra Hrb. simpl. apply orb_true_iff.
  apply elem_of_cons in Ha as [Ea|Ha]; apply elem_of_cons in Hb as [Eb|Hb].
  - congruence.
  - left. apply existsb_exists. exists b. split; [by apply list_elem_of_In|].
    unfold clash. rewrite <- Ea, Hg, Hrb, orb_true_r, andb_true_r.
    by destruct (truthy (b !! "completed")).
  - left. apply existsb_exists. exists a. split; [by apply list_elem_of_In|].
    unfold clash. rewrite <- Eb, Hg, Hrb.
    by destruct (truthy (b !! "completed")).
  - right. by apply IH.
Qed.

(** Inserting a task in a sorted list throws exactly when the
    comparator throws on the task and some task of the list. *)
Lemma insert_try_throws (x : gmap string value) (ts : list (gmap string value)) :
  StronglySorted
    (fun a b => truthy (a !! "completed") = true -> truthy (b !! "completed") = true)
    ts ->
  (forall a b, a ∈ ts -> b ∈ ts ->
     truthy (a !! "completed") = truthy (b !! "completed") ->
     unreadable h a = false -> unreadable h b = false) ->
  insert_try (fun a b => xpositive <$> compareTasks h a b) x ts = None <->
  existsb (clash h x) ts = true.
Proof.
  induction ts as [|y ts IH]; intros Hsorted Hsteady; simpl; [done|].
  apply StronglySorted_inv in Hsorted as [Hts Hy].
  assert (forall a b, a ∈ ts -> b ∈ ts ->
            truthy (a !! "completed") = truthy (b !! "completed") ->
            unreadable h a = false -> unreadable h b = false) as Hsteady'.
  { intros a b Ha Hb. apply Hsteady; by right. }
  specialize (IH Hts Hsteady').
  destruct (compareTasks h x y) as [v|] eqn:Hc; simpl.
  2:{ apply compareTasks_None in Hc. by rewrite Hc. }
  assert (clash h x y = false) as Hxy.
  { destruct (clash h x y) eqn:E; [|done]. apply compareTasks_None in E. congruence. }
  rewrite Hxy. simpl. destruct (xpositive v) eqn:Hv.
  { rewrite <- IH. by destruct (insert_try _ x ts). }
  split; [done|]. intros (z & Hz%list_elem_of_In & Hxz)%existsb_exists. exfalso.
  unfold clash in Hxy, Hxz. unfold compareTasks, unreadable in *.
  apply andb_true_iff in Hxz as [Hg Hr]. apply Bool.eqb_prop in Hg.
  destruct (Bool.eqb (truthy (x !! "completed")) (truthy (y !! "completed"))) eqn:Hgy.
  - apply Bool.eqb_prop in Hgy. simpl in *.
    destruct (dueTime h (x !! "dueDate")) as [dx|]; [|done].
    destruct (dueTime h (y !! "dueDate")) as [dy|] eqn:Hdy; [|done].
    simpl in Hr.
    assert (unreadable h z = false) as Hrz.
    { apply (Hsteady y z); [by left|by right|congruence|].
      unfold unreadable. by rewrite Hdy. }
    unfold unreadable in Hrz. by destruct (dueTime h (z !! "dueDate")).
  - simpl in Hc. injection Hc as <-.
    destruct (truthy (x !! "completed")) eqn:Hx; [done|].
    destruct (truthy (y !! "completed")) eqn:Hyc; [|done].
    assert (truthy (z !! "completed") = true) as Hzc.
    { by apply (proj1 (Forall_forall _ _) Hy z Hz). }
    congruence.
Qed.

(** The list of the fallback fails exactly when two stored tasks make a
    pair on which the comparator throws.  A sort has to compare every
    task with a task of its group to place it, so that this holds
    whichever pairs the sort of the engine compares. *)
Lemma Array_sort_throws (l : list (gmap string value)) :
  Array_sort (compareTasks h) l = None <-> some_pair (clash h) l = true.
Proof.
  induction l as [|x l IH]; [done|].
  change (Array_sort (compareTasks h) (x :: l))
    with (match Array_sort (compareTasks h) l with
          | Some sorted =>
              insert_try (fun a b => xpositive <$> compareTasks h a b) x sorted
          | None => None
          end).
  simpl. destruct (Array_sort (compareTasks h) l) as [ts|] eqn:Hts.
  - assert (some_pair (clash h) l = false) as Hcalm.
    { destruct (some_pair (clash h) l); [|done]. by pose proof (proj2 IH eq_refl). }
    rewrite Hcalm, orb_false_r.
    pose proof (Array_sort_perm _ _ _ Hts) as Hperm.
    rewrite <- (existsb_Permutation _ _ _ Hperm).
    apply insert_try_throws; [by eapply Array_sort_grouped|].
    intros a b Ha Hb Hg Hra. destruct (unreadable h b) eqn:Hrb; [|done].
    rewrite Hperm in Ha, Hb.
    pose proof (clash_mixed l a b Ha Hb Hg Hra Hrb). congruence.
  - rewrite (proj1 IH eq_refl). by rewrite orb_true_r.
Qed.

Lemma get_tasks_fallback_status (st : state) :
  readyState st <> 1 ->
  status (fst (get_tasks h st))
  = if some_pair (clash h) (inMemoryTasks st) then 500 else 200.
Proof.
  intros Hmode. rewrite (get_tasks_fallback h st Hmode).
  destruct (Array_sort _ _) as [ts|] eqn:Hts.
  - destruct (some_pair (clash h) (inMemoryTasks st)) eqn:Hc; [|done].
    apply Array_sort_throws in Hc. congruence.
  - apply Array_sort_throws in Hts. by rewrite Hts.
Qed.

End ListThrows.

(* ================================================================== *)
(** ** The status of the answers *)
(* ================================================================== *)

Section Answers.
Import Server Sample Props.
Variable h : host.

Lemma findIndex_existsb {A : Type} (p : A -> bool) (l : list A) :
  existsb p l = match findIndex p l with Some _ => true | None => false end.
Proof.
  induction l as [|x l IH]; simpl; [done|].
  destruct (p x); simpl; [done|]. rewrite IH. by destruct (findIndex p l).
Qed.

Lemma find_existsb {A : Type} (p : A -> bool) (l : list A) :
  existsb p l = match find p l with Some _ => true | None => false end.
Proof.
  induction l as [|x l IH]; simpl; [done|]. by destruct (p x).
Qed.

Lemma get_task_fallback (id : string) (st : state) :
  readyState st <> 1 ->
  fst (get_task h id st) =
    match find (has_id id) (inMemoryTasks st) with
    | Some t => Response 200 (OneTask t)
    | None => not_found
    end.
Proof.
  intros Hmode%fallback_mode_test. unfold get_task. run_handler. rewrite Hmode.
  by destruct (find (has_id id) (inMemoryTasks st)).
Qed.

Lemma found_answered (id : string) (st : state) :
  readyState st <> 1 -> existsb (has_id id) (inMemoryTasks st) = true ->
  status (fst (get_task h id st)) = 200 /\
  (forall b, status (fst (put_task h id b st)) = 200) /\
  status (fst (delete_task h id st)) = 200.
Proof.
  intros Hmode Hfound. split; [|split].
  - rewrite find_existsb in Hfound. rewrite get_task_fallback by done.
    by destruct (find (has_id id) (inMemoryTasks st)).
  - intros b. rewrite findIndex_existsb in Hfound.
    rewrite (put_task_fallback h id b st Hmode).
    by destruct (findIndex (has_id id) (inMemoryTasks st)).
  - rewrite findIndex_existsb in Hfound.
    rewrite (delete_task_fallback h id st Hmode).
    by destruct (findIndex (has_id id) (inMemoryTasks st)).
Qed.

(** What a create call on the fallback is answered with. *)
Lemma post_tasks_fallback_status (b : gmap string json) (st : state) :
  readyState st <> 1 ->
  status (fst (post_tasks h b st))
  = if text_missing b then 400 else if converts h b then 201 else 400.
Proof.
  intros Hmode. unfold converts.
  destruct (text_cases b) as [Hb|[Hb|[s Hb]]].
  - by rewrite (post_tasks_rejected h b st Hb), Hb.
  - rewrite (post_tasks_unreadable h b st Hb), Hb. simpl.
    by destruct (text_missing b).
  - pose proof Hb as [Hm Hs]. rewrite Hm, Hs.
    destruct (dueDate_of_body h (b !! "dueDate")) as [v|] eqn:Hv.
    + by rewrite (post_tasks_fallback h b st s v Hb Hv Hmode).
    + by rewrite (post_tasks_fallback_thrown h b st s Hb Hv Hmode).
Qed.

(** On the fallback the status of every answer is decided by tests on
    the body, the id and the stored tasks.  The list is answered with
    500 when two stored tasks that are alike in [completed] include one
    whose due date cannot be converted (the comparator throws on them),
    and with 200 otherwise.  Reading, updating and deleting a task are
    answered with 200 when a stored task has the id and with 404 when
    none has; no update is answered with 400.  Creating a task is
    answered with 400 when the text is missing, and also when
    [String(text)] or [new Date(dueDate)] throws, and with 201
    otherwise. *)
Theorem fallback_status (e : event) (st : state) :
  readyState st <> 1 ->
  status <$> fst (step h e st) =
    match e with
    | GET_tasks =>
        Some (if some_pair (clash h) (inMemoryTasks st) then 500 else 200)
    | GET_task id | PUT_task id _ | DELETE_task id =>
        Some (if existsb (has_id id) (inMemoryTasks st) then 200 else 404)
    | POST_tasks b =>
        Some (if text_missing b then 400 else if converts h b then 201 else 400)
    | Connection _ => None
    end.
Proof.
  intros Hmode. destruct e as [|id|b|id b|id|r]; simpl.
  - destruct (get_tasks h st) as [r st'] eqn:Hr. simpl.
    replace r with (fst (get_tasks h st)) by by rewrite Hr.
    by rewrite get_tasks_fallback_status.
  - destruct (get_task h id st) as [r st'] eqn:Hr. simpl.
    replace r with (fst (get_task h id st)) by by rewrite Hr.
    rewrite find_existsb, get_task_fallback by done.
    by destruct (find (has_id id) (inMemoryTasks st)).
  - destruct (post_tasks h b st) as [r st'] eqn:Hr. simpl.
    replace r with (fst (post_tasks h b st)) by by rewrite Hr.
    by rewrite post_tasks_fallback_status.
  - rewrite (put_task_fallback h id b st Hmode), findIndex_existsb.
    by destruct (findIndex (has_id id) (inMemoryTasks st)).
  - rewrite (delete_task_fallback h id st Hmode), findIndex_existsb.
    by destruct (findIndex (has_id id) (inMemoryTasks st)).
  - done.
Qed.

(** On the database an id that is not an ObjectId is an error of the
    cast, which the handlers report with different statuses: reading
    and deleting answer 500, updating answers 400.  In each case the
    message is the one of the cast error and nothing is stored. *)
Theorem durable_malformed_id (id : string) (b : gmap string json) (st : state) :
  readyState st = 1 -> castObjectId h (JStr id) = None ->
  get_task h id st = (Response 500 (ErrorMessage (CastError "_id")), st) /\
  delete_task h id st = (Response 500 (ErrorMessage (CastError "_id")), st) /\
  fst (put_task h id b st) = Response 400 (ErrorMessage (CastError "_id")) /\
  collection (snd (put_task h id b st)) = collection st /\
  inMemoryTasks (snd (put_task h id b st)) = inMemoryTasks st.
Proof.
  intros Hmode Hid. split; [|split].
  - pose proof (get_task_durable h id st Hmode) as Hr.
    pose proof (get_task_state h id st) as Hs. rewrite Hid in Hr.
    destruct (get_task h id st) as [r st']. simpl in *. by subst.
  - by rewrite (delete_task_durable h id st Hmode), Hid.
  - rewrite (put_task_durable h id b st Hmode).
    assert (fst (prepare_update h id (update_payload h b st) st)
            = Thrown (CastError "_id")) as ->; [|done].
    unfold prepare_update, cast_id. by rewrite Hid.
Qed.

End Answers.

Section AnswersExamples.
Import Server Sample Props.

Lemma fallback_status_witness :
  status <$> fst (step sample_host (DELETE_task "1700000000000-1") one_task)
  = Some (if existsb (has_id "1700000000000-1") (inMemoryTasks one_task)
          then 200 else 404).
Proof.
  apply (fallback_status sample_host (DELETE_task "1700000000000-1") one_task).
  discriminate.
Defined.

Lemma durable_malformed_id_witness :
  get_task sample_host "abc" (set_readyState 1 init)
  = (Response 500 (ErrorMessage (CastError "_id")), set_readyState 1 init) /\
  delete_task sample_host "abc" (set_readyState 1 init)
  = (Response 500 (ErrorMessage (CastError "_id")), set_readyState 1 init) /\
  fst (put_task sample_host "abc" blank (set_readyState 1 init))
  = Response 400 (ErrorMessage (CastError "_id")) /\
  collection (snd (put_task sample_host "abc" blank (set_readyState 1 init)))
  = collection (set_readyState 1 init) /\
  inMemoryTasks (snd (put_task sample_host "abc" blank (set_readyState 1 init)))
  = inMemoryTasks (set_readyState 1 init).
Proof.
  apply (durable_malformed_id sample_host "abc" blank (set_readyState 1 init));
    reflexivity.
Defined.

End AnswersExamples.

(* ================================================================== *)
(** ** What an update does *)
(* ================================================================== *)

Section UpdateEffect.
Import Server Sample Props.
Variable h : host.

(** An update on the fallback of an id that a stored task has.  The
    answer is 200 with the task as it is stored afterwards, at the
    first index whose task has the id.  That task has the properties of
    the body, with [updatedAt] set to the reading of the clock, and
    keeps every other property it had.  The list keeps its length and
    every other task; the counter and the collection of the database
    stay as they were. *)
Theorem update_fallback_merges (id : string) (b : gmap string json) (st : state)
  (i : nat) :
  readyState st <> 1 ->
  findIndex (has_id id) (inMemoryTasks st) = Some i ->
  let st' := snd (put_task h id b st) in
  exists t t' : gmap string value,
    inMemoryTasks st !! i = Some t /\
    fst (put_task h id b st) = Response 200 (OneTask t') /\
    inMemoryTasks st' !! i = Some t' /\
    length (inMemoryTasks st') = length (inMemoryTasks st) /\
    (forall j : nat, j <> i -> inMemoryTasks st' !! j = inMemoryTasks st !! j) /\
    t' !! "updatedAt" = Some (VDate (Some (Date_now h (clock_reads st)))) /\
    (forall k : string, k <> "updatedAt" ->
       t' !! k = match b !! k with Some j => Some (VJson j) | None => t !! k end) /\
    inMemoryIdCounter st' = inMemoryIdCounter st /\
    collection st' = collection st.
Proof.
  intros Hmode Hi st'. unfold st'.
  rewrite (put_task_fallback h id b st Hmode), Hi.
  destruct (findIndex_Some _ _ _ Hi) as [(t & Ht & _) _]. rewrite Ht. simpl.
  exists t, (update_payload h b st ∪ t).
  split; [done|]. split; [done|]. split.
  { apply list_lookup_insert_eq. by eapply lookup_lt_Some. }
  split; [by rewrite length_insert|]. split.
  { intros j Hj. by apply list_lookup_insert_ne. }
  split.
  { apply lookup_union_Some_l. unfold update_payload. by rewrite lookup_insert_eq. }
  split; [|done]. intros k Hk.
  rewrite lookup_union. unfold update_payload.
  rewrite lookup_insert_ne, lookup_fmap by done.
  destruct (b !! k) as [j|]; simpl.
  - by destruct (t !! k).
  - by destruct (t !! k).
Qed.

Lemma find_insert_first {A : Type} (p : A -> bool) (l : list A) (i : nat) (x : A) :
  findIndex p l = Some i -> p x = true -> find p (<[i := x]> l) = Some x.
Proof.
  revert i. induction l as [|y l IH]; intros i; simpl; [done|].
  destruct (p y) eqn:Hy.
  - intros [= <-] Hx. simpl. by rewrite Hx.
  - destruct (findIndex p l) as [k|]; simpl; [|done].
    intros [= <-] Hx. simpl. rewrite Hy. by apply IH.
Qed.

(** Round trip of an update.  Reading a task right after an update of
    it that succeeded gives the answer the update gave, on the database
    and, when the body carries no [_id], on the fallback. *)
Theorem update_then_get (id : string) (b : gmap string json) (st : state) :
  (readyState st <> 1 -> b !! "_id" = None) ->
  status (fst (put_task h id b st)) = 200 ->
  fst (get_task h id (snd (put_task h id b st))) = fst (put_task h id b st).
Proof.
  intros Hb. destruct (decide (readyState st = 1)) as [Hmode|Hmode].
  - rewrite (put_task_durable h id b st Hmode).
    destruct (fst (prepare_update _ _ _ _)) as [[[k c] upd]|e] eqn:Hp; [|done].
    apply prepare_update_id in Hp.
    destruct (collection st !! k) as [d|]; [|done].
    destruct (match set_id c with Some k' => (k' =? k)%N | None => true end); [|done].
    destruct (operated _ _ _) as [e|d0]; [done|].
    simpl. intros _. rewrite get_task_durable by done.
    simpl. by rewrite Hp, lookup_insert_eq.
  - specialize (Hb Hmode). rewrite (put_task_fallback h id b st Hmode).
    destruct (findIndex _ _) as [i|] eqn:Hi; [|done]. simpl. intros _.
    destruct (findIndex_Some _ _ _ Hi) as [(t & Ht & Hid) _]. rewrite Ht. simpl.
    rewrite get_task_fallback by done. simpl.
    rewrite (find_insert_first _ _ _ _ Hi); [done|].
    unfold has_id in *. rewrite lookup_union_r; [done|].
    by rewrite update_payload_id, Hb.
Qed.

(** The server stamps every update.  The task that a successful update
    returns is the stored one, and its [updatedAt] is the reading of
    the clock the handler took, whatever [updatedAt] the body
    carried. *)
Theorem update_stamps_updatedAt (id : string) (b : gmap string json) (st : state) :
  status (fst (put_task h id b st)) = 200 ->
  let st' := snd (put_task h id b st) in
  match sent (fst (put_task h id b st)) with
  | OneTask t =>
      t !! "updatedAt" = Some (VDate (Some (Date_now h (clock_reads st)))) /\
      t ∈ inMemoryTasks st'
  | OneDoc k d =>
      updatedAt d = Some (Date_now h (clock_reads st)) /\
      collection st' !! k = Some d
  | _ => False
  end.
Proof.
  destruct (decide (readyState st = 1)) as [Hmode|Hmode].
  - rewrite (put_task_durable h id b st Hmode).
    destruct (fst (prepare_update _ _ _ _)) as [[[k c] upd]|e] eqn:Hp; [|done].
    apply prepare_update_returned in Hp as (_ & _ & Hupd & _).
    specialize (Hupd (Date_now h (clock_reads st))).
    unfold update_payload in Hupd. rewrite lookup_insert_eq in Hupd.
    specialize (Hupd eq_refl). subst upd.
    destruct (collection st !! k) as [d|]; [|done].
    destruct (match set_id c with Some k' => (k' =? k)%N | None => true end); [|done].
    destruct (operated _ _ _) as [e|d0]; [done|].
    simpl. intros _. split; [done|]. by rewrite lookup_insert_eq.
  - rewrite (put_task_fallback h id b st Hmode).
    destruct (findIndex _ _) as [i|] eqn:Hi; [|done]. simpl. intros _.
    destruct (findIndex_Some _ _ _ Hi) as [(t & Ht & Hid) _]. rewrite Ht. simpl.
    split.
    + apply lookup_union_Some_l. unfold update_payload. by rewrite lookup_insert_eq.
    + eapply list_elem_of_lookup_2. apply list_lookup_insert_eq.
      by eapply lookup_lt_Some.
Qed.

End UpdateEffect.

Section UpdateEffectExamples.
Import Server Sample Props.

Lemma update_fallback_merges_witness :
  let st' := snd (put_task sample_host "1700000000000-1" postdate one_task) in
  exists t t' : gmap string value,
    inMemoryTasks one_task !! 0%nat = Some t /\
    fst (put_task sample_host "1700000000000-1" postdate one_task)
    = Response 200 (OneTask t') /\
    inMemoryTasks st' !! 0%nat = Some t' /\
    length (inMemoryTasks st') = length (inMemoryTasks one_task) /\
    (forall j : nat, j <> 0%nat ->
       inMemoryTasks st' !! j = inMemoryTasks one_task !! j) /\
    t' !! "updatedAt"
    = Some (VDate (Some (Date_now sample_host (clock_reads one_task)))) /\
    (forall k : string, k <> "updatedAt" ->
       t' !! k = match postdate !! k with
                 | Some j => Some (VJson j)
                 | None => t !! k
                 end) /\
    inMemoryIdCounter st' = inMemoryIdCounter one_task /\
    collection st' = collection one_task.
Proof.
  apply (update_fallback_merges sample_host "1700000000000-1" postdate one_task 0).
  - discriminate.
  - reflexivity.
Defined.

Lemma update_then_get_witness :
  fst (get_task sample_host "1700000000000-1"
         (snd (put_task sample_host "1700000000000-1" blank one_task)))
  = fst (put_task sample_host "1700000000000-1" blank one_task).
Proof.
  apply (update_then_get sample_host "1700000000000-1" blank one_task).
  - intros _. reflexivity.
  - vm_compute. reflexivity.
Defined.

Lemma update_stamps_updatedAt_witness :
  let st' := snd (put_task sample_host "1700000000000-1" blank one_task) in
  match sent (fst (put_task sample_host "1700000000000-1" blank one_task)) with
  | OneTask t =>
      t !! "updatedAt"
      = Some (VDate (Some (Date_now sample_host (clock_reads one_task)))) /\
      t ∈ inMemoryTasks st'
  | OneDoc k d =>
      updatedAt d = Some (Date_now sample_host (clock_reads one_task)) /\
      collection st' !! k = Some d
  | _ => False
  end.
Proof.
  apply (update_stamps_updatedAt sample_host "1700000000000-1" blank one_task).
  vm_compute. reflexivity.
Defined.

End UpdateEffectExamples.

(* ================================================================== *)
(** ** The numbers in the ids of the fallback *)
(* ================================================================== *)

Section Numbering.
Import Server Sample Props Views.
Variable h : host.

(** A transition that creates a task on the fallback gives it the
    number of the counter and moves the counter on; any other moves the
    counter only when it is a create call whose [dueDate] cannot be
    converted. *)
Lemma transition_numbered (e : event) (r : option response) (st st' : state) :
  transition h st e r st' ->
  match r ≫= fallback_created with
  | Some s =>
      (exists t : Z, s = pretty t +:+ "-" +:+ pretty (inMemoryIdCounter st)) /\
      inMemoryIdCounter st' = N.succ (inMemoryIdCounter st)
  | None =>
      (inMemoryIdCounter st <= inMemoryIdCounter st')%N /\
      (dates_convert h e -> inMemoryIdCounter st' = inMemoryIdCounter st)
  end.
Proof.
  intros Ht. unfold fallback_created. inversion Ht; subst; simpl; try done.
  - rewrite created_id_None by apply get_tasks_status. by split.
  - rewrite created_id_None by apply get_task_status. by split.
  - split; [lia|]. intros [v Hv]. congruence.
  - change (created_id (Response 201 (OneTask (created_task h b st s v))))
      with (Some (inl (pretty (Date_now h (clock_reads st)) +:+ "-" +:+
                       pretty (inMemoryIdCounter st)) : string + N)).
    split; [by eexists|done].
  - rewrite created_id_None; [done|]. lia.
  - rewrite created_id_None; [done|]. lia.
Qed.

Lemma run_numbered (es : list event) (st : state) :
  exists ps : list (Z * N),
    omap fallback_created (fst (run h es st))
    = (fun p => pretty p.1 +:+ "-" +:+ pretty p.2) <$> ps /\
    StronglySorted N.lt ps.*2 /\
    Forall (fun n => inMemoryIdCounter st <= n
                     < inMemoryIdCounter (snd (run h es st)))%N ps.*2 /\
    (inMemoryIdCounter st <= inMemoryIdCounter (snd (run h es st)))%N /\
    (Forall (dates_convert h) es ->
     ps.*2 = (fun i => inMemoryIdCounter st + N.of_nat i)%N <$> seq 0 (length ps) /\
     inMemoryIdCounter (snd (run h es st))
     = (inMemoryIdCounter st + N.of_nat (length ps))%N).
Proof.
  revert st. induction es as [|e es IH]; intros st.
  { exists []. rewrite run_nil. simpl. split; [done|]. split; [constructor|].
    split; [constructor|]. split; [lia|]. intros _. split; [done|lia]. }
  rewrite run_cons. simpl.
  pose proof (transition_numbered _ _ _ _ (step_transition h e st)) as Hc.
  destruct (IH (snd (step h e st))) as (ps & Hids & Hsorted & Hrange & Hle & Hall).
  assert (omap fallback_created
            (match fst (step h e st) with
             | Some r => r :: fst (run h es (snd (step h e st)))
             | None => fst (run h es (snd (step h e st)))
             end)
          = match fst (step h e st) ≫= fallback_created with
            | Some s => s :: omap fallback_created (fst (run h es (snd (step h e st))))
            | None => omap fallback_created (fst (run h es (snd (step h e st))))
            end) as Hom.
  { destruct (fst (step h e st)) as [r|]; [|done]. simpl.
    change (omap fallback_created (r :: ?l))
      with (match fallback_created r with
            | Some s => s :: omap fallback_created l
            | None => omap fallback_created l
            end).
    by destruct (fallback_created r). }
  destruct (fst (step h e st) ≫= fallback_created) as [s|].
  - destruct Hc as [[t ->] Hnext]. exists ((t, inMemoryIdCounter st) :: ps).
    split; [by rewrite Hom, Hids|]. split.
    { simpl. constructor; [done|]. eapply Forall_impl; [exact Hrange|].
      simpl. intros n Hn. lia. }
    split.
    { simpl. constructor; [lia|]. eapply Forall_impl; [exact Hrange|].
      simpl. intros n Hn. lia. }
    split; [lia|]. intros [_ Hes]%Forall_cons. destruct (Hall Hes) as [Hns Hcount].
    split; [|simpl; lia].
    change (((t, inMemoryIdCounter st) :: ps).*2) with (inMemoryIdCounter st :: ps.*2).
    change (seq 0 (length ((t, inMemoryIdCounter st) :: ps)))
      with (0%nat :: seq 1 (length ps)).
    rewrite Hns, <- fmap_S_seq, fmap_cons, <- list_fmap_compose.
    f_equal; [lia|]. apply list_fmap_ext. intros i n _. simpl. lia.
  - destruct Hc as [Hnext Hsame]. exists ps. split; [by rewrite Hom|].
    split; [done|]. split.
    { eapply Forall_impl; [exact Hrange|]. simpl. intros n Hn. lia. }
    split; [lia|]. intros [He Hes]%Forall_cons. destruct (Hall Hes) as [Hns Hcount].
    rewrite <- (Hsame He). by split.
Qed.

(** The fallback numbers its tasks in the order of their creation.
    Along every sequence of events since the start of the server, the
    id of every task created on the fallback is a reading of the clock,
    a dash and a number; the numbers start at 1 or above, grow from
    each task created to the next, and stay below the counter.  A
    create call whose [dueDate] cannot be converted is answered with
    400 after the handler took a number, so that the number goes to no
    task.  When every create call has a [dueDate] that can be
    converted, the k-th task created has the number k, and the counter
    is one more than the number of tasks created so far. *)
Theorem fallback_ids_numbered (es : list event) :
  exists ps : list (Z * N),
    omap fallback_created (fst (run h es init))
    = (fun p => pretty p.1 +:+ "-" +:+ pretty p.2) <$> ps /\
    StronglySorted N.lt ps.*2 /\
    Forall (fun n => 1 <= n < inMemoryIdCounter (snd (run h es init)))%N ps.*2 /\
    (Forall (dates_convert h) es ->
     ps.*2 = (fun i => N.of_nat (S i)) <$> seq 0 (length ps) /\
     inMemoryIdCounter (snd (run h es init)) = N.of_nat (S (length ps))).
Proof.
  destruct (run_numbered es init) as (ps & Hids & Hsorted & Hrange & _ & Hall).
  exists ps. split; [done|]. split; [done|]. split; [done|]. intros Hes.
  destruct (Hall Hes) as [Hns Hcount]. split.
  - rewrite Hns. apply list_fmap_ext. intros i n _. simpl. lia.
  - rewrite Hcount. simpl. lia.
Qed.

(** A create call whose [dueDate] cannot be converted uses up a number
    of the fallback: nothing is stored, and the next task created gets
    the number after. *)
Lemma create_thrown_spends (b : gmap string json) (st : state) (s : string) :
  text_accepted b s -> dueDate_of_body h (b !! "dueDate") = None ->
  readyState st <> 1 ->
  fst (post_tasks h b st) = Response 400 (ErrorMessage TypeError) /\
  inMemoryTasks (snd (post_tasks h b st)) = inMemoryTasks st /\
  inMemoryIdCounter (snd (post_tasks h b st)) = N.succ (inMemoryIdCounter st).
Proof.
  intros Hb Hv Hmode. by rewrite (post_tasks_fallback_thrown h b st s Hb Hv Hmode).
Qed.

End Numbering.

Section NumberingExamples.
Import Server Sample Props Views.

Lemma fallback_ids_numbered_witness :
  exists ps : list (Z * N),
    omap fallback_created
      (fst (run sample_host [POST_tasks milk; POST_tasks cheese; POST_tasks bread] init))
    = (fun p => pretty p.1 +:+ "-" +:+ pretty p.2) <$> ps /\
    StronglySorted N.lt ps.*2 /\
    Forall (fun n => 1 <= n < inMemoryIdCounter
                                (snd (run sample_host
                                        [POST_tasks milk; POST_tasks cheese;
                                         POST_tasks bread] init)))%N ps.*2 /\
    (Forall (dates_convert sample_host)
       [POST_tasks milk; POST_tasks cheese; POST_tasks bread] ->
     ps.*2 = (fun i => N.of_nat (S i)) <$> seq 0 (length ps) /\
     inMemoryIdCounter
       (snd (run sample_host [POST_tasks milk; POST_tasks cheese; POST_tasks bread] init))
     = N.of_nat (S (length ps))).
Proof.
  apply (fallback_ids_numbered sample_host
           [POST_tasks milk; POST_tasks cheese; POST_tasks bread]).
Defined.

(** The second of three create calls has a [dueDate] that cannot be
    converted: the tasks created get the numbers 1 and 3. *)
Example number_spent :
  let r := run sample_host [POST_tasks milk; POST_tasks cheese; POST_tasks bread] init in
  status <$> fst r = [201; 400; 201] /\
  omap fallback_created (fst r) = ["1700000000000-1"; "1700000000006-3"] /\
  length (inMemoryTasks (snd r)) = 2%nat /\
  inMemoryIdCounter (snd r) = 4%N.
Proof. vm_compute. by repeat split. Qed.

End NumberingExamples.


(* ================================================================== *)
(** ** Creating a document *)
(* ================================================================== *)

Section CreateDurable.
Import Server Sample Props.
Variable h : host.

Lemma run_fresh_ids (es : list event) (st : state) :
  fresh_ids st -> fresh_ids (snd (run h es st)).
Proof.
  revert st. induction es as [|e es IH]; intros st Hst; [by rewrite run_nil|].
  rewrite run_cons. simpl. apply IH.
  by eapply transition_fresh_ids; [apply step_transition|].
Qed.

(** A create call on the database never overwrites a document.  After
    any sequence of events since the start of the server, a create call
    answered with 201 returns a document under an ObjectId that no
    document of the collection had; the collection afterwards is the
    one before with that document added, the in-memory list is
    untouched, and reading an id that casts to the ObjectId returns the
    document. *)
Theorem create_durable_adds_one (es : list event) (b : gmap string json) :
  let st := snd (run h es init) in
  readyState st = 1 -> status (fst (post_tasks h b st)) = 201 ->
  exists (k : N) (d : doc),
    fst (post_tasks h b st) = Response 201 (OneDoc k d) /\
    collection st !! k = None /\
    collection (snd (post_tasks h b st)) = <[k := d]> (collection st) /\
    inMemoryTasks (snd (post_tasks h b st)) = inMemoryTasks st /\
    (forall id : string, castObjectId h (JStr id) = Some k ->
       fst (get_task h id (snd (post_tasks h b st))) = Response 200 (OneDoc k d)).
Proof.
  intros st Hmode.
  assert (fresh_ids st) as Hfresh.
  { apply run_fresh_ids. intros k [d Hd]. simpl in Hd. by rewrite lookup_empty in Hd. }
  destruct (text_cases b) as [Hb|[Hb|[s Hb]]].
  { by rewrite (post_tasks_rejected h b st Hb). }
  { by rewrite (post_tasks_unreadable h b st Hb). }
  rewrite (post_tasks_durable h b st s Hb Hmode).
  destruct (dueDate_of_body h _) as [v|]; [|done].
  destruct (cast_Date h _) as [due|]; [|done].
  destruct (castPosition h _) as [pos|]; [|done]. simpl. intros _.
  eexists _, _. split; [done|]. split.
  { destruct (collection st !! objectIds st) as [d|] eqn:Hd; [|done].
    assert (objectIds st < objectIds st)%N by (apply Hfresh; by eexists). lia. }
  split; [done|]. split; [done|]. intros id Hid.
  rewrite get_task_durable by done. simpl. by rewrite Hid, lookup_insert_eq.
Qed.

End CreateDurable.

Section CreateDurableExample.
Import Server Sample Props.

Lemma create_durable_adds_one_witness :
  let st := snd (run sample_host [Connection 1; POST_tasks milk] init) in
  exists (k : N) (d : doc),
    fst (post_tasks sample_host bread st) = Response 201 (OneDoc k d) /\
    collection st !! k = None /\
    collection (snd (post_tasks sample_host bread st)) = <[k := d]> (collection st) /\
    inMemoryTasks (snd (post_tasks sample_host bread st)) = inMemoryTasks st /\
    (forall id : string, castObjectId sample_host (JStr id) = Some k ->
       fst (get_task sample_host id (snd (post_tasks sample_host bread st)))
       = Response 200 (OneDoc k d)).
Proof.
  apply (create_durable_adds_one sample_host [Connection 1; POST_tasks milk] bread).
  - reflexivity.
  - vm_compute. reflexivity.
Defined.

End CreateDurableExample.

(* ================================================================== *)
(** ** The health route *)
(* ================================================================== *)

Section Health.
Import Server Sample Props Routes.
Variable h : host.

(** The health route tells which backend serves the tasks.  It answers
    with status 200, [ok: true], the time of the clock as an ISO
    string, and a flag [mongo] that is true exactly when the list is
    answered from the database and false exactly when it is answered
    from the in-memory list: with its tasks, or with the error of the
    comparator (500) when the sort of the list throws.  The route
    changes nothing but the count of the readings of the clock. *)
Theorem health_reports_backend (st : state) :
  exists mongo : bool,
    health h st =
      (Returned (200, JObj [("ok", JBool true); ("mongo", JBool mongo);
                            ("time", JStr (Date_toISOString h
                                             (Date_now h (clock_reads st))))]),
       tick 1 st) /\
    (mongo = true <-> exists ds, sent (fst (get_tasks h st)) = Docs ds) /\
    (mongo = false <->
       (exists ts, sent (fst (get_tasks h st)) = Tasks ts) \/
       fst (get_tasks h st) = Response 500 (ErrorMessage TypeError)).
Proof.
  exists (readyState st =? 1). split; [reflexivity|].
  destruct (decide (readyState st = 1)) as [Hmode|Hmode].
  - rewrite (durable_mode_test st Hmode), get_tasks_durable by done. simpl.
    split; split; try done.
    + intros _. by eexists.
    + by intros [[ts ?]|?].
  - rewrite (fallback_mode_test st Hmode), get_tasks_fallback by done.
    destruct (Array_sort _ _) as [ts|]; simpl.
    + split; split; try done.
      * by intros [ds ?].
      * intros _. left. by eexists.
    + split; split; try done.
      * by intros [ds ?].
      * intros _. by right.
Qed.

End Health.

(* ================================================================== *)
(** ** The header and the cards *)
(* ================================================================== *)

Section Header.
Import Server Props Views.

Lemma drawable_safeDate (h : host) (now : Z) (t : gmap string json) :
  drawable h now t <-> is_Some (App.safeDate h (t !! "dueDate")).
Proof.
  unfold drawable, App.getStatus.
  destruct (App.safeDate h (t !! "dueDate")) as [[d|]|]; split; intros [x Hx];
    try done; by eexists.
Qed.

Lemma overdue_shown (h : host) (now : Z) (t : gmap string json) :
  drawable h now t ->
  App.is_overdue h now t = Some (shows h now App.Overdue t).
Proof.
  intros [o Ho]%drawable_safeDate. unfold App.is_overdue, shows, App.getStatus.
  rewrite Ho. destruct o as [d|]; simpl.
  - f_equal. rewrite andb_comm. f_equal.
    destruct (Z.ltb_spec d now), (Z.ltb_spec (d - now) 0); try lia; [done|].
    by destruct (d - now <? 24 * 60 * 60 * 1000).
  - by rewrite andb_false_r.
Qed.

Lemma soon_shown (h : host) (now : Z) (t : gmap string json) :
  drawable h now t ->
  App.is_soon h now t = Some (shows h now App.Due_soon t).
Proof.
  intros [o Ho]%drawable_safeDate. unfold App.is_soon, shows, App.getStatus.
  rewrite Ho. destruct o as [d|]; simpl.
  - f_equal. rewrite andb_comm. f_equal.
    destruct (Z.leb_spec 0 (d - now)), (Z.ltb_spec (d - now) 0); try lia; [|done].
    simpl. by destruct (d - now <? 24 * 60 * 60 * 1000).
  - by rewrite andb_false_r.
Qed.

Lemma overdue_undrawn (h : host) (now : Z) (t : gmap string json) :
  ~ drawable h now t -> App.is_overdue h now t = None.
Proof.
  rewrite drawable_safeDate. unfold App.is_overdue.
  destruct (App.safeDate h (t !! "dueDate")) as [o|]; [|done].
  intros []. by eexists.
Qed.

(** The numbers of the header agree with the cards.  When the card of
    every task can be drawn, [total] is the number of tasks; [overdue]
    is the number of tasks that are not completed and whose card is
    labelled as overdue; [soon] is the number of those whose card is
    labelled as due soon; and the three groups the header counts apart
    from the total do not overlap: together they number no more than
    the tasks.  The header has no numbers (its callbacks throw) exactly
    when the card of some task cannot be drawn. *)
Theorem stats_match_cards (h : host) (now : Z) (tasks : list (gmap string json)) :
  match App.stats h now tasks with
  | Some s =>
      Forall (drawable h now) tasks /\
      App.total s = length tasks /\
      App.overdue s = length (List.filter (shows h now App.Overdue) tasks) /\
      App.soon s = length (List.filter (shows h now App.Due_soon) tasks) /\
      (App.completed s + App.overdue s + App.soon s <= App.total s)%nat
  | None => Exists (fun t => ~ drawable h now t) tasks
  end.
Proof.
  assert (forall t, {drawable h now t} + {~ drawable h now t}) as Hdec.
  { intros t. unfold drawable. destruct (App.getStatus h now (t !! "dueDate")).
    - left. by eexists.
    - right. by intros [x Hx]. }
  unfold App.stats.
  destruct (Forall_Exists_dec _ _ Hdec tasks) as [Hall|Hsome].
  - rewrite (Array_filter_total _ (shows h now App.Overdue)).
    2:{ eapply Forall_impl; [exact Hall|]. apply overdue_shown. }
    rewrite (Array_filter_total _ (shows h now App.Due_soon)).
    2:{ eapply Forall_impl; [exact Hall|]. apply soon_shown. }
    simpl. split; [done|]. split; [done|]. split; [done|]. split; [done|].
    clear Hall. induction tasks as [|t l IH]; simpl; [lia|].
    destruct (truthy_body (t !! "completed")) eqn:Hc,
      (shows h now App.Overdue t) eqn:Ho, (shows h now App.Due_soon t) eqn:Hs;
      simpl; try lia; exfalso; unfold shows in Ho, Hs; rewrite Hc in *;
      simpl in *; try done.
    apply bool_decide_eq_true in Ho, Hs. congruence.
  - assert (Array_filter (App.is_overdue h now) tasks = None) as ->; [|done].
    apply Array_filter_None. eapply Exists_impl; [exact Hsome|].
    apply overdue_undrawn.
Qed.

(** The places [nextInitialPos] gives are apart, whatever the random
    part.  Two different indices never get the same place.  In a row,
    a card in a column further right starts beyond the right edge of a
    card 300 wide in a column further left; a row further down starts
    more than 148 below a row further up; and no place is left of 24,
    right of 681, or above 24. *)
Theorem nextInitialPos_apart (i j : nat) (rx ry rx' ry' : Z) :
  drawn rx ry -> drawn rx' ry' ->
  let p := App.nextInitialPos i rx ry in
  let q := App.nextInitialPos j rx' ry' in
  (i <> j -> p <> q) /\
  ((i mod 3 < j mod 3)%nat -> fst p + App.card_width < fst q) /\
  ((i / 3 < j / 3)%nat -> snd p + 148 < snd q) /\
  24 <= fst p <= 681 /\ 24 <= snd p.
Proof.
  unfold drawn, App.nextInitialPos, App.card_width. intros Hr Hr'. cbn [fst snd].
  assert (forall n : nat, Z.of_nat n mod 3 = Z.of_nat (n mod 3)) as Hmod
    by (intros n; exact (eq_sym (Nat2Z.inj_mod n 3))).
  assert (forall n : nat, Z.of_nat n / 3 = Z.of_nat (n / 3)) as Hdiv
    by (intros n; exact (eq_sym (Nat2Z.inj_div n 3))).
  rewrite !Hmod, !Hdiv. clear Hmod Hdiv.
  pose proof (Nat.div_mod_eq i 3) as Hi. pose proof (Nat.div_mod_eq j 3) as Hj.
  assert (i mod 3 < 3)%nat as Hib by (by apply Nat.mod_upper_bound).
  assert (j mod 3 < 3)%nat as Hjb by (by apply Nat.mod_upper_bound).
  revert Hi Hj Hib Hjb.
  generalize (i mod 3)%nat (i / 3)%nat (j mod 3)%nat (j / 3)%nat.
  intros a b c d Hi Hj Ha Hc.
  split; [|split; [|split]].
  - intros Hij [= Hx Hy]. apply Hij. lia.
  - lia.
  - lia.
  - lia.
Qed.

End Header.

Section HeaderExamples.
Import Views SampleSession.

Lemma nextInitialPos_apart_witness :
  let p := App.nextInitialPos 0 0 0 in
  let q := App.nextInitialPos 4 17 11 in
  (0%nat <> 4%nat -> p <> q) /\
  ((0 mod 3 < 4 mod 3)%nat -> fst p + App.card_width < fst q) /\
  ((0 / 3 < 4 / 3)%nat -> snd p + 148 < snd q) /\
  24 <= fst p <= 681 /\ 24 <= snd p.
Proof.
  apply (nextInitialPos_apart 0 4 0 0 17 11); unfold drawn; lia.
Defined.

End HeaderExamples.

(* ================================================================== *)
(** ** The order of the cards *)
(* ================================================================== *)

Section BoardOrder.
Import Server Props Views.

Lemma card_due_cases (h : host) (t : gmap string json) :
  card_due h t = XPosInf \/ card_due h t = XNaN \/ exists z, card_due h t = XFin z.
Proof.
  unfold card_due, App.dueTime. destruct (t !! "dueDate") as [j|]; [|by left].
  destruct (truthy_json j); [|by left].
  destruct (new_Date_json h j) as [[z|]|]; simpl;
    [right; right; by exists z|by right; left..].
Qed.

(** On cards whose due dates are absent or valid the comparator does
    not throw. *)
Lemma App_compareTasks_dated (h : host) (a b : gmap string json) :
  dated h a -> dated h b ->
  App.compareTasks h a b =
    Some (if negb (Bool.eqb (truthy_body (a !! "completed"))
                     (truthy_body (b !! "completed")))
          then (if truthy_body (a !! "completed") then XFin 1 else XFin (-1))
          else xsub (card_due h a) (card_due h b)).
Proof.
  unfold dated, card_due, App.compareTasks. intros Ha Hb.
  destruct (App.dueTime h (a !! "dueDate")) as [da|]; [|done].
  destruct (App.dueTime h (b !! "dueDate")) as [db|]; [|done].
  by destruct (negb _).
Qed.

Lemma App_compareTasks_after (h : host) (a b : gmap string json) :
  dated h a -> dated h b ->
  shown_after h a b = true -> shown_before h b a.
Proof.
  intros Ha Hb. unfold shown_after. rewrite (App_compareTasks_dated h a b Ha Hb).
  unfold dated, shown_before in *. simpl.
  destruct (truthy_body (a !! "completed")), (truthy_body (b !! "completed")); simpl;
    try done; try (by left).
  all: destruct (card_due_cases h a) as [Hda|[Hda|[x Hda]]];
    destruct (card_due_cases h b) as [Hdb|[Hdb|[y Hdb]]];
    try done; rewrite Hda, Hdb; simpl; try done.
  all: intros H; right; split; [done|]; try done; lia.
Qed.

Lemma App_compareTasks_not_after (h : host) (a b : gmap string json) :
  dated h a -> dated h b ->
  shown_after h a b = false -> shown_before h a b.
Proof.
  intros Ha Hb. unfold shown_after. rewrite (App_compareTasks_dated h a b Ha Hb).
  unfold dated, shown_before in *. simpl.
  destruct (truthy_body (a !! "completed")), (truthy_body (b !! "completed")); simpl;
    try done; try (by left).
  all: destruct (card_due_cases h a) as [Hda|[Hda|[x Hda]]];
    destruct (card_due_cases h b) as [Hdb|[Hdb|[y Hdb]]];
    try done; rewrite Hda, Hdb; simpl; try done.
  all: intros H; right; split; [done|]; try done; lia.
Qed.

Lemma shown_before_trans (h : host) (a b c : gmap string json) :
  dated h a -> dated h b -> dated h c ->
  shown_before h a b -> shown_before h b c -> shown_before h a c.
Proof.
  unfold dated, shown_before. intros Ha Hb Hc.
  destruct (truthy_body (a !! "completed")), (truthy_body (b !! "completed")),
    (truthy_body (c !! "completed")); intros [[??]|[? Hab]] [[??]|[? Hbc]];
    try done; try (by left).
  all: right; split; [done|].
  all: destruct (card_due h a), (card_due h b), (card_due h c);
    simpl in *; try done; lia.
Qed.

(** The board, when every due date is absent or valid: the comparator
    does not throw, and the cards are the stable sort. *)
Lemma sortedTasks_dated (h : host) (tasks : list (gmap string json)) :
  Forall (dated h) tasks ->
  App.sortedTasks h tasks = Some (sort_stable (shown_after h) tasks).
Proof.
  intros Hdated. unfold App.sortedTasks, Array_sort. rewrite sort_try_total; [done|].
  intros x y Hx Hy. rewrite App_compareTasks_dated; [by eexists|..].
  - by apply (proj1 (Forall_forall _ _) Hdated).
  - by apply (proj1 (Forall_forall _ _) Hdated).
Qed.

(** The order of the cards.  When every due date the front end holds
    is absent or a valid date, [sortedTasks] holds the tasks it was
    given, each incomplete task before each completed one and, among
    tasks alike in that, by ascending due date; in particular a task
    with a due date comes before a task without one, whatever the order
    in which the server sent them. *)
Theorem board_order (h : host) (tasks : list (gmap string json)) :
  Forall (dated h) tasks ->
  exists sorted,
    App.sortedTasks h tasks = Some sorted /\
    sorted ≡ₚ tasks /\
    StronglySorted (shown_before h) sorted /\
    (forall (i j : nat) a b,
       sorted !! i = Some a -> sorted !! j = Some b ->
       truthy_body (a !! "completed") = truthy_body (b !! "completed") ->
       truthy_body (a !! "dueDate") = true -> truthy_body (b !! "dueDate") = false ->
       (i < j)%nat).
Proof.
  intros Hdated. exists (sort_stable (shown_after h) tasks).
  split; [by apply sortedTasks_dated|].
  split; [apply sort_stable_perm|].
  assert (StronglySorted (shown_before h) (sort_stable (shown_after h) tasks))
    as Hsorted.
  { apply (sort_stable_sorted _ (dated h)); [| | |done].
    - apply App_compareTasks_after.
    - apply App_compareTasks_not_after.
    - apply shown_before_trans. }
  split; [done|]. intros i j a b Ha Hb Hc Hda Hdb.
  destruct (decide (i < j)%nat) as [|Hge]; [done|exfalso].
  assert (dated h a) as Hdated_a.
  { apply (proj1 (Forall_forall _ _) Hdated).
    rewrite <- (sort_stable_perm (shown_after h) tasks).
    by eapply list_elem_of_lookup_2. }
  assert (i <> j) as Hne by (intros ->; congruence).
  assert (j < i)%nat as Hlt by lia.
  pose proof (StronglySorted_lookup _ _ j i b a Hsorted Hb Ha Hlt) as Hle.
  unfold shown_before in Hle. rewrite Hc in Hle.
  destruct Hle as [[? ?]|[_ Hle]]; [congruence|].
  unfold dated in Hdated_a. unfold card_due, App.dueTime in Hle, Hdated_a.
  unfold truthy_body in Hda, Hdb.
  destruct (a !! "dueDate") as [ja|]; [|done]. rewrite Hda in Hle, Hdated_a.
  destruct (b !! "dueDate") as [jb|].
  - rewrite Hdb in Hle. by destruct (new_Date_json h ja) as [[z|]|].
  - by destruct (new_Date_json h ja) as [[z|]|].
Qed.

End BoardOrder.

Section BoardOrderExample.
Import Server Sample Props Views SampleSession.

Lemma board_order_witness :
  exists sorted,
    App.sortedTasks sample_host [done_card; plain_card; dated_card] = Some sorted /\
    sorted ≡ₚ [done_card; plain_card; dated_card] /\
    StronglySorted (shown_before sample_host) sorted /\
    (forall (i j : nat) a b,
       sorted !! i = Some a -> sorted !! j = Some b ->
       truthy_body (a !! "completed") = truthy_body (b !! "completed") ->
       truthy_body (a !! "dueDate") = true -> truthy_body (b !! "dueDate") = false ->
       (i < j)%nat).
Proof.
  apply (board_order sample_host [done_card; plain_card; dated_card]).
  repeat constructor; unfold dated; vm_compute; discriminate.
Defined.

(** The card with a due date comes first, the completed one last. *)
Example sortedTasks_cards :
  App.sortedTasks sample_host [done_card; plain_card; dated_card]
  = Some [dated_card; plain_card; done_card].
Proof. vm_compute. reflexivity. Qed.

End BoardOrderExample.

(* ================================================================== *)
(** ** More facts about [trim] *)
(* ================================================================== *)

Section TrimFacts.
Import Views.

Lemma append_cons (c : ascii) (s t : string) :
  String c s +:+ t = String c (s +:+ t).
Proof. reflexivity. Qed.

Lemma append_empty_r (s : string) : s +:+ "" = s.
Proof. induction s as [|c s IH]; [done|]. by rewrite append_cons, IH. Qed.

Lemma rev_app_rev_app (s a b : string) :
  String.rev_app (String.rev_app s a) b = String.rev_app a (s +:+ b).
Proof.
  revert a b. induction s as [|c s IH]; intros a b; [done|].
  rewrite append_cons. simpl. by rewrite IH.
Qed.

Lemma rev_involutive (s : string) : String.rev (String.rev s) = s.
Proof.
  unfold String.rev. rewrite rev_app_rev_app. simpl. apply append_empty_r.
Qed.

Lemma trimStart_idempotent (s : string) : trimStart (trimStart s) = trimStart s.
Proof.
  induction s as [|c s IH]; simpl; [done|].
  destruct (isWhiteSpace c) eqn:Hc; [done|]. simpl. by rewrite Hc.
Qed.

Lemma trimEnd_idempotent (s : string) : trimEnd (trimEnd s) = trimEnd s.
Proof.
  unfold trimEnd. by rewrite rev_involutive, trimStart_idempotent.
Qed.

Lemma trimStart_clean (s : string) : starts_clean s -> trimStart s = s.
Proof. destruct s as [|c s]; simpl; [done|]. by intros ->. Qed.

Lemma starts_clean_trimStart (s : string) : starts_clean (trimStart s).
Proof.
  induction s as [|c s IH]; simpl; [done|].
  destruct (isWhiteSpace c) eqn:Hc; [done|]. done.
Qed.

(** The last character of a string is the first of its reverse. *)
Lemma rev_app_last (s acc : string) (c : ascii) :
  String.rev_app (s +:+ String c "") acc = String c (String.rev_app s acc).
Proof.
  revert acc. induction s as [|d s IH]; intros acc; [done|].
  rewrite append_cons. simpl. by rewrite IH.
Qed.

Lemma append_last (r acc : string) (c : ascii) :
  (r +:+ String c "") +:+ acc = r +:+ String c acc.
Proof. induction r as [|d r IH]; [done|]. by rewrite !append_cons, IH. Qed.

Lemma rev_app_append (s acc : string) :
  String.rev_app s acc = String.rev s +:+ acc.
Proof.
  unfold String.rev. revert acc.
  induction s as [|c s IH]; intros acc; simpl; [done|].
  by rewrite (IH (String c acc)), (IH (String c "")), append_last.
Qed.

Lemma trimStart_append_clean (x : string) (c : ascii) (y : string) :
  isWhiteSpace c = false ->
  exists z, trimStart (x +:+ String c y) = z +:+ String c y.
Proof.
  intros Hc. induction x as [|d x IH].
  - exists "". change ("" +:+ String c y) with (String c y). simpl. by rewrite Hc.
  - rewrite append_cons. simpl. destruct (isWhiteSpace d); [done|].
    exists (String d x). by rewrite append_cons.
Qed.

Lemma starts_clean_trimEnd (s : string) :
  starts_clean s -> starts_clean (trimEnd s).
Proof.
  destruct s as [|c s]; [done|]. simpl. intros Hc.
  unfold trimEnd.
  change (String.rev (String c s)) with (String.rev_app s (String c "")).
  rewrite (rev_app_append s).
  destruct (trimStart_append_clean (String.rev s) c "" Hc) as [z ->].
  unfold String.rev. by rewrite rev_app_last.
Qed.

(** Trimming twice is trimming once. *)
Lemma trim_idempotent (s : string) : trim (trim s) = trim s.
Proof.
  unfold trim.
  rewrite (trimStart_clean (trimEnd (trimStart s))).
  - apply trimEnd_idempotent.
  - apply starts_clean_trimEnd, starts_clean_trimStart.
Qed.

End TrimFacts.

(* ================================================================== *)
(** ** What the forms send, and what the server makes of it *)
(* ================================================================== *)

Section Forms.
Import Server Props Views.
Variable h : host.

Lemma addTask_post (payload : gmap string json) (text dueDate dueDay dueTime : string)
  (n : nat) (rx ry : Z) (body : gmap string json) :
  App.addTask_request payload text dueDate dueDay dueTime n rx ry = App.post body ->
  exists (s : string) (due : json),
    App.coalesce (payload !! "text") (JStr text) = JStr s /\
    whitespace_only s = false /\
    body = <["text" := JStr s]>
             (<["dueDate" := due]>
                {[ "position" := App.point (App.nextInitialPos n rx ry) ]}) /\
    due <> JNull /\
    (payload !! "dueDate" = None -> exists d, due = JStr d).
Proof.
  unfold App.addTask_request.
  destruct (App.coalesce (payload !! "text") (JStr text)) as [|?|?|s|?|?] eqn:Ht;
    simpl; try done; try (by destruct (negb _)); try (by case_match).
  destruct (negb (String.eqb s "")); [|done]. simpl.
  rewrite eqb_trim_empty. destruct (whitespace_only s) eqn:Hs; [done|].
  destruct (_ && _) eqn:Hif.
  - destruct (ToString (App.coalesce (payload !! "dueDay") _)) as [d|]; [|done].
    destruct (ToString _) as [t|]; [|done].
    intros [= <-]. eexists s, _. do 4 (split; [done|]). intros _. by eexists.
  - intros [= <-]. eexists s, _. do 3 (split; [done|]). split.
    + unfold App.coalesce. by repeat case_match.
    + intros ->. simpl. by eexists.
Qed.

Lemma posted_text_accepted (s : string) (b : gmap string json) :
  b !! "text" = Some (JStr s) -> whitespace_only s = false -> text_accepted b s.
Proof.
  intros Hb Hs. unfold text_accepted, text_missing. rewrite Hb. simpl.
  rewrite eqb_trim_empty, Hs, orb_false_r. split; [|done]. by destruct s.
Qed.

(** The form to add a task sends nothing the server refuses for its
    text.  Every body that [addTask] posts has a text that is a string
    with a character other than white space, so the test of the create
    handler passes.  Its due date is a string when the payload brought
    none, and then [new Date] can convert it.  On the fallback the
    request is answered with 201 when the due date can be converted:
    the task is added at the end of the list, not completed, with the
    text trimmed and the position that [nextInitialPos] gave.  When the
    payload brought a due date that [new Date] cannot convert, the
    answer is the [TypeError] (400) and nothing is added. *)
Theorem addTask_accepted (payload : gmap string json)
  (text dueDate dueDay dueTime : string) (n : nat) (rx ry : Z)
  (body : gmap string json) (st : state) :
  App.addTask_request payload text dueDate dueDay dueTime n rx ry = App.post body ->
  exists s : string,
    body !! "text" = Some (JStr s) /\ whitespace_only s = false /\
    text_missing body = false /\
    (payload !! "dueDate" = None ->
     (exists d, body !! "dueDate" = Some (JStr d)) /\
     is_Some (dueDate_of_body h (body !! "dueDate"))) /\
    (readyState st <> 1 ->
     match dueDate_of_body h (body !! "dueDate") with
     | Some v =>
         exists t : gmap string value,
           fst (post_tasks h body st) = Response 201 (OneTask t) /\
           inMemoryTasks (snd (post_tasks h body st)) = inMemoryTasks st ++ [t] /\
           t !! "text" = Some (VJson (JStr (trim s))) /\
           t !! "completed" = Some (VJson (JBool false)) /\
           t !! "dueDate" = Some v /\
           t !! "position" = Some (VJson (App.point (App.nextInitialPos n rx ry)))
     | None =>
         fst (post_tasks h body st) = Response 400 (ErrorMessage TypeError) /\
         inMemoryTasks (snd (post_tasks h body st)) = inMemoryTasks st
     end).
Proof.
  intros (s & due & _ & Hs & -> & _ & Hdue)%addTask_post.
  exists s. split; [by rewrite lookup_insert_eq|]. split; [done|].
  assert (text_accepted
            (<["text" := JStr s]>
               (<["dueDate" := due]>
                  {[ "position" := App.point (App.nextInitialPos n rx ry) ]})) s)
    as Hb.
  { apply posted_text_accepted; [|done]. by rewrite lookup_insert_eq. }
  split; [by destruct Hb|]. split.
  { intros [d ->]%Hdue. rewrite lookup_insert_ne, lookup_insert_eq by done.
    split; [by eexists|]. simpl. destruct (negb _); by eexists. }
  intros Hmode.
  destruct (dueDate_of_body h _) as [v|] eqn:Hv.
  - rewrite (post_tasks_fallback h _ st s v Hb Hv Hmode).
    eexists. split; [done|]. split; [done|].
    unfold created_task. repeat split; reflexivity.
  - by rewrite (post_tasks_fallback_thrown h _ st s Hb Hv Hmode).
Qed.

(** Retrying an add.  A body that [addTask] posted, handed to
    [addTask] again as its payload, is posted again with the same text
    and the same due date, whatever the text field holds by then,
    provided the body had a due date or the day field is empty; the
    position is computed anew. *)
Theorem addTask_again (payload : gmap string json)
  (text dueDate dueDay dueTime : string) (n : nat) (rx ry : Z)
  (body : gmap string json)
  (text' dueDate' dueDay' dueTime' : string) (n' : nat) (rx' ry' : Z) :
  App.addTask_request payload text dueDate dueDay dueTime n rx ry = App.post body ->
  truthy_body (body !! "dueDate") = true \/ dueDay' = "" ->
  exists body' : gmap string json,
    App.addTask_request body text' dueDate' dueDay' dueTime' n' rx' ry' = App.post body' /\
    body' !! "text" = body !! "text" /\
    body' !! "dueDate" = body !! "dueDate" /\
    body' !! "position" = Some (App.point (App.nextInitialPos n' rx' ry')).
Proof.
  intros (s & due & _ & Hs & -> & Hdue & _)%addTask_post Hcase.
  rewrite lookup_insert_ne, lookup_insert_eq in Hcase by done.
  assert ((negb (truthy_json due)
           && truthy_json (App.or_else None (JStr dueDay'))) = false) as Hif.
  { destruct Hcase as [Htruthy| ->].
    - simpl in Htruthy. by rewrite Htruthy.
    - simpl. apply andb_false_r. }
  assert (truthy_json (JStr s) = true) as Htruthy.
  { destruct s; [done|]. done. }
  unfold App.addTask_request.
  rewrite lookup_insert_eq.
  rewrite !(lookup_insert_ne _ "text") by done. rewrite !lookup_insert_eq.
  rewrite !(lookup_insert_ne _ "dueDate") by done.
  rewrite !lookup_singleton_ne by done.
  change (App.coalesce (Some (JStr s)) (JStr text')) with (JStr s).
  rewrite Htruthy. cbn [negb].
  rewrite eqb_trim_empty, Hs.
  assert (App.coalesce (Some (App.coalesce (Some due) (JStr dueDate'))) JNull = due)
    as -> by by destruct due.
  rewrite Hif.
  eexists. split; [done|].
  rewrite !lookup_insert_eq.
  rewrite !(lookup_insert_ne _ "text") by done. rewrite !lookup_insert_eq.
  rewrite !(lookup_insert_ne _ "dueDate") by done.
  by rewrite lookup_singleton_eq.
Qed.

Lemma prepare_update_set_text (id : string) (p : gmap string value) (st : state)
  k c upd (s : string) :
  fst (prepare_update h id p st) = Returned (k, c, upd) ->
  p !! "text" = Some (VJson (JStr s)) -> set_text c = Some (Some (trim s)).
Proof.
  unfold prepare_update. intros H Hp.
  apply bind_returned in H as (k0 & st1 & _ & H).
  apply bind_returned in H as (c0 & st2 & Hc & H).
  assert (fst (castUpdate h p st1) = Returned c0) as Hc' by by rewrite Hc.
  apply castUpdate_returned in Hc' as [_ Htext].
  apply bind_returned in H as (u0 & st3 & _ & H).
  apply bind_returned in H as ([] & st4 & _ & H).
  apply bind_returned in H as ([] & st5 & _ & H).
  injection H as <- <- <-. by apply Htext.
Qed.

(** Saving an edit never stores a blank text.  [saveEdit] sends
    nothing when the text typed is empty or white space; otherwise the
    text of its body is the text typed, trimmed, which is not blank,
    and when the update is answered with 200 that is the text of the
    stored task, on the fallback and on the database. *)
Theorem saveEdit_stores_text (id : string) (editText editDue : string) (st : state) :
  match App.saveEdit_request editText editDue with
  | None => whitespace_only editText = true
  | Some body =>
      whitespace_only (trim editText) = false /\
      (status (fst (put_task h id body st)) = 200 ->
       match sent (fst (put_task h id body st)) with
       | OneTask t =>
           t !! "text" = Some (VJson (JStr (trim editText))) /\
           t ∈ inMemoryTasks (snd (put_task h id body st))
       | OneDoc k d =>
           text d = Some (trim editText) /\
           collection (snd (put_task h id body st)) !! k = Some d
       | _ => False
       end)
  end.
Proof.
  unfold App.saveEdit_request. rewrite eqb_trim_empty.
  destruct (whitespace_only editText) eqn:Hblank; [done|].
  split; [by rewrite whitespace_only_trim|].
  set (body := <["dueDate" := _]> _).
  assert (body !! "text" = Some (JStr (trim editText))) as Htext.
  { unfold body. by rewrite lookup_insert_ne, lookup_singleton_eq. }
  destruct (decide (readyState st = 1)) as [Hmode|Hmode].
  - rewrite (put_task_durable h id body st Hmode).
    destruct (fst (prepare_update _ _ _ _)) as [[[k c] upd]|e] eqn:Hp; [|done].
    apply (prepare_update_set_text _ _ _ _ _ _ (trim editText)) in Hp.
    2:{ unfold update_payload. by rewrite lookup_insert_ne, lookup_fmap, Htext. }
    destruct (collection st !! k) as [d|]; [|done].
    destruct (match set_id c with Some k' => (k' =? k)%N | None => true end); [|done].
    destruct (operated _ _ _) as [e|d0]; [done|].
    simpl. intros _. rewrite Hp, trim_idempotent. split; [done|].
    by rewrite lookup_insert_eq.
  - rewrite (put_task_fallback h id body st Hmode).
    destruct (findIndex _ _) as [i|] eqn:Hi; [|done]. simpl. intros _.
    destruct (findIndex_Some _ _ _ Hi) as [(t & Ht & Hid) _]. rewrite Ht. simpl.
    split.
    + apply lookup_union_Some_l. unfold update_payload.
      by rewrite lookup_insert_ne, lookup_fmap, Htext.
    + eapply list_elem_of_lookup_2. apply list_lookup_insert_eq.
      by eapply lookup_lt_Some.
Qed.

End Forms.

Section FormsExamples.
Import Server Sample Props Views SampleSession.

Example addTask_request_typed :
  App.addTask_request ∅ "  buy milk " "" "2099-01-01" "" 1 3 4 = App.post typed.
Proof. vm_compute. reflexivity. Qed.

Lemma addTask_accepted_witness :
  exists s : string,
    typed !! "text" = Some (JStr s) /\ whitespace_only s = false /\
    text_missing typed = false /\
    ((∅ : gmap string json) !! "dueDate" = None ->
     (exists d, typed !! "dueDate" = Some (JStr d)) /\
     is_Some (dueDate_of_body sample_host (typed !! "dueDate"))) /\
    (readyState one_task <> 1 ->
     match dueDate_of_body sample_host (typed !! "dueDate") with
     | Some v =>
         exists t : gmap string value,
           fst (post_tasks sample_host typed one_task) = Response 201 (OneTask t) /\
           inMemoryTasks (snd (post_tasks sample_host typed one_task))
           = inMemoryTasks one_task ++ [t] /\
           t !! "text" = Some (VJson (JStr (trim s))) /\
           t !! "completed" = Some (VJson (JBool false)) /\
           t !! "dueDate" = Some v /\
           t !! "position" = Some (VJson (App.point (App.nextInitialPos 1 3 4)))
     | None =>
         fst (post_tasks sample_host typed one_task)
         = Response 400 (ErrorMessage TypeError) /\
         inMemoryTasks (snd (post_tasks sample_host typed one_task))
         = inMemoryTasks one_task
     end).
Proof.
  apply (addTask_accepted sample_host ∅ "  buy milk " "" "2099-01-01" "" 1 3 4
           typed one_task).
  vm_compute. reflexivity.
Defined.

(** A payload with a due date that [new Date] cannot convert is posted
    as it is, and the fallback answers with the [TypeError]. *)
Example addTask_request_stubborn :
  exists body : gmap string json,
    App.addTask_request cheese "" "" "" "" 0 0 0 = App.post body /\
    body !! "dueDate" = Some stubborn /\
    post_tasks sample_host body init
    = (Response 400 (ErrorMessage TypeError), after_create_thrown init).
Proof. eexists. split; [vm_compute; reflexivity|]. split; vm_compute; reflexivity. Qed.

Lemma addTask_again_witness :
  exists body' : gmap string json,
    App.addTask_request typed "" "" "2100-12-31" "" 2 0 0 = App.post body' /\
    body' !! "text" = typed !! "text" /\
    body' !! "dueDate" = typed !! "dueDate" /\
    body' !! "position" = Some (App.point (App.nextInitialPos 2 0 0)).
Proof.
  apply (addTask_again ∅ "  buy milk " "" "2099-01-01" "" 1 3 4 typed
           "" "" "2100-12-31" "" 2 0 0).
  - vm_compute. reflexivity.
  - left. reflexivity.
Defined.

End FormsExamples.

(* ================================================================== *)
(** ** The front end and the in-memory list stay in step *)
(* ================================================================== *)

Section ListUpdates.
Import Server.
Context {A : Type}.
Implicit Types (p : A -> bool) (l : list A).

(** When one element at most satisfies [p], writing at the first index
    that satisfies it is replacing every element that does. *)
Lemma insert_first_unique p l (k : nat) (m : A) :
  findIndex p l = Some k ->
  (forall (i j : nat) x y,
     l !! i = Some x -> l !! j = Some y -> p x = true -> p y = true -> i = j) ->
  <[k := m]> l = (fun x => if p x then m else x) <$> l.
Proof.
  intros Hk Huniq. destruct (findIndex_Some _ _ _ Hk) as [(x0 & Hx0 & Hp0) _].
  apply list_eq. intros i. rewrite list_lookup_fmap.
  destruct (decide (i = k)) as [->|Hne].
  - rewrite list_lookup_insert_eq by by eapply lookup_lt_Some.
    rewrite Hx0. simpl. by rewrite Hp0.
  - rewrite list_lookup_insert_ne by done.
    destruct (l !! i) as [y|] eqn:Hy; [|done]. simpl.
    destruct (p y) eqn:Hpy; [|done].
    exfalso. apply Hne. by apply (Huniq i k y x0).
Qed.

Lemma filter_all p l :
  Forall (fun x => p x = true) l -> List.filter p l = l.
Proof.
  induction 1 as [|x l Hx Hl IH]; simpl; [done|]. by rewrite Hx, IH.
Qed.

(** And splicing out the element at that index is removing every
    element that satisfies [p]. *)
Lemma delete_first_unique p l (k : nat) :
  findIndex p l = Some k ->
  (forall (i j : nat) x y,
     l !! i = Some x -> l !! j = Some y -> p x = true -> p y = true -> i = j) ->
  delete k l = List.filter (fun x => negb (p x)) l.
Proof.
  revert k. induction l as [|x l IH]; intros k; simpl; [done|].
  destruct (p x) eqn:Hx.
  - intros [= <-] Huniq. simpl. symmetry. apply filter_all.
    apply Forall_lookup_2. intros j y Hy.
    destruct (p y) eqn:Hpy; [|done].
    by specialize (Huniq 0%nat (S j) x y eq_refl Hy Hx Hpy).
  - destruct (findIndex p l) as [k'|] eqn:Hk'; simpl; [|done].
    intros [= <-] Huniq. simpl. f_equal. apply IH; [done|].
    intros i j y z Hy Hz Hpy Hpz.
    by specialize (Huniq (S i) (S j) y z Hy Hz Hpy Hpz) as [= ->].
Qed.

Lemma filter_Permutation_bool p l l' :
  l ≡ₚ l' -> List.filter p l ≡ₚ List.filter p l'.
Proof.
  induction 1 as [|x l l' Hl IH|x y l|l l' l'' Hl IH Hl' IH']; simpl.
  - done.
  - destruct (p x); [by constructor|done].
  - destruct (p x), (p y); try done. apply Permutation_swap.
  - by etrans.
Qed.

Lemma filter_fmap_bool {B : Type} (f : A -> B) p (q : B -> bool) l :
  Forall (fun x => q (f x) = p x) l ->
  List.filter q (f <$> l) = f <$> List.filter p l.
Proof.
  induction 1 as [|x l Hx Hl IH]; csimpl; [done|].
  rewrite Hx. destruct (p x); csimpl; by rewrite IH.
Qed.

End ListUpdates.

Section Readable.
Import Server Props.
Variable h : host.

(** What the create handler stores as the due date can be read by the
    comparator of the list. *)
Lemma dueDate_of_body_readable (o : option json) (v : value) :
  dueDate_of_body h o = Some v -> is_Some (dueTime h (Some v)).
Proof.
  unfold dueDate_of_body, dueTime.
  destruct o as [j|]; [|intros [= <-]; by eexists].
  destruct (truthy_json j); [|intros [= <-]; by eexists].
  destruct (new_Date_json h j) as [t|]; [|done]. intros [= <-]. by eexists.
Qed.

(** Every transition keeps the due dates of the fallback readable, as
    long as the body of an update brings none that cannot be read. *)
Lemma transition_readable (e : event) (r : option response) (st st' : state) :
  keeps_dates h e -> transition h st e r st' ->
  Forall (readable h) (inMemoryTasks st) -> Forall (readable h) (inMemoryTasks st').
Proof.
  intros He Ht Hst. destruct Ht; try done.
  - simpl. apply Forall_app. split; [done|]. constructor; [|constructor].
    unfold readable.
    change (created_task h b st s v !! "dueDate") with (Some v).
    by eapply dueDate_of_body_readable.
  - simpl. apply Forall_insert; [done|]. unfold readable.
    rewrite lookup_union. unfold update_payload.
    rewrite lookup_insert_ne, lookup_fmap by done. simpl in He.
    destruct (b !! "dueDate") as [j|]; simpl.
    + by destruct (t !! "dueDate").
    + match goal with Hi : inMemoryTasks st !! i = Some t |- _ =>
        pose proof (Forall_lookup_1 _ _ _ _ Hst Hi) as Hr end.
      unfold readable in Hr. by destruct (t !! "dueDate").
  - simpl. by apply Forall_delete.
Qed.

Lemma step_readable (e : event) (st : state) :
  keeps_dates h e -> Forall (readable h) (inMemoryTasks st) ->
  Forall (readable h) (inMemoryTasks (snd (step h e st))).
Proof. intros He. by eapply transition_readable; [|apply step_transition]. Qed.

Lemma run_readable (es : list event) (st : state) :
  Forall (keeps_dates h) es -> Forall (readable h) (inMemoryTasks st) ->
  Forall (readable h) (inMemoryTasks (snd (run h es st))).
Proof.
  intros Hes. revert st. induction Hes as [|e es He Hes IH]; intros st Hst.
  - by rewrite run_nil.
  - rewrite run_cons. simpl. apply IH. by apply step_readable.
Qed.

End Readable.

Section Sync.
Import Server Props Views Session.
Variable w : wire.
Variable h : host.

Lemma ok_iff (r : response) :
  ok r = true <-> 200 <= status r <= 299.
Proof. unfold ok. rewrite andb_true_iff, !Z.leb_le. done. Qed.

Lemma is_task_core (id : string) (t : gmap string json) :
  App.is_task id (core t) = App.is_task id t.
Proof. unfold App.is_task, core. by rewrite !lookup_delete_ne. Qed.

Lemma is_task_json (id s : string) (t : gmap string value) :
  t !! "_id" = Some (VJson (JStr s)) ->
  App.is_task id (core (task_json h t)) = has_id id t.
Proof.
  intros Hid. rewrite is_task_core. unfold App.is_task, has_id, task_json.
  by rewrite lookup_fmap, Hid.
Qed.

Lemma ids_given_string (st : state) (ns : list N) (t : gmap string value) :
  ids_given st ns -> t ∈ inMemoryTasks st ->
  exists s, t !! "_id" = Some (VJson (JStr s)).
Proof.
  intros (Hids & _ & _) (i & Hi)%list_elem_of_lookup_1.
  destruct (Forall2_lookup_l _ _ _ _ _ Hids Hi) as (n & _ & tm & Hid).
  by eexists.
Qed.

Lemma ids_given_is_task (st : state) (ns : list N) (id : string) :
  ids_given st ns ->
  Forall (fun t => App.is_task id (core (task_json h t)) = has_id id t)
    (inMemoryTasks st).
Proof.
  intros Hst. apply Forall_forall. intros t Ht.
  destruct (ids_given_string st ns t Hst Ht) as [s Hs].
  by eapply is_task_json.
Qed.

Lemma step_ids_given (e : event) (st : state) (ns : list N) :
  keeps_id e -> ids_given st ns -> exists ns', ids_given (snd (step h e st)) ns'.
Proof.
  intros He Hst. by eapply transition_ids_given; [|apply step_transition|].
Qed.

Lemma core_raised (z : json) (t : gmap string json) :
  core (<["__z" := z]> t) = core t.
Proof.
  unfold core. by rewrite delete_insert_ne, delete_insert_eq.
Qed.

Lemma core_moved (p : json) (t : gmap string json) :
  core (<["position" := p]> t) = core t.
Proof. unfold core. by rewrite delete_insert_eq. Qed.

Lemma filter_submseteq_bool {A : Type} (p : A -> bool) (l k : list A) :
  l ⊆+ k -> List.filter p l ⊆+ List.filter p k.
Proof.
  induction 1 as [|x l k _ IH|x y l|x l k _ IH|l k m _ IH1 _ IH2]; simpl.
  - done.
  - destruct (p x); [by constructor|done].
  - destruct (p x), (p y); try done. by constructor.
  - destruct (p x); [by apply submseteq_cons|done].
  - by etrans.
Qed.

(** The handlers keep the front end and the fallback related, for a
    relation that maps, filters and additions at the end keep: being
    the same tasks in some order, or being some of the tasks. *)
Section Held.
Variable R : relation (list (gmap string json)).
Hypothesis R_fmap :
  forall (f : gmap string json -> gmap string json) l k, R l k -> R (f <$> l) (f <$> k).
Hypothesis R_snoc : forall x l k, R l k -> R (l ++ [x]) (k ++ [x]).
Hypothesis R_filter :
  forall (p : gmap string json -> bool) l k, R l k -> R (List.filter p l) (List.filter p k).

Lemma addTask_held (payload : gmap string json)
  (text dueDate dueDay dueTime : string) (rx ry : Z) (c : client) (st : state) :
  numbered st -> held R h c st ->
  numbered (snd (addTask w h payload text dueDate dueDay dueTime rx ry c st)) /\
  held R h (fst (addTask w h payload text dueDate dueDay dueTime rx ry c st))
    (snd (addTask w h payload text dueDate dueDay dueTime rx ry c st)).
Proof.
  intros [Hmode [ns Hids]] Hsync. unfold addTask.
  destruct (App.addTask_request _ _ _ _ _ _ _ _) as [| |body] eqn:Hadd;
    [by repeat split; [|eexists|]..|].
  apply addTask_post in Hadd as (s & due & _ & Hs & Hbody & _).
  assert (text_accepted body s) as Hb.
  { apply posted_text_accepted; [|done]. by rewrite Hbody, lookup_insert_eq. }
  clear Hbody.
  pose proof (step_ids_given (POST_tasks body) st ns I Hids) as Hids'.
  simpl in Hids'.
  destruct (dueDate_of_body h (body !! "dueDate")) as [v|] eqn:Hv.
  - rewrite (post_tasks_fallback h body st s v Hb Hv Hmode) in Hids' |- *.
    simpl in *. split; [done|]. unfold held in *. simpl.
    rewrite !fmap_app. simpl. by apply R_snoc.
  - rewrite (post_tasks_fallback_thrown h body st s Hb Hv Hmode) in Hids' |- *.
    simpl in *. by split.
Qed.

Lemma update_held (id : string) (body : gmap string json)
  (c : client) (st : state) :
  body !! "_id" = None -> numbered st -> held R h c st ->
  numbered (snd (update w h id body c st)) /\
  held R h (fst (update w h id body c st)) (snd (update w h id body c st)).
Proof.
  intros Hbody [Hmode [ns Hids]] Hsync. unfold update.
  pose proof (step_ids_given (PUT_task id body) st ns Hbody Hids) as Hids'.
  simpl in Hids'.
  rewrite (put_task_fallback h id body st Hmode) in Hids' |- *.
  destruct (findIndex (has_id id) (inMemoryTasks st)) as [k|] eqn:Hk; simpl in *.
  - split; [done|]. unfold held in *. simpl.
    rewrite (insert_first_unique _ _ _ _ Hk)
      by (intros i j x y; by apply (ids_given_unique st ns id Hids)).
    unfold App.replace_task. rewrite <- !list_fmap_compose.
    set (u := update_payload h body st ∪ default ∅ (inMemoryTasks st !! k)).
    set (F := fun y : gmap string json =>
                if App.is_task id y then core (task_json h u) else y).
    assert (forall l : list (gmap string json),
              core ∘ (fun t => if App.is_task id t then task_json h u else t) <$> l
              = F <$> (core <$> l)) as ->.
    { intros l. rewrite <- list_fmap_compose. apply list_fmap_ext.
      intros i t _. unfold F. simpl. rewrite is_task_core.
      by destruct (App.is_task id t). }
    assert ((fun t => core (task_json h t)) ∘ (fun x => if has_id id x then u else x)
              <$> inMemoryTasks st
            = F <$> ((fun t => core (task_json h t)) <$> inMemoryTasks st)) as ->.
    { rewrite <- list_fmap_compose. apply Forall_fmap_ext.
      eapply Forall_impl; [by apply (ids_given_is_task st ns id)|].
      intros t Ht. unfold F. simpl. rewrite Ht. by destruct (has_id id t). }
    by apply R_fmap.
  - by split.
Qed.

Lemma deleteTask_held (id : string) (c : client) (st : state) :
  numbered st -> held R h c st ->
  numbered (snd (deleteTask h id c st)) /\
  held R h (fst (deleteTask h id c st)) (snd (deleteTask h id c st)).
Proof.
  intros [Hmode [ns Hids]] Hsync. unfold deleteTask.
  pose proof (step_ids_given (DELETE_task id) st ns I Hids) as Hids'.
  simpl in Hids'.
  rewrite (delete_task_fallback h id st Hmode) in Hids' |- *.
  destruct (findIndex (has_id id) (inMemoryTasks st)) as [k|] eqn:Hk; simpl in *.
  - split; [done|]. unfold held in *. simpl.
    rewrite (delete_first_unique _ _ _ Hk)
      by (intros i j x y; by apply (ids_given_unique st ns id Hids)).
    unfold App.remove_task.
    rewrite <- (filter_fmap_bool core _ (fun y => negb (App.is_task id y))).
    2:{ apply Forall_forall. intros t _. by rewrite is_task_core. }
    rewrite <- (filter_fmap_bool (fun t => core (task_json h t)) _
                  (fun y => negb (App.is_task id y))).
    2:{ eapply Forall_impl; [by apply (ids_given_is_task st ns id)|].
        intros t Ht. simpl in *. by rewrite Ht. }
    by apply R_filter.
  - by split.
Qed.

Lemma bringToFront_held (id : string) (c : client) (st : state) :
  held R h c st -> held R h (bringToFront id c) st.
Proof.
  unfold held. intros Hsync. simpl. unfold App.raise_task.
  rewrite <- list_fmap_compose.
  rewrite (list_fmap_ext _ core (tasks c)); [done|].
  intros i t _. simpl. destruct (App.is_task id t); [|done]. apply core_raised.
Qed.

Lemma onDrag_held (id : string) (x y : Z) (c : client) (st : state) :
  held R h c st -> held R h (onDrag id x y c) st.
Proof.
  unfold held. intros Hsync. simpl. unfold App.move_task.
  rewrite <- list_fmap_compose.
  rewrite (list_fmap_ext _ core (tasks c)); [done|].
  intros i t _. simpl. destruct (App.is_task id t); [|done]. apply core_moved.
Qed.

Lemma on_card_held (c : client) (card : nat)
  (handler : string -> gmap string json -> client * state) (st : state) :
  numbered st -> held R h c st ->
  (forall id t, numbered (snd (handler id t)) /\
                held R h (fst (handler id t)) (snd (handler id t))) ->
  numbered (snd (on_card c card handler st)) /\
  held R h (fst (on_card c card handler st)) (snd (on_card c card handler st)).
Proof.
  intros Hst Hsync Hh. unfold on_card. by repeat case_match.
Qed.

Lemma saveEdit_body (editText editDue : string) (body : gmap string json) :
  App.saveEdit_request editText editDue = Some body ->
  body !! "_id" = None /\
  exists j, body !! "dueDate" = Some j /\ (j = JNull \/ exists s, j = JStr s).
Proof.
  unfold App.saveEdit_request.
  destruct (String.eqb (trim editText) ""); [done|]. intros [= <-].
  split; [by rewrite lookup_insert_ne, lookup_singleton_ne|].
  rewrite lookup_insert_eq. eexists. split; [done|].
  destruct (String.eqb editDue ""); [by left|right; by eexists].
Qed.

(** Whatever the user does but load the list again. *)
Lemma act_held (a : action) (c : client) (st : state) :
  a <> Load -> numbered st -> held R h c st ->
  numbered (snd (act w h a (c, st))) /\
  held R h (fst (act w h a (c, st))) (snd (act w h a (c, st))).
Proof.
  intros Ha Hst Hsync. destruct a; simpl.
  - done.
  - done.
  - by apply addTask_held.
  - unfold retryLastAdd. destruct (lastAddPayload c); [|done].
    by apply addTask_held.
  - apply on_card_held; [done..|]. intros id t. by apply update_held.
  - apply on_card_held; [done..|]. intros id t. by apply deleteTask_held.
  - apply on_card_held; [done..|]. intros id t. unfold saveEdit.
    destruct (App.saveEdit_request editText editDue) as [body|] eqn:Hbody; [|done].
    apply update_held; [|done..]. by apply saveEdit_body in Hbody as [? _].
  - apply on_card_held; [done..|]. intros id t. split; [done|].
    by apply bringToFront_held.
  - apply on_card_held; [done..|]. intros id t. split; [done|].
    by apply onDrag_held.
  - apply on_card_held; [done..|]. intros id t. by apply update_held.
Qed.

End Held.

(** What the user does keeps the due dates of the fallback readable:
    the front end sends a due date as a string or as [null]. *)
Lemma act_readable (a : action) (c : client) (st : state) :
  Forall (readable h) (inMemoryTasks st) ->
  Forall (readable h) (inMemoryTasks (snd (act w h a (c, st)))).
Proof.
  intros Hst.
  assert (forall id body,
            is_Some (dueTime h (VJson <$> body !! "dueDate")) ->
            Forall (readable h) (inMemoryTasks (snd (update w h id body c st))))
    as Hupdate.
  { intros id body Hbody. unfold update.
    pose proof (step_readable h (PUT_task id body) st Hbody Hst) as Hr.
    simpl in Hr. by destruct (put_task h id body st). }
  assert (forall payload text dueDate dueDay dueTime rx ry,
            Forall (readable h)
              (inMemoryTasks
                 (snd (addTask w h payload text dueDate dueDay dueTime rx ry c st))))
    as Hadd.
  { intros payload text dueDate dueDay dueTime rx ry. unfold addTask.
    destruct (App.addTask_request _ _ _ _ _ _ _ _) as [| |body]; [done..|].
    pose proof (step_readable h (POST_tasks body) st I Hst) as Hr.
    simpl in Hr. destruct (post_tasks h body st) as [r st'].
    by destruct (ok r). }
  destruct a; simpl.
  - unfold fetchTasks. pose proof (get_tasks_state h st) as Hs.
    destruct (get_tasks h st). simpl in *. by subst.
  - done.
  - apply Hadd.
  - unfold retryLastAdd. destruct (lastAddPayload c); [|done]. apply Hadd.
  - unfold on_card. repeat case_match; try done. apply Hupdate. by eexists.
  - unfold on_card. repeat case_match; try done. unfold deleteTask.
    match goal with |- context [delete_task h ?id st] =>
      pose proof (step_readable h (DELETE_task id) st I Hst) as Hr;
      simpl in Hr; by destruct (delete_task h id st) end.
  - unfold on_card. repeat case_match; try done. unfold saveEdit.
    destruct (App.saveEdit_request editText editDue) as [body|] eqn:Hbody; [|done].
    apply Hupdate.
    apply saveEdit_body in Hbody as (_ & due & -> & [->|[day ->]]); simpl.
    + by eexists.
    + unfold dueTime. simpl. destruct (negb _); by eexists.
  - unfold on_card. by repeat case_match.
  - unfold on_card. by repeat case_match.
  - unfold on_card. repeat case_match; try done. apply Hupdate. by eexists.
Qed.

(** Loading the list when every due date can be read. *)
Lemma fetchTasks_in_sync (c : client) (st : state) :
  readyState st <> 1 -> Forall (readable h) (inMemoryTasks st) ->
  snd (fetchTasks w h c st) = st /\ in_sync h (fst (fetchTasks w h c st)) st.
Proof.
  intros Hmode Hread. unfold fetchTasks.
  pose proof (get_tasks_readable h st Hmode Hread) as Hr.
  pose proof (get_tasks_state h st) as Hs.
  destruct (get_tasks h st) as [r st']. simpl in *. subst r st'. simpl.
  split; [done|]. unfold in_sync. simpl.
  rewrite <- list_fmap_compose. apply fmap_Permutation. apply sort_stable_perm.
Qed.

(** Loading the list in any case: when the comparator throws, the
    front end is left without tasks. *)
Lemma fetchTasks_in_part (c : client) (st : state) :
  readyState st <> 1 ->
  snd (fetchTasks w h c st) = st /\ in_part h (fst (fetchTasks w h c st)) st.
Proof.
  intros Hmode. unfold fetchTasks.
  pose proof (get_tasks_fallback h st Hmode) as Hr.
  pose proof (get_tasks_state h st) as Hs.
  destruct (get_tasks h st) as [r st']. simpl in *. subst r st'.
  split; [done|]. unfold in_part.
  destruct (Array_sort (compareTasks h) (inMemoryTasks st)) as [ts|] eqn:Hts; simpl.
  - rewrite <- list_fmap_compose. apply Permutation_submseteq.
    apply fmap_Permutation. by apply (Array_sort_perm (compareTasks h)).
  - apply submseteq_nil_l.
Qed.

Lemma act_in_step (a : action) (c : client) (st : state) :
  in_step h c st -> in_step h (fst (act w h a (c, st))) (snd (act w h a (c, st))).
Proof.
  intros (Hst & Hread & Hsync).
  assert (a = Load \/ a <> Load) as [->|Ha] by (destruct a; (by left) || (by right)).
  - change (act w h Load (c, st)) with (fetchTasks w h c st).
    destruct Hst as [Hmode Hids].
    destruct (fetchTasks_in_sync c st Hmode Hread) as [-> Hsync'].
    by repeat split.
  - pose proof (act_readable a c st Hread) as Hread'.
    destruct (act_held (≡ₚ) (fun f l k => fmap_Permutation f l k)
                (fun x l k H => Permutation_app H (Permutation_refl [x]))
                (fun p l k => filter_Permutation_bool p l k) a c st Ha Hst Hsync)
      as [Hst' Hsync'].
    split; [done|]. split; [done|]. exact Hsync'.
Qed.

Lemma act_in_part (a : action) (c : client) (st : state) :
  numbered st -> in_part h c st ->
  numbered (snd (act w h a (c, st))) /\
  in_part h (fst (act w h a (c, st))) (snd (act w h a (c, st))).
Proof.
  intros Hst Hsync.
  assert (a = Load \/ a <> Load) as [->|Ha] by (destruct a; (by left) || (by right)).
  - change (act w h Load (c, st)) with (fetchTasks w h c st).
    destruct (fetchTasks_in_part c st (proj1 Hst)) as [-> Hsync']. by split.
  - apply (act_held submseteq (fun f l k => fmap_submseteq f l k)
             (fun x l k H => submseteq_app l k [x] [x] H (reflexivity [x]))
             (fun p l k => filter_submseteq_bool p l k) a c st Ha Hst Hsync).
Qed.

Lemma session_cons (a : action) (l : list action) (s : client * state) :
  session w h (a :: l) s = session w h l (act w h a s).
Proof. reflexivity. Qed.

Lemma session_in_step (l : list action) (c : client) (st : state) :
  in_step h c st ->
  in_step h (fst (session w h l (c, st))) (snd (session w h l (c, st))).
Proof.
  revert c st. induction l as [|a l IH]; intros c st Hst; [done|].
  rewrite session_cons.
  pose proof (act_in_step a c st Hst) as Hst'.
  destruct (act w h a (c, st)) as [c' st']. by apply IH.
Qed.

Lemma session_in_part (l : list action) (c : client) (st : state) :
  numbered st -> in_part h c st ->
  numbered (snd (session w h l (c, st))) /\
  in_part h (fst (session w h l (c, st))) (snd (session w h l (c, st))).
Proof.
  revert c st. induction l as [|a l IH]; intros c st Hst Hsync; [done|].
  rewrite session_cons.
  pose proof (act_in_part a c st Hst Hsync) as [Hst' Hsync'].
  destruct (act w h a (c, st)) as [c' st']. by apply IH.
Qed.

Lemma run_given (es : list event) :
  Forall keeps_id es -> exists ns, ids_given (snd (run h es init)) ns.
Proof.
  intros Hes. apply (run_ids_given h es init []); [done|].
  split; [constructor|]. split; constructor.
Qed.

(** The front end keeps up with the in-memory list.  Take a server on
    the fallback, after any sequence of events in which no update
    carried an [_id] or a due date that [new Date] cannot convert, and
    a front end in any state.  Once the front end has loaded the list,
    and whatever the user then does (load again, add, retry, complete
    or reopen, edit, drag, delete), the front end holds exactly the
    tasks of the in-memory list, in some order, each with all its
    properties but the position of the card being dragged and the
    [__z] the front end adds. *)
Theorem board_in_sync (es : list event) (c : client) (l : list action) :
  Forall keeps_id es -> Forall (keeps_dates h) es ->
  readyState (snd (run h es init)) <> 1 ->
  let s := session w h (Load :: l) (c, snd (run h es init)) in
  in_sync h (fst s) (snd s) /\ readyState (snd s) <> 1.
Proof.
  intros Hes Hdates Hmode s.
  assert (in_step h (fst s) (snd s)) as ([? _] & _ & ?); [|done].
  unfold s. rewrite session_cons.
  change (act w h Load (c, snd (run h es init)))
    with (fetchTasks w h c (snd (run h es init))).
  assert (Forall (readable h) (inMemoryTasks (snd (run h es init)))) as Hread.
  { apply run_readable; [done|]. constructor. }
  destruct (fetchTasks_in_sync c _ Hmode Hread) as [Hs Hsync].
  destruct (fetchTasks w h c _) as [c' st']. simpl in Hs, Hsync. subst st'.
  apply session_in_step. split; [|by split]. split; [done|]. by apply run_given.
Qed.

Lemma core_id (t : gmap string json) : core t !! "_id" = t !! "_id".
Proof. unfold core. by rewrite !lookup_delete_ne. Qed.

(** Every card of a front end that holds tasks of the list shows one of
    them, under its id. *)
Lemma in_part_card (c : client) (st : state) (card : nat) (t : gmap string json) :
  numbered st -> in_part h c st -> tasks c !! card = Some t ->
  exists (id : string) (s : gmap string value),
    t !! "_id" = Some (JStr id) /\ s ∈ inMemoryTasks st /\ has_id id s = true.
Proof.
  intros (_ & [ns Hids]) Hsync Ht.
  assert (core t ∈ core <$> tasks c) as Hin.
  { apply list_elem_of_fmap. exists t. split; [done|]. by eapply list_elem_of_lookup_2. }
  unfold in_part in Hsync. apply (elem_of_submseteq _ _ _ Hin) in Hsync.
  apply list_elem_of_fmap in Hsync as (s & Heq & Hs).
  destruct (ids_given_string st ns s Hids Hs) as [id Hid].
  exists id, s. split; [|split; [done|]].
  - rewrite <- core_id, Heq, core_id. unfold task_json. by rewrite lookup_fmap, Hid.
  - unfold has_id. rewrite Hid. apply String.eqb_refl.
Qed.

Lemma in_part_keys (c : client) (st : state) :
  numbered st -> in_part h c st ->
  NoDup ((fun t : gmap string json => t !! "_id") <$> tasks c).
Proof.
  intros (_ & [ns Hids]) Hsync.
  assert ((fun t : gmap string json => t !! "_id") <$> tasks c
          = (fun t : gmap string json => t !! "_id") <$> (core <$> tasks c)) as ->.
  { rewrite <- list_fmap_compose. apply list_fmap_ext. intros i t _. simpl.
    by rewrite core_id. }
  unfold in_part in Hsync.
  apply (fmap_submseteq (fun t : gmap string json => t !! "_id")) in Hsync.
  apply submseteq_Permutation in Hsync as [rest Hsync].
  assert (NoDup ((fun t : gmap string json => t !! "_id")
                   <$> ((fun t => core (task_json h t)) <$> inMemoryTasks st)))
    as Hnodup.
  { rewrite <- list_fmap_compose.
    apply NoDup_alt. intros i j o Hi Hj.
    apply list_lookup_fmap_Some in Hi as (s1 & -> & H1).
    apply list_lookup_fmap_Some in Hj as (s2 & Heq & H2). simpl in Heq.
    rewrite !core_id in Heq. unfold task_json in Heq. rewrite !lookup_fmap in Heq.
    destruct (ids_given_string st ns s1 Hids) as [id1 Hid1];
      [by eapply list_elem_of_lookup_2|].
    destruct (ids_given_string st ns s2 Hids) as [id2 Hid2];
      [by eapply list_elem_of_lookup_2|].
    rewrite Hid1, Hid2 in Heq. simpl in Heq. injection Heq as ->.
    apply (ids_given_unique st ns id2 Hids i j s1 s2 H1 H2).
    - unfold has_id. rewrite Hid1. apply String.eqb_refl.
    - unfold has_id. rewrite Hid2. apply String.eqb_refl. }
  rewrite Hsync in Hnodup. by apply NoDup_app in Hnodup as [? _].
Qed.

Lemma has_id_found (id : string) (s : gmap string value) (st : state) :
  s ∈ inMemoryTasks st -> has_id id s = true ->
  existsb (has_id id) (inMemoryTasks st) = true.
Proof.
  intros Hs Hid. apply existsb_exists. exists s. split; [|done].
  by apply list_elem_of_In.
Qed.

(** In such a session every card stands for a stored task.  The ids of
    the tasks the front end holds are pairwise distinct (they are the
    keys of the cards), each is a string, and reading, updating or
    deleting the task of a card is answered with 200: on the fallback
    the front end never asks for a task that is not there. *)
Theorem cards_answered (es : list event) (c : client) (l : list action) :
  Forall keeps_id es ->
  readyState (snd (run h es init)) <> 1 ->
  let s := session w h (Load :: l) (c, snd (run h es init)) in
  NoDup ((fun t : gmap string json => t !! "_id") <$> tasks (fst s)) /\
  (forall (card : nat) (t : gmap string json),
     tasks (fst s) !! card = Some t ->
     exists id : string,
       t !! "_id" = Some (JStr id) /\
       status (fst (get_task h id (snd s))) = 200 /\
       (forall body, status (fst (put_task h id body (snd s))) = 200) /\
       status (fst (delete_task h id (snd s))) = 200).
Proof.
  intros Hes Hmode s.
  assert (numbered (snd s) /\ in_part h (fst s) (snd s)) as [Hst Hsync].
  { unfold s. rewrite session_cons.
    change (act w h Load (c, snd (run h es init)))
      with (fetchTasks w h c (snd (run h es init))).
    destruct (fetchTasks_in_part c _ Hmode) as [Hs Hsync].
    destruct (fetchTasks w h c _) as [c' st']. simpl in Hs, Hsync. subst st'.
    apply session_in_part; [|done]. split; [done|]. by apply run_given. }
  split; [by eapply in_part_keys|]. intros card t Ht.
  destruct (in_part_card _ _ _ _ Hst Hsync Ht) as (id & s0 & Hid & Hs0 & Hhas).
  pose proof (has_id_found id s0 _ Hs0 Hhas) as Hfound.
  exists id. split; [done|].
  apply (found_answered h id (snd s) (proj1 Hst) Hfound).
Qed.

End Sync.

Section SyncExamples.
Import Server Sample Props Views Session SampleSession.

Lemma board_in_sync_witness :
  let s := session sample_wire sample_host (Load :: morning)
             (opened, snd (run sample_host [POST_tasks milk] init)) in
  in_sync sample_host (fst s) (snd s) /\ readyState (snd s) <> 1.
Proof.
  apply (board_in_sync sample_wire sample_host [POST_tasks milk] opened morning).
  - repeat constructor.
  - repeat constructor.
  - discriminate.
Defined.

Lemma cards_answered_witness :
  let s := session sample_wire sample_host (Load :: morning)
             (opened, snd (run sample_host [POST_tasks milk] init)) in
  NoDup ((fun t : gmap string json => t !! "_id") <$> tasks (fst s)) /\
  (forall (card : nat) (t : gmap string json),
     tasks (fst s) !! card = Some t ->
     exists id : string,
       t !! "_id" = Some (JStr id) /\
       status (fst (get_task sample_host id (snd s))) = 200 /\
       (forall body, status (fst (put_task sample_host id body (snd s))) = 200) /\
       status (fst (delete_task sample_host id (snd s))) = 200).
Proof.
  apply (cards_answered sample_wire sample_host [POST_tasks milk] opened morning).
  - repeat constructor.
  - discriminate.
Defined.

(** At the end of the morning one card is left, the one that was
    dragged. *)
Example morning_cards :
  (fun t : gmap string json => (t !! "text", t !! "position"))
    <$> tasks (fst (session sample_wire sample_host (Load :: morning)
                      (opened, snd (run sample_host [POST_tasks milk] init))))
  = [(Some (JStr "eggs"), Some (App.point (40, 50)))].
Proof. vm_compute. reflexivity. Qed.

(** An update stored a due date that [new Date] cannot convert: the
    list is answered with 500, and the front end that loads it is left
    without the two tasks of the in-memory list. *)
Example stubborn_list :
  let st := snd (run sample_host
                   [POST_tasks milk; POST_tasks bread;
                    PUT_task "1700000000000-1" undate] init) in
  status (fst (get_tasks sample_host st)) = 500 /\
  tasks (fst (fetchTasks sample_wire sample_host opened st)) = [] /\
  length (inMemoryTasks (snd (fetchTasks sample_wire sample_host opened st))) = 2%nat.
Proof. vm_compute. by repeat split. Qed.

End SyncExamples.

(* ================================================================== *)
(** ** The front end and the collection stay in step *)
(* ================================================================== *)

Section SyncDb.
Import Server Props Views Session.
Variable w : wire.
Variable h : host.
Hypothesis ids : id_round_trip w h.

Lemma is_task_doc (id : string) (k : N) (d : doc) :
  App.is_task id (doc_core w (k, d)) = String.eqb (ObjectId_toString w k) id.
Proof.
  unfold doc_core. rewrite is_task_core. unfold App.is_task. simpl.
  by rewrite (proj1 (ids k d)).
Qed.

Lemma is_task_key (id : string) (k k0 : N) (d : doc) :
  castObjectId h (JStr id) = Some k0 ->
  App.is_task id (doc_core w (k, d)) = true -> k = k0.
Proof.
  intros Hid. rewrite is_task_doc. intros <-%String.eqb_eq.
  rewrite (proj2 (ids k d)) in Hid. by injection Hid.
Qed.

Lemma step_fresh_ids (e : event) (st : state) :
  fresh_ids st -> fresh_ids (snd (step h e st)).
Proof. intros Hst. by eapply transition_fresh_ids; [apply step_transition|]. Qed.

(** In step, a card shows a document of the collection, under the
    string of its ObjectId. *)
Lemma in_step_db_card (c : client) (st : state) (t : gmap string json) (id : string) :
  in_step_db w c st -> t ∈ tasks c -> t !! "_id" = Some (JStr id) ->
  exists (k : N) (d : doc),
    collection st !! k = Some d /\ id = ObjectId_toString w k /\
    castObjectId h (JStr id) = Some k.
Proof.
  intros (_ & _ & Hsync) Ht Hid.
  assert (core t ∈ core <$> tasks c) as Hin.
  { apply list_elem_of_fmap. by exists t. }
  unfold in_sync_db in Hsync. rewrite Hsync in Hin.
  apply list_elem_of_fmap in Hin as ([k d] & Heq & Hkd).
  apply elem_of_map_to_list in Hkd. exists k, d. split; [done|].
  assert (id = ObjectId_toString w k) as ->.
  { rewrite <- core_id, Heq in Hid. unfold doc_core in Hid.
    rewrite core_id in Hid. simpl in Hid.
    rewrite (proj1 (ids k d)) in Hid. by injection Hid. }
  split; [done|]. apply (proj2 (ids k d)).
Qed.

(** The other documents do not answer to the id. *)
Lemma others_not_task (id : string) (k0 : N) (m : gmap N doc) :
  castObjectId h (JStr id) = Some k0 ->
  Forall (fun kd => App.is_task id (doc_core w kd) = false)
    (map_to_list (delete k0 m)).
Proof.
  intros Hid. apply Forall_forall. intros [k d] Hkd.
  apply elem_of_map_to_list in Hkd.
  destruct (App.is_task id (doc_core w (k, d))) eqn:Htask; [exfalso|done].
  apply (is_task_key id k k0 d Hid) in Htask. subst k.
  by rewrite lookup_delete_eq in Hkd.
Qed.

Lemma fetchTasks_in_step_db (c : client) (st : state) :
  readyState st = 1 -> fresh_ids st ->
  in_step_db w (fst (fetchTasks w h c st)) (snd (fetchTasks w h c st)).
Proof.
  intros Hmode Hfresh. unfold fetchTasks.
  pose proof (get_tasks_durable h st Hmode) as Hr.
  pose proof (get_tasks_state h st) as Hs.
  destruct (get_tasks h st) as [r st']. simpl in *. subst r st'. simpl.
  split; [done|]. split; [done|]. unfold in_sync_db. simpl.
  rewrite <- list_fmap_compose. apply fmap_Permutation, sort_stable_perm.
Qed.

Lemma addTask_in_step_db (payload : gmap string json)
  (text dueDate dueDay dueTime : string) (rx ry : Z) (c : client) (st : state) :
  in_step_db w c st ->
  in_step_db w (fst (addTask w h payload text dueDate dueDay dueTime rx ry c st))
               (snd (addTask w h payload text dueDate dueDay dueTime rx ry c st)).
Proof.
  intros (Hmode & Hfresh & Hsync). unfold addTask.
  destruct (App.addTask_request _ _ _ _ _ _ _ _) as [| |body] eqn:Hadd;
    [by repeat split..|].
  apply addTask_post in Hadd as (s & due0 & _ & Hs & Hbody & _).
  assert (text_accepted body s) as Hb.
  { apply posted_text_accepted; [|done]. by rewrite Hbody, lookup_insert_eq. }
  clear Hbody.
  pose proof (step_fresh_ids (POST_tasks body) st Hfresh) as Hfresh'.
  simpl in Hfresh'.
  rewrite (post_tasks_durable h body st s Hb Hmode) in Hfresh' |- *.
  destruct (dueDate_of_body h _) as [v|]; [|by repeat split].
  destruct (cast_Date h _) as [due|]; [|by repeat split].
  destruct (castPosition h _) as [pos|]; [|by repeat split].
  simpl in *. split; [done|]. split; [done|].
  unfold in_sync_db in *. simpl. rewrite fmap_app. simpl.
  rewrite map_to_list_insert.
  - rewrite fmap_cons. simpl.
    rewrite <- Permutation_cons_append. by constructor.
  - destruct (collection st !! objectIds st) as [d|] eqn:Hd; [|done].
    assert (objectIds st < objectIds st)%N by (apply Hfresh; by eexists). lia.
Qed.

Lemma update_in_step_db (id : string) (body : gmap string json)
  (c : client) (st : state) (t : gmap string json) :
  t ∈ tasks c -> t !! "_id" = Some (JStr id) ->
  in_step_db w c st ->
  in_step_db w (fst (update w h id body c st)) (snd (update w h id body c st)).
Proof.
  intros Ht Hid Hst.
  destruct (in_step_db_card c st t id Hst Ht Hid) as (k0 & d0 & Hd0 & -> & Hcast).
  destruct Hst as (Hmode & Hfresh & Hsync). unfold update.
  pose proof (step_fresh_ids (PUT_task (ObjectId_toString w k0) body) st Hfresh)
    as Hfresh'.
  simpl in Hfresh'.
  rewrite (put_task_durable h _ body st Hmode) in Hfresh' |- *.
  destruct (fst (prepare_update _ _ _ _)) as [[[k c0] upd]|e] eqn:Hp;
    [|by repeat split].
  apply prepare_update_id in Hp. rewrite Hcast in Hp. injection Hp as <-.
  rewrite Hd0 in Hfresh' |- *.
  destruct (match set_id c0 with Some k' => (k' =? k0)%N | None => true end);
    [|by repeat split].
  destruct (operated _ _ _) as [e|d1]; [by repeat split|].
  simpl in *. split; [done|]. split; [done|].
  unfold in_sync_db in *. simpl.
  set (d' := apply_changes c0 (default (updatedAt d1) upd) d1).
  unfold App.replace_task. rewrite <- list_fmap_compose.
  set (F := fun y : gmap string json =>
              if App.is_task (ObjectId_toString w k0) y then doc_core w (k0, d') else y).
  assert (forall l : list (gmap string json),
            core ∘ (fun t => if App.is_task (ObjectId_toString w k0) t
                             then document_toJSON w k0 d' else t) <$> l
            = F <$> (core <$> l)) as ->.
  { intros l. rewrite <- list_fmap_compose. apply list_fmap_ext.
    intros i x _. unfold F. simpl. rewrite is_task_core.
    by destruct (App.is_task _ x). }
  rewrite Hsync. fold (doc_core w).
  rewrite <- (insert_delete_eq (collection st)).
  rewrite map_to_list_insert by apply lookup_delete_eq.
  rewrite <- (map_to_list_delete (collection st) k0 d0 Hd0).
  rewrite !fmap_cons. unfold F at 1. rewrite is_task_doc, String.eqb_refl.
  constructor.
  rewrite <- list_fmap_compose.
  rewrite (proj1 (Forall_fmap_ext (F ∘ (doc_core w)) (doc_core w) _)); [done|].
  eapply Forall_impl; [by apply (others_not_task _ k0 _ Hcast)|].
  intros kd Hkd. unfold F. simpl. by rewrite Hkd.
Qed.

Lemma deleteTask_in_step_db (id : string) (c : client) (st : state)
  (t : gmap string json) :
  t ∈ tasks c -> t !! "_id" = Some (JStr id) ->
  in_step_db w c st ->
  in_step_db w (fst (deleteTask h id c st)) (snd (deleteTask h id c st)).
Proof.
  intros Ht Hid Hst.
  destruct (in_step_db_card c st t id Hst Ht Hid) as (k0 & d0 & Hd0 & -> & Hcast).
  destruct Hst as (Hmode & Hfresh & Hsync). unfold deleteTask.
  pose proof (step_fresh_ids (DELETE_task (ObjectId_toString w k0)) st Hfresh)
    as Hfresh'.
  simpl in Hfresh'.
  rewrite (delete_task_durable h _ st Hmode) in Hfresh' |- *.
  rewrite Hcast, Hd0 in Hfresh' |- *.
  simpl in *. split; [done|]. split; [done|].
  unfold in_sync_db in *. simpl. unfold App.remove_task.
  rewrite <- (filter_fmap_bool core _
                (fun y => negb (App.is_task (ObjectId_toString w k0) y))).
  2:{ apply Forall_forall. intros x _. by rewrite is_task_core. }
  etrans; [apply filter_Permutation_bool, Hsync|]. fold (doc_core w).
  etrans.
  { apply filter_Permutation_bool. symmetry.
    apply fmap_Permutation, (map_to_list_delete _ k0 d0 Hd0). }
  rewrite fmap_cons. simpl. rewrite is_task_doc, String.eqb_refl. simpl.
  rewrite filter_all; [done|].
  apply Forall_fmap. eapply Forall_impl; [by apply (others_not_task _ k0 _ Hcast)|].
  intros kd Hkd. simpl. by rewrite Hkd.
Qed.

Lemma bringToFront_in_step_db (id : string) (c : client) (st : state) :
  in_step_db w c st -> in_step_db w (bringToFront id c) st.
Proof.
  intros (Hmode & Hids & Hsync). split; [done|]. split; [done|].
  unfold in_sync_db in *. simpl. unfold App.raise_task.
  rewrite <- list_fmap_compose.
  rewrite (list_fmap_ext _ core (tasks c)); [done|].
  intros i t _. simpl. destruct (App.is_task id t); [|done]. apply core_raised.
Qed.

Lemma onDrag_in_step_db (id : string) (x y : Z) (c : client) (st : state) :
  in_step_db w c st -> in_step_db w (onDrag id x y c) st.
Proof.
  intros (Hmode & Hids & Hsync). split; [done|]. split; [done|].
  unfold in_sync_db in *. simpl. unfold App.move_task.
  rewrite <- list_fmap_compose.
  rewrite (list_fmap_ext _ core (tasks c)); [done|].
  intros i t _. simpl. destruct (App.is_task id t); [|done]. apply core_moved.
Qed.

Lemma on_card_in_step_db (c : client) (card : nat)
  (handler : string -> gmap string json -> client * state) (st : state) :
  in_step_db w c st ->
  (forall id t, t ∈ tasks c -> t !! "_id" = Some (JStr id) ->
     in_step_db w (fst (handler id t)) (snd (handler id t))) ->
  in_step_db w (fst (on_card c card handler st)) (snd (on_card c card handler st)).
Proof.
  intros Hst Hh. unfold on_card.
  destruct (tasks c !! card) as [t|] eqn:Ht; [|done].
  destruct (t !! "_id") as [[| | |id| |]|] eqn:Hid; try done.
  apply Hh; [|done]. by eapply list_elem_of_lookup_2.
Qed.

Lemma act_in_step_db (a : action) (c : client) (st : state) :
  in_step_db w c st ->
  in_step_db w (fst (act w h a (c, st))) (snd (act w h a (c, st))).
Proof.
  intros Hst. pose proof Hst as (Hmode & Hfresh & Hsync).
  destruct a; simpl.
  - by apply fetchTasks_in_step_db.
  - done.
  - by apply addTask_in_step_db.
  - unfold retryLastAdd. destruct (lastAddPayload c); [|done].
    by apply addTask_in_step_db.
  - apply on_card_in_step_db; [done|]. intros id t Ht Hid.
    by apply (update_in_step_db _ _ _ _ t).
  - apply on_card_in_step_db; [done|]. intros id t Ht Hid.
    by apply (deleteTask_in_step_db _ _ _ t).
  - apply on_card_in_step_db; [done|]. intros id t Ht Hid. unfold saveEdit.
    destruct (App.saveEdit_request editText editDue) as [body|]; [|done].
    by apply (update_in_step_db _ _ _ _ t).
  - apply on_card_in_step_db; [done|]. intros id t _ _.
    by apply bringToFront_in_step_db.
  - apply on_card_in_step_db; [done|]. intros id t _ _.
    by apply onDrag_in_step_db.
  - apply on_card_in_step_db; [done|]. intros id t Ht Hid.
    by apply (update_in_step_db _ _ _ _ t).
Qed.

Lemma session_in_step_db (l : list action) (c : client) (st : state) :
  in_step_db w c st ->
  in_step_db w (fst (session w h l (c, st))) (snd (session w h l (c, st))).
Proof.
  revert c st. induction l as [|a l IH]; intros c st Hst; [done|].
  rewrite session_cons.
  pose proof (act_in_step_db a c st Hst) as Hst'.
  destruct (act w h a (c, st)) as [c' st']. by apply IH.
Qed.

(** The front end keeps up with the collection.  Take a server on the
    database after any sequence of events, a front end in any state,
    and responses in which a document carries its [_id] as a string
    that casts back to its ObjectId.  Once the front end has loaded the
    list, and whatever the user then does, the front end holds exactly
    the documents of the collection, in some order, each with all its
    properties but the position of the card being dragged and the
    [__z] the front end adds. *)
Theorem board_in_sync_db (es : list event) (c : client) (l : list action) :
  readyState (snd (run h es init)) = 1 ->
  let s := session w h (Load :: l) (c, snd (run h es init)) in
  in_sync_db w (fst s) (snd s) /\ readyState (snd s) = 1.
Proof.
  intros Hmode s.
  assert (in_step_db w (fst s) (snd s)) as (? & _ & ?); [|done].
  unfold s. rewrite session_cons.
  change (act w h Load (c, snd (run h es init)))
    with (fetchTasks w h c (snd (run h es init))).
  assert (fresh_ids (snd (run h es init))) as Hfresh.
  { apply run_fresh_ids. intros k [d Hd]. simpl in Hd. by rewrite lookup_empty in Hd. }
  pose proof (fetchTasks_in_step_db c _ Hmode Hfresh) as Hst.
  destruct (fetchTasks w h c _) as [c' st']. by apply session_in_step_db.
Qed.

End SyncDb.

Section SyncDbExamples.
Import Server Sample Props Views Session SampleSession.

Lemma digit_pretty_N_char (x : N) :
  (x < 10)%N -> Ascii.is_nat (pretty_N_char x) = Some (N.to_nat x).
Proof.
  intros Hx.
  assert (x = 0 \/ x = 1 \/ x = 2 \/ x = 3 \/ x = 4 \/ x = 5 \/ x = 6 \/
          x = 7 \/ x = 8 \/ x = 9)%N as Hcases by lia.
  repeat (destruct Hcases as [->|Hcases]; [reflexivity|]). by subst.
Qed.

Lemma parse_go_pretty_N_go (x : N) (s : string) :
  parse_go (pretty_N_go x s) 0 = parse_go s x.
Proof.
  revert s. induction (N.lt_wf_0 x) as [x _ IH]; intros s.
  destruct (decide (x = 0)%N) as [->|Hx]; [by rewrite pretty_N_go_0|].
  rewrite pretty_N_go_step by lia. rewrite IH by (apply N.div_lt; lia).
  simpl. rewrite digit_pretty_N_char by (apply N.mod_lt; lia).
  f_equal. pose proof (N.div_mod x 10). lia.
Qed.

Lemma pretty_N_go_filled (y : N) (c : ascii) (s : string) :
  pretty_N_go y (String c s) <> "".
Proof.
  revert c s. induction (N.lt_wf_0 y) as [y _ IH]; intros c s.
  destruct (decide (y = 0)%N) as [->|Hy]; [by rewrite pretty_N_go_0|].
  rewrite pretty_N_go_step by lia. apply IH. apply N.div_lt; lia.
Qed.

(** A number written in decimal reads back as itself. *)
Lemma parse_N_pretty (k : N) : parse_N (pretty k) = Some k.
Proof.
  unfold pretty, pretty_N. case_decide as Hk; [by subst|].
  unfold parse_N. destruct (pretty_N_go k "") eqn:Hs.
  - rewrite pretty_N_go_step in Hs by lia. by apply pretty_N_go_filled in Hs.
  - rewrite <- Hs. apply parse_go_pretty_N_go.
Qed.

Lemma db_round_trip : id_round_trip sample_wire db_host.
Proof. intros k d. split; [reflexivity|]. apply parse_N_pretty. Qed.

Lemma board_in_sync_db_witness :
  let s := session sample_wire db_host (Load :: morning)
             (opened, snd (run db_host [Connection 1; POST_tasks milk] init)) in
  in_sync_db sample_wire (fst s) (snd s) /\ readyState (snd s) = 1.
Proof.
  apply (board_in_sync_db sample_wire db_host db_round_trip
           [Connection 1; POST_tasks milk] opened morning).
  reflexivity.
Defined.

End SyncDbExamples.
